(** * autobar.py: one Waybar per Hyprland monitor, reconciled by polling

    A shallow embedding of [.config/waybar/scripts/autobar.py] and the
    properties of its desired-set computation, of its process supervisor
    ([start_waybar_for], [stop_waybar_for]) and of [reconcile].

    Layout: Python values and containers, the host (processes, files,
    compositor queries) as an explicit [world] threaded through a small
    state-and-exception monad, the functions of the script in source order,
    the vocabulary of the statements, then the lemmas and the theorems, and
    last the statements run on concrete hosts.

    What the host does is not decided by the script: the answer to a
    query, whether a polled process has exited, whether a call to the
    operating system raises. A [world] carries these answers as lists that
    the calls consume, so a statement about every world is a statement
    about every behaviour of the host.

    The loop of [main] never ends; the model has one turn of it
    ([main_cycle]) and the loop cut after a given number of turns
    ([main_loop]). The signal handler [_shutdown] is modelled as a call made
    in a world between two calls of the script; that a signal arrives in the
    middle of one is outside the model. *)

From Stdlib Require Import ZArith String Ascii List DecimalString Decimal Permutation Lia.
From stdpp Require Import gmap strings list fin_maps.

Open Scope Z_scope.

Set Warnings "-register-all".

(** ** Python values as [json.loads] produces them *)

(** Numbers are integers: the ids and counts of the compositor's documents
    are, and floating point is left out of the model. A JSON object is the
    list of its fields; [assoc] reads the first binding of a key. *)
Inductive json : Type :=
| JNull
| JBool (b : bool)
| JInt (z : Z)
| JStr (s : string)
| JArr (items : list json)
| JObj (fields : list (string * json)).

(** Exceptions, all of them subclasses of [Exception]. *)
Inductive exn : Type :=
| AttributeError
| TypeError
| ValueError
| OSError
| CalledProcessError
| JSONDecodeError.

Inductive result (A : Type) : Type :=
| Ok (a : A)
| Raise (e : exn).
Arguments Ok {A} a.
Arguments Raise {A} e.

Definition rbind {A B} (r : result A) (f : A -> result B) : result B :=
  match r with
  | Ok a => f a
  | Raise e => Raise e
  end.

Global Instance result_ret : MRet result := @Ok.
Global Instance result_bind : MBind result := fun A B f r => rbind r f.

(** A [for] loop over [xs] that updates the loop state [s] and stops at the
    first exception. *)
Fixpoint for_acc {S X} (body : S -> X -> result S) (xs : list X) (s : S) : result S :=
  match xs with
  | [] => Ok s
  | x :: rest => rbind (body s x) (for_acc body rest)
  end.

(** [bool(v)] *)
Definition truthy (v : json) : bool :=
  match v with
  | JNull => false
  | JBool b => b
  | JInt z => negb (z =? 0)
  | JStr s => match s with EmptyString => false | _ => true end
  | JArr items => match items with [] => false | _ => true end
  | JObj fields => match fields with [] => false | _ => true end
  end.

(** [a or b] *)
Definition py_or (a b : json) : json := if truthy a then a else b.

(** [v is None], [v is True] *)
Definition is_None (v : json) : bool :=
  match v with JNull => true | _ => false end.

Definition is_True (v : json) : bool :=
  match v with JBool true => true | _ => false end.

Fixpoint assoc (k : string) (fields : list (string * json)) : option json :=
  match fields with
  | [] => None
  | (k', v) :: rest => if String.eqb k k' then Some v else assoc k rest
  end.

Arguments assoc : simpl never.

(** [o.get(k, dflt)]: only a dict has the method. *)
Definition get (o : json) (k : string) (dflt : json) : result json :=
  match o with
  | JObj fields => Ok (default dflt (assoc k fields))
  | _ => Raise AttributeError
  end.

(** What [for x in v] visits: the items of a list, the keys of a dict, the
    characters of a string (here its bytes); the other values are not
    iterable. *)
Definition iterate (v : json) : result (list json) :=
  match v with
  | JArr items => Ok items
  | JObj fields => Ok (map (fun kv => JStr (fst kv)) fields)
  | JStr s => Ok (map (fun c => JStr (String c EmptyString)) (list_ascii_of_string s))
  | _ => Raise TypeError
  end.

(** ** Hashable values, dicts and sets *)

(** A key as [hash] and [==] see it: [True == 1] and [False == 0], so a
    boolean and the integer it equals are one key. Lists and dicts are
    unhashable. *)
Inductive hkey : Type :=
| HNone
| HNum (z : Z)
| HStr (s : string).

Global Instance hkey_eq_dec : EqDecision hkey.
Proof. solve_decision. Defined.

Definition hash (v : json) : result hkey :=
  match v with
  | JNull => Ok HNone
  | JBool b => Ok (HNum (if b then 1 else 0))
  | JInt z => Ok (HNum z)
  | JStr s => Ok (HStr s)
  | JArr _ | JObj _ => Raise TypeError
  end.

(** A dict in insertion order. An entry keeps the key object that created
    it ([orig]) next to the key it hashes to ([canon]). *)
Record entry (V : Type) : Type := Entry { canon : hkey; orig : json; val : V }.
Arguments Entry {V} canon orig val.
Arguments canon {V} e.
Arguments orig {V} e.
Arguments val {V} e.

Definition pydict (V : Type) : Type := list (entry V).

Fixpoint dict_get {V} (k : hkey) (d : pydict V) : option V :=
  match d with
  | [] => None
  | e :: rest => if decide (canon e = k) then Some (val e) else dict_get k rest
  end.

(** [d[o] = v] for a key [o] hashing to [k]: an existing entry keeps its
    place and its key object, a new one goes last. *)
Fixpoint dict_set {V} (k : hkey) (o : json) (v : V) (d : pydict V) : pydict V :=
  match d with
  | [] => [Entry k o v]
  | e :: rest =>
      if decide (canon e = k) then Entry k (orig e) v :: rest
      else e :: dict_set k o v rest
  end.

(** [d.pop(o, None)]: no entry of the key is left. *)
Fixpoint dict_pop {V} (k : hkey) (d : pydict V) : pydict V :=
  match d with
  | [] => []
  | e :: rest => if decide (canon e = k) then dict_pop k rest else e :: dict_pop k rest
  end.

(** [counts.get(o, 0)]: the count a tally holds for a key. *)
Definition tally_at (k : hkey) (counts : pydict Z) : Z := default 0 (dict_get k counts).

Definition dict_keys {V} (d : pydict V) : list json := map orig d.
Definition dict_canon {V} (d : pydict V) : list hkey := map canon d.

(** A set is a dict without values. *)
Definition pyset : Type := pydict unit.

Definition set_mem (k : hkey) (s : pyset) : bool :=
  match dict_get k s with Some _ => true | None => false end.

Definition set_add (k : hkey) (o : json) (s : pyset) : pyset :=
  if set_mem k s then s else s ++ [Entry k o tt].

(** ** pathlib, as far as the script uses it *)

(** A pure POSIX path below the root: its parts. *)
Definition path : Type := list string.

(** ["/" + "/".join(parts)] *)
Definition path_str (p : path) : string :=
  match p with
  | [] => "/"
  | _ => String.concat "" (map (fun part => "/" +:+ part) p)
  end.

(** [s.split("/")] *)
Fixpoint split_slash (s : string) : list string :=
  match s with
  | EmptyString => [EmptyString]
  | String c rest =>
      if Ascii.eqb c "/" then EmptyString :: split_slash rest
      else match split_slash rest with
           | [] => [String c EmptyString]
           | part :: parts => String c part :: parts
           end
  end.

(** The parts a path segment contributes: empty parts and ["."] vanish. *)
Definition parts_of (s : string) : list string :=
  List.filter (fun part => negb (String.eqb part "") && negb (String.eqb part "."))
              (split_slash s).

(** [p / s]: a segment that starts at the root replaces [p]. *)
Definition joinpath (p : path) (s : string) : path :=
  match s with
  | String "/" _ => parts_of s
  | _ => p ++ parts_of s
  end.

(** [name.rfind(".")], counting from [i] *)
Fixpoint rfind_dot (i : nat) (name : string) : option nat :=
  match name with
  | EmptyString => None
  | String c rest =>
      match rfind_dot (S i) rest with
      | Some j => Some j
      | None => if Ascii.eqb c "." then Some i else None
      end
  end.

(** [PurePath.suffix]: from the last dot, unless the dot is first or last. *)
Definition suffix (name : string) : string :=
  match rfind_dot 0 name with
  | Some i =>
      if (0 <? i)%nat && (i <? String.length name - 1)%nat
      then substring i (String.length name - i) name
      else ""
  | None => ""
  end.

(** [p.with_suffix(sfx)] for a well-formed [sfx] such as [".tmp"] *)
Definition with_suffix (p : path) (sfx : string) : result path :=
  match last p with
  | None => Raise ValueError
  | Some name =>
      let stem := substring 0 (String.length name - String.length (suffix name)) name in
      Ok (removelast p ++ [stem +:+ sfx])
  end.

(** ** The host: processes, files, the compositor *)

Definition handle : Type := nat.

(** What a command printed, as far as [json.loads] can tell. *)
Inductive text : Type :=
| Malformed
| Document (j : json).

(** How [subprocess.check_output] went. *)
Inductive query_outcome : Type :=
| LaunchFailure
| Exited (code : Z) (out : text).

(** What the script does to the host, in order, each call with how it
    went ([ok]: it did not raise; [rc]: the exit status [poll] returned;
    [p]: the handle [Popen] returned). [Called_start] and [Called_stop]
    record the entry into the two supervisor operations. Durations are in
    milliseconds. *)
Inductive event : Type :=
| Called_start (mon_name : json)
| Called_stop (mon_name : json)
| Query (args : list string) (outcome : query_outcome)
| Poll (p : handle) (rc : option Z)
| Terminate (p : handle) (ok : bool)
| Kill (p : handle) (ok : bool)
| Sleep (ms : N)
| Mkdir (dir : path) (ok : bool)
| WriteText (file : path) (content : string) (ok : bool)
| Replace (src dst : path) (ok : bool)
| Spawn (argv : list string) (env : list (string * string)) (p : option handle).

(** The state the script runs in. [procs] is the module-level table;
    [returncode] holds the exit status of the handles already seen exited
    (a [Popen] object caches it); [queries], [polls] and [faults] are what
    the host will answer next: to a compositor query, to the poll of a
    process not yet seen exited ([None]: still running), and to a call that
    can fail ([true]: it raises). A list that has run out answers that the
    command could not be launched, that the process runs, that the call
    succeeds. *)
Record world : Type := World {
  procs : pydict handle;
  returncode : gmap handle Z;
  fresh : handle;
  files : gmap path string;
  environ : list (string * string);
  trace : list event;
  queries : list query_outcome;
  polls : list (option Z);
  faults : list bool
}.

Definition set_procs (f : pydict handle -> pydict handle) (w : world) : world :=
  World (f (procs w)) (returncode w) (fresh w) (files w) (environ w) (trace w)
        (queries w) (polls w) (faults w).
Definition set_returncode (f : gmap handle Z -> gmap handle Z) (w : world) : world :=
  World (procs w) (f (returncode w)) (fresh w) (files w) (environ w) (trace w)
        (queries w) (polls w) (faults w).
Definition set_fresh (h : handle) (w : world) : world :=
  World (procs w) (returncode w) h (files w) (environ w) (trace w)
        (queries w) (polls w) (faults w).
Definition set_files (f : gmap path string -> gmap path string) (w : world) : world :=
  World (procs w) (returncode w) (fresh w) (f (files w)) (environ w) (trace w)
        (queries w) (polls w) (faults w).
Definition set_trace (f : list event -> list event) (w : world) : world :=
  World (procs w) (returncode w) (fresh w) (files w) (environ w) (f (trace w))
        (queries w) (polls w) (faults w).
Definition set_queries (q : list query_outcome) (w : world) : world :=
  World (procs w) (returncode w) (fresh w) (files w) (environ w) (trace w)
        q (polls w) (faults w).
Definition set_polls (p : list (option Z)) (w : world) : world :=
  World (procs w) (returncode w) (fresh w) (files w) (environ w) (trace w)
        (queries w) p (faults w).
Definition set_faults (f : list bool) (w : world) : world :=
  World (procs w) (returncode w) (fresh w) (files w) (environ w) (trace w)
        (queries w) (polls w) f.

(** A computation reads and writes the world and returns or raises; what it
    did before raising stays done. *)
Definition M (A : Type) : Type := world -> result A * world.

Global Instance M_ret : MRet M := fun A a w => (Ok a, w).
Global Instance M_bind : MBind M := fun A B f m w =>
  match m w with
  | (Ok a, w') => f a w'
  | (Raise e, w') => (Raise e, w')
  end.

Definition lift {A} (r : result A) : M A := fun w => (r, w).
Definition gets {A} (f : world -> A) : M A := fun w => (Ok (f w), w).
Definition modify (f : world -> world) : M unit := fun w => (Ok tt, f w).
Definition log (e : event) : M unit := modify (set_trace (fun t => t ++ [e])).

(** [try: m except Exception: h] *)
Definition try_except {A} (m : M A) (h : exn -> M A) : M A := fun w =>
  match m w with
  | (Ok a, w') => (Ok a, w')
  | (Raise e, w') => h e w'
  end.

(** A [for] loop whose body acts on the world. *)
Fixpoint for_each {X} (xs : list X) (body : X -> M unit) : M unit :=
  match xs with
  | [] => mret tt
  | x :: rest => body x;; for_each rest body
  end.

Definition next_fault : M bool := fun w =>
  match faults w with
  | [] => (Ok false, w)
  | b :: rest => (Ok b, set_faults rest w)
  end.

(** A call that may raise [OSError] and otherwise does [effect]. *)
Definition fallible (e : bool -> event) (effect : world -> world) : M unit :=
  failed ← next_fault;
  log (e (negb failed));;
  if (failed : bool) then lift (Raise OSError) else modify effect.

Definition next_poll : M (option Z) := fun w =>
  match polls w with
  | [] => (Ok None, w)
  | a :: rest => (Ok a, set_polls rest w)
  end.

Definition next_query : M query_outcome := fun w =>
  match queries w with
  | [] => (Ok LaunchFailure, w)
  | q :: rest => (Ok q, set_queries rest w)
  end.

(** [subprocess.check_output(args, text=True)] *)
Definition check_output (args : list string) : M text :=
  q ← next_query;
  log (Query args q);;
  match q with
  | LaunchFailure => lift (Raise OSError)
  | Exited code out => if code =? 0 then mret out else lift (Raise CalledProcessError)
  end.

(** [json.loads(out)] *)
Definition json_loads (out : text) : result json :=
  match out with
  | Malformed => Raise JSONDecodeError
  | Document j => Ok j
  end.

(** [p.poll()]: the exit status, [None] while the process runs. *)
Definition poll (p : handle) : M (option Z) :=
  cached ← gets (fun w => returncode w !! p);
  rc ← match cached with
       | Some c => mret (Some c)
       | None =>
           ans ← next_poll;
           match ans with
           | Some c => modify (set_returncode (fun m => <[p:=c]> m));; mret (Some c)
           | None => mret None
           end
       end;
  log (Poll p rc);;
  mret rc.

(** [p.terminate()], [p.kill()], [time.sleep(ms / 1000)] *)
Definition terminate (p : handle) : M unit := fallible (Terminate p) id.
Definition kill (p : handle) : M unit := fallible (Kill p) id.
Definition sleep (ms : N) : M unit := log (Sleep ms).

(** [dir.mkdir(parents=True, exist_ok=True)]; directories are not tracked. *)
Definition mkdir (dir : path) : M unit := fallible (Mkdir dir) id.

(** [file.write_text(content)] *)
Definition write_text (file : path) (content : string) : M unit :=
  fallible (WriteText file content) (set_files (fun fs => <[file:=content]> fs)).

(** [src.replace(dst)] *)
Definition replace (src dst : path) : M unit :=
  failed ← next_fault;
  content ← gets (fun w => files w !! src);
  match (failed : bool), content with
  | false, Some c =>
      log (Replace src dst true);;
      modify (set_files (fun fs => <[dst:=c]> (delete src fs)))
  | _, _ => log (Replace src dst false);; lift (Raise OSError)
  end.

(** [subprocess.Popen(argv, env=env, ..., start_new_session=True)] *)
Definition Popen (argv : list string) (env : list (string * string)) : M handle :=
  failed ← next_fault;
  if (failed : bool) then log (Spawn argv env None);; lift (Raise OSError)
  else
    p ← gets fresh;
    modify (set_fresh (S p));;
    log (Spawn argv env (Some p));;
    mret p.

(** [env.setdefault(k, v)] on the copied environment *)
Definition setdefault (k v : string) (env : list (string * string)) : list (string * string) :=
  match List.find (fun kv => String.eqb (fst kv) k) env with
  | Some _ => env
  | None => env ++ [(k, v)]
  end.

(** [env.get(k)] *)
Definition getenv (k : string) (env : list (string * string)) : option string :=
  snd <$> List.find (fun kv => String.eqb (fst kv) k) env.

(** [file.exists()], for the files the world holds *)
Definition path_exists (file : path) : M bool :=
  gets (fun w => bool_decide (is_Some (files w !! file))).

(** What ends the process and not a cycle: [SystemExit] is no subclass of
    [Exception], and no [except Exception] of the script catches it. *)
Inductive exit : Type :=
| SystemExit.

(** ** A runtime and hosts to run the script on *)

(** The statements below hold for every [repr], [dumps], home directory
    and iteration order of sets. Where they are run on a concrete input, a
    plain rendering of a value as text stands for [repr] and [dumps], and a
    set is iterated in the order its members were added. *)
Definition quoted (s : string) : string :=
  let mark := String (ascii_of_nat 34) EmptyString in mark +:+ s +:+ mark.

Fixpoint render (v : json) : string :=
  match v with
  | JNull => "null"
  | JBool true => "true"
  | JBool false => "false"
  | JInt z => NilZero.string_of_int (Z.to_int z)
  | JStr s => quoted s
  | JArr items => "[" +:+ String.concat ", " (map render items) +:+ "]"
  | JObj fields =>
      "{" +:+ String.concat ", "
                (map (fun kv : string * json => let (k, x) := kv in
                                quoted k +:+ ": " +:+ render x) fields)
          +:+ "}"
  end.

Definition user_home : path := ["home"; "user"].

Definition insertion_order (keys : list json) : list json := keys.

(** A host with the given table and pending answers, nothing written and
    nothing logged yet. *)
Definition host (table : pydict handle) (next : handle) (qs : list query_outcome)
    (ps : list (option Z)) (fs : list bool) : world :=
  World table ∅ next ∅ [] [] qs ps fs.

(** Records of the two documents of the compositor, for two monitors. *)
Definition monitor_on (name : string) (ws : Z) : json :=
  JObj [("name", JStr name); ("activeWorkspace", JObj [("id", JInt ws)])].

Definition window_on (ws : Z) (mapped hidden : bool) : json :=
  JObj [("workspace", JObj [("id", JInt ws)]);
        ("mapped", JBool mapped); ("hidden", JBool hidden)].

Definition answer (records : list json) : query_outcome :=
  Exited 0 (Document (JArr records)).

(** Two monitors of one name, on the workspaces 1 and 2, and a visible
    window on workspace 1. *)
Definition twin_monitors : list json := [monitor_on "DP-1" 1; monitor_on "DP-1" 2].
Definition one_window : list json := [window_on 1 true false].

(** A monitor with a name and no active workspace; a monitor with an
    active workspace and no usable name. *)
Definition idle_monitor : json := JObj [("name", JStr "DP-1")].
Definition nameless_monitor : json :=
  JObj [("name", JStr ""); ("id", JStr "");
        ("activeWorkspace", JObj [("id", JInt 1)])].

(** Two monitors with a visible window each. *)
Definition two_monitors : list json := [monitor_on "DP-1" 1; monitor_on "DP-2" 2].
Definition two_windows : list json := [window_on 1 true false; window_on 2 true false].

(** Two cycles on an empty table with both monitors desired. In the first
    the launch for DP-1 succeeds and the launch for DP-2 fails; before the
    second the process of DP-1 exits, and its new launch fails too. *)
Definition two_failing_cycles : world :=
  host [] 0%nat
       [answer two_monitors; answer two_windows; answer two_monitors; answer two_windows]
       [Some 1]
       [false; false; false; false; false; false; false; true;
        false; false; false; true].

(** A cycle on a table that holds DP-2, with DP-1 alone desired. *)
Definition swap : world :=
  host [Entry (HStr "DP-2") (JStr "DP-2") 0%nat] 1%nat
       [answer two_monitors; answer one_window] [] [].

(** A cycle on a table that holds DP-1, with DP-1 alone desired. *)
Definition steady : world :=
  host [Entry (HStr "DP-1") (JStr "DP-1") 0%nat] 1%nat
       [answer two_monitors; answer one_window] [] [].

(** A cycle on a table that holds DP-2, the compositor not answering. *)
Definition blind : world :=
  host [Entry (HStr "DP-2") (JStr "DP-2") 0%nat] 1%nat [] [] [].

(** The outputs whose start, and whose stop, a trace records. *)
Definition started (t : list event) : list json :=
  omap (fun e => match e with Called_start mon_name => Some mon_name | _ => None end) t.

Definition stopped (t : list event) : list json :=
  omap (fun e => match e with Called_stop mon_name => Some mon_name | _ => None end) t.

(** ** The script *)

Section Script.

(** What the model takes from the Python runtime as it is: [repr] of a list
    or dict, [json.dumps(., indent=2)], the home directory the module
    constants are computed from at import, and the order in which a set
    built from the given keys is iterated. *)
Variable repr : json -> string.
Variable dumps : json -> string.
Variable home : path.
Variable set_order : list json -> list json.
Hypothesis set_order_permutes : forall keys, Permutation (set_order keys) keys.

(** [str(v)] *)
Definition str (v : json) : string :=
  match v with
  | JNull => "None"
  | JBool true => "True"
  | JBool false => "False"
  | JInt z => NilZero.string_of_int (Z.to_int z)
  | JStr s => s
  | JArr _ | JObj _ => repr v
  end.

Definition WAYBAR_BIN : string := "waybar".
Definition BASE_CONFIG : path := joinpath home ".config/waybar/config.jsonc".
Definition STYLE_CSS : path := joinpath home ".config/waybar/style.css".
Definition CACHE_DIR : path := joinpath home ".cache/autobar".
(** 0.5 s, in milliseconds like every duration of the model. *)
Definition POLL_INTERVAL_SEC : N := 500%N.

Definition run_json (args : list string) : M json :=
  try_except
    (out ← check_output args;
     lift (json_loads out))
    (fun _ => mret JNull).

(** The body of the loop of [get_monitors]. *)
Definition keep_monitor (mons : list json) (m : json) : result (list json) :=
  disabled ← get m "disabled" JNull;
  if is_True disabled then Ok mons else Ok (mons ++ [m]).

Definition get_monitors : M (list json) :=
  data ← run_json ["hyprctl"; "-j"; "monitors"];
  if negb (truthy data) then mret []
  else
    items ← lift (iterate data);
    lift (for_acc keep_monitor items []).

Definition get_clients : M json :=
  data ← run_json ["hyprctl"; "-j"; "clients"];
  if negb (truthy data) then mret (JArr [])
  else mret data.

(** [m.get("name") or m.get("description") or str(m.get("id"))] *)
Definition monitor_name (m : json) : result json :=
  name ← get m "name" JNull;
  description ← get m "description" JNull;
  id ← get m "id" JNull;
  Ok (py_or (py_or name description) (JStr (str id))).

(** [(o.get(field) or {}).get("id")] *)
Definition nested_id (o : json) (field : string) : result json :=
  inner ← get o field JNull;
  get (py_or inner (JObj [])) "id" JNull.

(** The bodies of the three loops of [monitors_needing_waybar]. *)
Definition map_monitor (ws_by_mon : pydict json) (m : json) : result (pydict json) :=
  wsid ← nested_id m "activeWorkspace";
  name ← monitor_name m;
  if negb (is_None wsid) && truthy name then
    k ← hash name;
    Ok (dict_set k name wsid ws_by_mon)
  else Ok ws_by_mon.

Definition count_client (counts_by_ws : pydict Z) (c : json) : result (pydict Z) :=
  ws ← nested_id c "workspace";
  if is_None ws then Ok counts_by_ws
  else
    mapped ← get c "mapped" (JBool false);
    if negb (truthy mapped) then Ok counts_by_ws
    else
      hidden ← get c "hidden" (JBool false);
      if truthy hidden then Ok counts_by_ws
      else
        k ← hash ws;
        Ok (dict_set k ws (tally_at k counts_by_ws + 1) counts_by_ws).

Definition add_needed (counts_by_ws : pydict Z) (need : pyset) (item : entry json)
  : result pyset :=
  k ← hash (val item);
  if 0 <? tally_at k counts_by_ws then
    kn ← hash (orig item);
    Ok (set_add kn (orig item) need)
  else Ok need.

(** The pure part of [monitors_needing_waybar], from the two answers. *)
Definition needed_of (mons : list json) (clients : json) : result pyset :=
  ws_by_mon ← for_acc map_monitor mons [];
  cs ← iterate clients;
  counts_by_ws ← for_acc count_client cs [];
  for_acc (add_needed counts_by_ws) ws_by_mon [].

Definition monitors_needing_waybar : M pyset :=
  mons ← get_monitors;
  clients ← get_clients;
  lift (needed_of mons clients).

Definition config_path (mon_name : json) : path :=
  joinpath CACHE_DIR ("waybar-" +:+ str mon_name +:+ ".jsonc").

Definition config_content (mon_name : json) : json :=
  JObj [("include", JStr (path_str BASE_CONFIG)); ("output", JArr [mon_name])].

Definition ensure_monitor_config (mon_name : json) : M path :=
  mkdir CACHE_DIR;;
  let cfg := config_path mon_name in
  let content := config_content mon_name in
  tmp ← lift (with_suffix cfg ".tmp");
  write_text tmp (dumps content);;
  replace tmp cfg;;
  mret cfg.

Definition start_waybar_for (mon_name : json) : M unit :=
  log (Called_start mon_name);;
  k ← lift (hash mon_name);
  table ← gets procs;
  running ← match dict_get k table with
            | Some p => rc ← poll p; mret (bool_decide (rc = None))
            | None => mret false
            end;
  if (running : bool) then mret tt
  else
    cfg ← ensure_monitor_config mon_name;
    env ← gets environ;
    p ← Popen [WAYBAR_BIN; "-c"; path_str cfg; "-s"; path_str STYLE_CSS]
              (setdefault "WAYBAR_LOG_LEVEL" "error" env);
    modify (set_procs (dict_set k mon_name p)).

(** [for _ in range(n): if p.poll() is not None: break; time.sleep(0.05)] *)
Fixpoint wait_exit (n : nat) (p : handle) : M unit :=
  match n with
  | O => mret tt
  | S n' =>
      rc ← poll p;
      match rc with
      | Some _ => mret tt
      | None => sleep 50;; wait_exit n' p
      end
  end.

Definition stop_waybar_for (mon_name : json) : M unit :=
  log (Called_stop mon_name);;
  k ← lift (hash mon_name);
  table ← gets procs;
  match dict_get k table with
  | None => mret tt
  | Some p =>
      rc ← poll p;
      match rc with
      | None =>
          try_except
            (terminate p;;
             wait_exit 20 p;;
             rc' ← poll p;
             match rc' with
             | None => kill p
             | Some _ => mret tt
             end)
            (fun _ => mret tt)
      | Some _ => mret tt
      end;;
      modify (set_procs (dict_pop k))
  end.

(** The bodies of the first and of the last loop of [reconcile]. *)
Definition stop_unneeded (needed : pyset) (mon_name : json) : M unit :=
  k ← lift (hash mon_name);
  if set_mem k needed then mret tt else stop_waybar_for mon_name.

Definition sweep_entry (item : entry handle) : M unit :=
  rc ← poll (val item);
  match rc with
  | Some _ =>
      k ← lift (hash (orig item));
      modify (set_procs (dict_pop k))
  | None => mret tt
  end.

Definition reconcile : M unit :=
  needed ← monitors_needing_waybar;
  table ← gets procs;
  for_each (dict_keys table) (stop_unneeded needed);;
  for_each (set_order (dict_keys needed)) start_waybar_for;;
  table' ← gets procs;
  for_each table' sweep_entry.

(** One turn of the loop of [main]. *)
Definition main_cycle : M unit :=
  try_except reconcile (fun _ => sleep 1000);;
  sleep POLL_INTERVAL_SEC.

(** The loop of [main], cut after [turns] turns. *)
Fixpoint main_loop (turns : nat) : M unit :=
  match turns with
  | O => mret tt
  | S turns' => main_cycle;; main_loop turns'
  end.

(** [main] with its loop cut after [turns] turns. The result is what it
    printed: the complaint about the missing base configuration, after
    which it returns, or nothing. *)
Definition main (turns : nat) : M (option string) :=
  present ← path_exists BASE_CONFIG;
  if negb present then
    mret (Some ("Missing base Waybar config at " +:+ path_str BASE_CONFIG))
  else main_loop turns;; mret None.

(** The signal handler. It ends in [raise SystemExit], which is its result
    here: [Ok SystemExit] is the handler raising [SystemExit], [Raise e] an
    exception of a stop that escaped before that. *)
Definition _shutdown : M exit :=
  table ← gets procs;
  for_each (dict_keys table) stop_waybar_for;;
  mret SystemExit.

(** ** Vocabulary of the statements *)

(** A value that can key a dict: anything but a list or a dict. *)
Definition scalar (v : json) : bool :=
  match v with
  | JArr _ | JObj _ => false
  | _ => true
  end.

(** A workspace reference: missing or otherwise false, or an object whose
    id is a scalar. *)
Definition id_ref (v : json) : bool :=
  match v with
  | JObj ws => scalar (default JNull (assoc "id" ws))
  | _ => negb (truthy v)
  end.

(** The records of the two documents of the compositor. *)
Definition client_record (c : json) : bool :=
  match c with
  | JObj fields => id_ref (default JNull (assoc "workspace" fields))
  | _ => false
  end.

Definition monitor_record (m : json) : bool :=
  match m with
  | JObj fields =>
      id_ref (default JNull (assoc "activeWorkspace" fields))
      && scalar (default JNull (assoc "name" fields))
      && scalar (default JNull (assoc "description" fields))
  | _ => false
  end.

(** The field of a record, when the record has it. *)
Definition field (o : json) (name : string) : option json :=
  match o with
  | JObj fields => assoc name fields
  | _ => None
  end.

(** The id a record refers to through [ref], when it carries one. *)
Definition ref_id (o : json) (ref : string) : option json :=
  match field o ref with
  | Some (JObj inner) =>
      match assoc "id" inner with
      | Some JNull | None => None
      | Some id => Some id
      end
  | _ => None
  end.

(** The field is there and true, or is missing or false, as [bool] of its
    value has it; for the flags of a record, [true] and [false]. *)
Definition field_true (o : json) (name : string) : Prop :=
  exists v, field o name = Some v /\ truthy v = true.

Definition field_absent_or_false (o : json) (name : string) : Prop :=
  field o name = None \/ exists v, field o name = Some v /\ truthy v = false.

(** The client is a visible window of the workspace keyed [k]; the
    decidable form counts such clients. *)
Definition visible_on (k : hkey) (c : json) : Prop :=
  (exists id, ref_id c "workspace" = Some id /\ hash id = Ok k)
  /\ field_true c "mapped"
  /\ field_absent_or_false c "hidden".

Definition visible_onb (k : hkey) (c : json) : bool :=
  match ref_id c "workspace" with
  | Some id =>
      match hash id with
      | Ok k' =>
          bool_decide (k' = k)
          && truthy (default (JBool false) (field c "mapped"))
          && negb (truthy (default (JBool false) (field c "hidden")))
      | Raise _ => false
      end
  | None => false
  end.

Definition visible_count (k : hkey) (clients : list json) : Z :=
  Z.of_nat (length (List.filter (visible_onb k) clients)).

(** The monitor is flagged disabled; the monitors [get_monitors] keeps. *)
Definition disabled (m : json) : bool :=
  match field m "disabled" with
  | Some (JBool true) => true
  | _ => false
  end.

Definition retained (data : list json) : list json :=
  List.filter (fun m => negb (disabled m)) data.

(** What a monitor record enters in the map: the key, the name and the
    active workspace id; nothing unless it has both a usable name and an
    active workspace id. *)
Definition monitor_entry (m : json) : option (hkey * json * json) :=
  match ref_id m "activeWorkspace", monitor_name m with
  | Some ws, Ok name =>
      if truthy name then
        match hash name with
        | Ok k => Some (k, name, ws)
        | Raise _ => None
        end
      else None
  | _, _ => None
  end.

(** The monitor is entered under the key [k]. *)
Definition keyed_by (k : hkey) (m : json) : Prop :=
  exists name ws, monitor_entry m = Some (k, name, ws).

(** [ws] is the active workspace id of the last monitor of the list that
    is entered under the key [k]. *)
Definition last_bound (mons : list json) (k : hkey) (ws : json) : Prop :=
  exists before m after name,
    mons = before ++ m :: after
    /\ monitor_entry m = Some (k, name, ws)
    /\ Forall (fun m' => ~ keyed_by k m') after.

(** The same as a function. *)
Fixpoint last_entry (k : hkey) (mons : list json) : option json :=
  match mons with
  | [] => None
  | m :: rest =>
      match last_entry k rest with
      | Some ws => Some ws
      | None =>
          match monitor_entry m with
          | Some (k', _, ws) => if decide (k' = k) then Some ws else None
          | None => None
          end
      end
  end.

(** Every entry of a dict is filed under the hash of its key object, and
    no key has two entries. *)
Definition keyed {V} (d : pydict V) : Prop :=
  NoDup (dict_canon d) /\ Forall (fun e => hash (orig e) = Ok (canon e)) d.

(** The answer the compositor gives next, the world once a query has been
    answered, and the document a query delivers to [run_json]. *)
Definition next_outcome (w : world) : query_outcome :=
  match queries w with
  | [] => LaunchFailure
  | q :: _ => q
  end.

Definition answered (args : list string) (w : world) : world :=
  set_trace (fun t => t ++ [Query args (next_outcome w)])
            match queries w with
            | [] => w
            | _ :: rest => set_queries rest w
            end.

Definition delivered (q : query_outcome) : json :=
  match q with
  | Exited code (Document j) => if code =? 0 then j else JNull
  | _ => JNull
  end.

(** The query failed: the command could not be launched, exited with a
    status other than zero, or printed what is not JSON. *)
Definition query_failed (q : query_outcome) : Prop :=
  match q with
  | LaunchFailure => True
  | Exited code out => code <> 0 \/ out = Malformed
  end.

Definition monitors_args : list string := ["hyprctl"; "-j"; "monitors"].
Definition clients_args : list string := ["hyprctl"; "-j"; "clients"].

(** The query succeeded with a list of the given records. *)
Definition lists (q : query_outcome) (records : list json) : Prop :=
  q = Exited 0 (Document (JArr records)).

(** The client is hidden, or is not mapped. *)
Definition hidden_or_unmapped (c : json) : Prop :=
  field_true c "hidden" \/ field_absent_or_false c "mapped".

(** The monitor has a usable name hashing to [k] and an active workspace
    id [ws]. *)
Definition named_with_workspace (m : json) (k : hkey) (ws : json) : Prop :=
  exists name, monitor_name m = Ok name /\ truthy name = true /\ hash name = Ok k
    /\ ref_id m "activeWorkspace" = Some ws.

(** No two monitors of the list are entered under the same key. *)
Definition distinct_names (mons : list json) : Prop :=
  forall i j m m' k, mons !! i = Some m -> mons !! j = Some m' ->
    keyed_by k m -> keyed_by k m' -> i = j.

(** An answer the script can work with: a failure, or a list of records. *)
Definition monitors_answer (q : query_outcome) : Prop :=
  query_failed q
  \/ exists mons, lists q mons /\ Forall (fun m => monitor_record m = true) mons.

Definition clients_answer (q : query_outcome) : Prop :=
  query_failed q
  \/ exists clients, lists q clients /\ Forall (fun c => client_record c = true) clients.

(** Every run of [m] relates the world it starts in to the world it ends
    in by [R], whether it returns or raises. *)
Definition steps {A} (R : relation world) (m : M A) : Prop :=
  forall w r w', m w = (r, w') -> R w w'.

(** The table is left as it is. *)
Definition same_table : relation world := fun w w' => procs w' = procs w.

(** The trace grows by events that all satisfy [Q]. *)
Definition emits (Q : event -> Prop) : relation world := fun w w' =>
  exists t, trace w' = trace w ++ t /\ Forall Q t.

(** An event that is not the entry into a supervisor operation. *)
Definition quiet (e : event) : Prop :=
  match e with
  | Called_start _ | Called_stop _ => False
  | _ => True
  end.

(** What the wait loop of [stop_waybar_for] logs in [n] rounds: the process
    is found running, then 50 ms pass. *)
Fixpoint waits (p : handle) (n : nat) : list event :=
  match n with
  | O => []
  | S n' => Poll p None :: Sleep 50 :: waits p n'
  end.

(** The ways to stop the process [p] of a table entry: it had exited
    already; the request to terminate raised; it exited within the wait,
    seen by the poll that leaves the loop and by the check after it; it
    exited right after the last round; it was still running after twenty
    rounds and was killed, whether or not the kill raised. *)
Inductive stopping (p : handle) : list event -> Prop :=
| stop_gone c :
    stopping p [Poll p (Some c)]
| stop_refused :
    stopping p [Poll p None; Terminate p false]
| stop_exits n c :
    (n < 20)%nat ->
    stopping p (Poll p None :: Terminate p true
                :: waits p n ++ [Poll p (Some c); Poll p (Some c)])
| stop_exits_late c :
    stopping p (Poll p None :: Terminate p true :: waits p 20 ++ [Poll p (Some c)])
| stop_kills ok :
    stopping p (Poll p None :: Terminate p true
                :: waits p 20 ++ [Poll p None; Kill p ok]).

(** The time slept in a trace, in milliseconds. *)
Fixpoint slept (t : list event) : N :=
  match t with
  | [] => 0%N
  | Sleep ms :: rest => (ms + slept rest)%N
  | _ :: rest => slept rest
  end.

(** The process of the handle is running when polled in [w]. *)
Definition alive (p : handle) (w : world) : Prop := fst (poll p w) = Ok None.

(** An event of the supporting kind: neither the entry into a supervisor
    operation nor the launch of a process. *)
Definition supporting (e : event) : Prop :=
  match e with
  | Called_start _ | Called_stop _ | Spawn _ _ _ => False
  | _ => True
  end.

(** The processes launched in a trace. *)
Definition launched (t : list event) : list handle :=
  omap (fun e => match e with Spawn _ _ (Some p) => Some p | _ => None end) t.

(** The entries a table holds for a key. *)
Definition entries_for {V} (k : hkey) (d : pydict V) : list (entry V) :=
  List.filter (fun e => bool_decide (canon e = k)) d.

(** The last character of a string. *)
Fixpoint last_ascii (s : string) : option ascii :=
  match s with
  | EmptyString => None
  | String c rest =>
      match last_ascii rest with
      | Some c' => Some c'
      | None => Some c
      end
  end.

(** The next [n] calls that can fail will not. *)
Definition no_fault (n : nat) (w : world) : Prop :=
  Forall (fun failed => failed = false) (take n (faults w)).

(** What the first loop of [reconcile] may log, for the desired set
    [needed] and the table [table] of the cycle: no start, and stops only
    of outputs of the table that are not desired. *)
Definition stop_phase (needed : pyset) (table : pydict handle) (e : event) : Prop :=
  match e with
  | Called_start _ => False
  | Called_stop mon_name =>
      mon_name ∈ dict_keys table
      /\ exists k, hash mon_name = Ok k /\ set_mem k needed = false
  | _ => True
  end.

(** What the rest of [reconcile] may log: no stop, and starts only of
    desired outputs. *)
Definition start_phase (needed : pyset) (e : event) : Prop :=
  match e with
  | Called_stop _ => False
  | Called_start mon_name => mon_name ∈ dict_keys needed
  | _ => True
  end.

(** ** Vocabulary of the further properties *)

(** The run leaves [f] of the world as it is. *)
Definition keeps {A} (f : world -> A) : relation world := fun w w' => f w' = f w.

(** What stopping a process has no business with: the files, the handle
    the next launch returns, the environment, the answers of the
    compositor. *)
Definition beside_processes (w : world) : gmap path string * handle
    * list (string * string) * list query_outcome :=
  (files w, fresh w, environ w, queries w).

(** What a query has no business with: all but the trace and the pending
    answers of the compositor. *)
Definition beside_queries (w : world) : pydict handle * gmap handle Z * handle
    * gmap path string * list (string * string) * list (option Z) * list bool :=
  (procs w, returncode w, fresh w, files w, environ w, polls w, faults w).

(** An event of the stop of the process [p]: the process is polled, asked
    to terminate or killed, or time passes. *)
Definition concerns (p : handle) (e : event) : Prop :=
  match e with
  | Poll q _ | Terminate q _ | Kill q _ => q = p
  | Sleep _ => True
  | _ => False
  end.

(** The process an event sends a signal to. *)
Definition signalled (e : event) : option handle :=
  match e with
  | Terminate p _ | Kill p _ => Some p
  | _ => None
  end.

(** A JSON object. *)
Definition is_object (v : json) : bool :=
  match v with
  | JObj _ => true
  | _ => false
  end.

(** The string has no slash. *)
Fixpoint slash_free (s : string) : bool :=
  match s with
  | EmptyString => true
  | String c rest => negb (Ascii.eqb c "/") && slash_free rest
  end.

(** What a launch has no business with: the environment, the exit
    statuses seen, the pending answers to polls and to queries. *)
Definition beside_launch (w : world) : list (string * string) * gmap handle Z
    * list (option Z) * list query_outcome :=
  (environ w, returncode w, polls w, queries w).

(** The command line of the instance of an output. *)
Definition command_line (mon_name : json) : list string :=
  [WAYBAR_BIN; "-c"; path_str (config_path mon_name); "-s"; path_str STYLE_CSS].

(** What [start_waybar_for] logs when it launches: the three steps of the
    configuration file through the temporary file [tmp], then the launch,
    which returns the handle [p]. *)
Definition launch_events (mon_name : json) (tmp : path) (env : list (string * string))
    (p : handle) : list event :=
  [Mkdir CACHE_DIR true;
   WriteText tmp (dumps (config_content mon_name)) true;
   Replace tmp (config_path mon_name) true;
   Spawn (command_line mon_name) (setdefault "WAYBAR_LOG_LEVEL" "error" env) (Some p)].

(** An event of the file system. *)
Definition file_event (e : event) : Prop :=
  match e with
  | Mkdir _ _ | WriteText _ _ _ | Replace _ _ _ => True
  | _ => False
  end.

(** An event that is no query of the compositor. *)
Definition silent (e : event) : Prop :=
  match e with
  | Query _ _ => False
  | _ => True
  end.

(** The commands a trace asks the compositor, in order. *)
Definition asked (t : list event) : list (list string) :=
  omap (fun e => match e with Query args _ => Some args | _ => None end) t.

(** The trace of a shutdown over the given table entries: for each entry
    in turn the stop of its output, doing to its process what
    [stop_waybar_for] does to the process of an entry. *)
Inductive shutting : pydict handle -> list event -> Prop :=
| shut_nil : shutting [] []
| shut_cons e table t1 t :
    stopping (val e) t1 -> shutting table t ->
    shutting (e :: table) (Called_stop (orig e) :: t1 ++ t).

(** An exit status once seen stays: the handles seen exited in [w] are
    seen exited, with the same status, in [w']. *)
Definition remembers : relation world := fun w w' =>
  forall p c, returncode w !! p = Some c -> returncode w' !! p = Some c.

(** The handles of the table are distinct, and each was returned by a
    launch before: it lies below the handle the next launch returns. *)
Definition handles_ok (w : world) : Prop :=
  NoDup (map val (procs w)) /\ Forall (fun e => (val e < fresh w)%nat) (procs w).

(** A host on which all goes well from [w] on: no call to the operating
    system raises, every process polled is found running, and no process
    of the table, nor one launched later, has been seen exited. *)
Definition cooperative (w : world) : Prop :=
  Forall (fun failed => failed = false) (faults w)
  /\ Forall (fun rc => rc = None) (polls w)
  /\ forall p, is_Some (returncode w !! p) ->
       (p < fresh w)%nat /\ p ∉ map val (procs w).

(** On a host on which all goes well the run keeps it so, and sees no
    process exit. *)
Definition calm : relation world := fun w w' =>
  Forall (fun failed => failed = false) (faults w) ->
  Forall (fun rc => rc = None) (polls w) ->
  Forall (fun failed => failed = false) (faults w')
  /\ Forall (fun rc => rc = None) (polls w')
  /\ returncode w' = returncode w.

(** An event that sends no signal. *)
Definition peaceful (e : event) : Prop := signalled e = None.

(** What a cycle logs when it has nothing to do: the output of a running
    instance is started, a process is found running. *)
Definition idle (e : event) : Prop :=
  match e with
  | Called_start _ | Poll _ None => True
  | _ => False
  end.

(** An event of a stop: the entry into [stop_waybar_for] and what it does
    to a process. *)
Definition stop_event (e : event) : Prop :=
  match e with
  | Called_stop _ | Poll _ _ | Terminate _ _ | Kill _ _ | Sleep _ => True
  | _ => False
  end.

(** ** Dicts *)

Lemma dict_get_set {V} (k k' : hkey) (o : json) (v : V) (d : pydict V) :
  dict_get k' (dict_set k o v d) = if decide (k = k') then Some v else dict_get k' d.
Proof.
  induction d as [|e d IH]; simpl.
  - repeat case_decide; congruence.
  - repeat (case_decide; simpl); try congruence.
Qed.

Lemma dict_get_pop {V} (k k' : hkey) (d : pydict V) :
  dict_get k' (dict_pop k d) = if decide (k = k') then None else dict_get k' d.
Proof.
  induction d as [|e d IH]; simpl.
  - by case_decide.
  - repeat (case_decide; simpl); try congruence.
Qed.

Lemma tally_at_set (k k' : hkey) (o : json) (n : Z) (counts : pydict Z) :
  tally_at k' (dict_set k o n counts) = if decide (k = k') then n else tally_at k' counts.
Proof. unfold tally_at. rewrite dict_get_set. by case_decide. Qed.

(** ** The tally of visible clients *)

Ltac rsimpl := cbn [mbind result_bind rbind mret result_ret] in *.

Lemma visible_onb_spec (k : hkey) (c : json) :
  visible_onb k c = true <-> visible_on k c.
Proof.
  unfold visible_onb, visible_on, field_true, field_absent_or_false.
  destruct (ref_id c "workspace") as [id|]; [|split; [done|intros [[? [? _]] _]; done]].
  destruct (hash id) as [k'|e] eqn:Hh.
  - rewrite !andb_true_iff, bool_decide_eq_true, negb_true_iff. split.
    + intros [[-> Hm] Hhid]. split; [eauto|]. split.
      * destruct (field c "mapped") as [v|]; [eauto|done].
      * destruct (field c "hidden") as [v|]; [right; eauto|by left].
    + intros [[id' [[= <-] Hk]] [[v [Hv Ht]] Hhid]]. rewrite Hh in Hk.
      injection Hk as ->. rewrite Hv. simpl. repeat split; [done|].
      destruct Hhid as [->|[v' [-> Hf]]]; done.
  - split; [done|]. intros [[id' [[= <-] Hk]] _]. congruence.
Qed.

Lemma nested_id_record (fields : list (string * json)) (ref : string) :
  id_ref (default JNull (assoc ref fields)) = true ->
  exists id, nested_id (JObj fields) ref = Ok id
    /\ scalar id = true
    /\ ref_id (JObj fields) ref = (if is_None id then None else Some id).
Proof.
  unfold nested_id, ref_id, field. rsimpl. simpl.
  destruct (assoc ref fields) as [v|]; simpl.
  - destruct v as [|b|z|s|items|inner]; simpl; intros Hf;
      try (exists JNull; unfold py_or; simpl; rewrite ?(negb_true_iff _) in Hf;
           try rewrite Hf; done).
    unfold py_or. destruct inner as [|kv inner]; simpl.
    + exists JNull. done.
    + exists (default JNull (assoc "id" (kv :: inner))). split; [done|].
      split; [done|]. by destruct (assoc "id" (kv :: inner)) as [[]|].
  - intros _. exists JNull. done.
Qed.

Lemma count_client_step (counts : pydict Z) (c : json) :
  client_record c = true ->
  exists counts', count_client counts c = Ok counts'
    /\ forall k, tally_at k counts'
               = tally_at k counts + (if visible_onb k c then 1 else 0).
Proof.
  destruct c as [| | | | |fields]; try done. simpl. intros Hrec.
  destruct (nested_id_record fields "workspace" Hrec) as (id & Hid & Hsc & Href).
  unfold count_client, visible_onb. rewrite Hid, Href. rsimpl.
  destruct (is_None id) eqn:Hnone.
  { eexists. split; [done|]. intros k. lia. }
  simpl.
  destruct (truthy (default (JBool false) (assoc "mapped" fields))) eqn:Hm; simpl.
  2:{ eexists. split; [done|]. intros k.
      destruct (hash id); rewrite ?andb_false_r; simpl; lia. }
  destruct (truthy (default (JBool false) (assoc "hidden" fields))) eqn:Hh; simpl.
  { eexists. split; [done|]. intros k.
    destruct (hash id); rewrite ?andb_false_r; simpl; lia. }
  destruct (hash id) as [k0|e] eqn:Hk; [|by destruct id].
  rsimpl. eexists. split; [done|]. intros k. rewrite tally_at_set.
  rewrite !andb_true_r. case_decide; subst.
  - rewrite bool_decide_eq_true_2 by done. done.
  - rewrite bool_decide_eq_false_2 by done. lia.
Qed.

Lemma tally_acc (clients : list json) (acc : pydict Z) :
  Forall (fun c => client_record c = true) clients ->
  exists counts, for_acc count_client clients acc = Ok counts
    /\ forall k, tally_at k counts = tally_at k acc + visible_count k clients.
Proof.
  unfold visible_count. intros Hall. revert acc.
  induction Hall as [|c clients Hc _ IH]; intros acc; simpl.
  - eexists. split; [done|]. intros k. lia.
  - destruct (count_client_step acc c Hc) as (acc' & -> & Hacc'). simpl.
    destruct (IH acc') as (counts & -> & Hcounts).
    eexists. split; [done|]. intros k. rewrite Hcounts, Hacc'.
    destruct (visible_onb k c); simpl length; lia.
Qed.

(** ** The monitor map *)

Lemma keep_monitor_acc (data acc : list json) :
  Forall (fun m => exists fields, m = JObj fields) data ->
  for_acc keep_monitor data acc = Ok (acc ++ retained data).
Proof.
  intros Hall. revert acc. induction Hall as [|m data [fields ->] _ IH]; intros acc; simpl.
  - by rewrite app_nil_r.
  - unfold keep_monitor at 1. unfold disabled. simpl. rsimpl.
    destruct (assoc "disabled" fields) as [[|[]| | | |]|]; simpl; rewrite IH;
      try done; by rewrite <- app_assoc.
Qed.

Lemma last_entry_bound (k : hkey) (mons : list json) (ws : json) :
  last_entry k mons = Some ws <-> last_bound mons k ws.
Proof.
  revert ws. induction mons as [|m mons IH]; intros ws; simpl.
  - split; [done|]. intros (before & m & after & name & Heq & _).
    by destruct before.
  - destruct (last_entry k mons) as [ws'|] eqn:Hlast.
    + destruct (proj1 (IH ws') eq_refl) as (before & m' & after & name & -> & Hm' & Hafter).
      split.
      * intros [= <-]. exists (m :: before), m', after, name. done.
      * intros (before2 & m2 & after2 & name2 & Heq & Hm2 & Hafter2).
        assert (Hcase : (before2 = [] /\ m2 = m /\ after2 = before ++ m' :: after)
                        \/ exists b, before2 = m :: b /\ before ++ m' :: after = b ++ m2 :: after2).
        { destruct before2 as [|x b]; simpl in Heq; injection Heq as <- Hrest;
            [left; done | right; eauto]. }
        destruct Hcase as [(-> & -> & ->)|(b & -> & Heq')].
        -- apply Forall_app in Hafter2 as [_ Hafter2].
           apply Forall_cons in Hafter2 as [Hno _]. exfalso. apply Hno.
           by exists name, ws'.
        -- assert (Hb : last_bound (before ++ m' :: after) k ws).
           { rewrite Heq'. by exists b, m2, after2, name2. }
           apply IH in Hb. congruence.
    + assert (Hnone : Forall (fun m' => ~ keyed_by k m') mons).
      { clear IH. induction mons as [|x mons IHm]; [done|]. simpl in Hlast.
        destruct (last_entry k mons) eqn:Hl; [done|].
        constructor; [|by apply IHm].
        intros (name & ws0 & Hx). rewrite Hx in Hlast. by case_decide. }
      split.
      * destruct (monitor_entry m) as [[[k' name] ws0]|] eqn:Hm; [|done].
        case_decide; [|done]. subst. intros [= <-].
        by exists [], m, mons, name.
      * intros (before & m2 & after & name & Heq & Hm2 & Hafter).
        destruct before as [|x b]; simpl in Heq; injection Heq as <- Hrest.
        -- rewrite Hm2. by rewrite decide_True.
        -- subst mons. apply Forall_app in Hnone as [_ Hnone].
           apply Forall_cons in Hnone as [Hno _]. exfalso. apply Hno.
           by exists name, ws.
Qed.

Lemma dict_canon_set {V} (k : hkey) (o : json) (v : V) (d : pydict V) :
  dict_canon (dict_set k o v d)
  = if decide (k ∈ dict_canon d) then dict_canon d else dict_canon d ++ [k].
Proof.
  unfold dict_canon. induction d as [|e d IH]; simpl.
  - done.
  - destruct (decide (canon e = k)) as [He|He]; simpl.
    + subst. rewrite decide_True; [done|]. apply elem_of_cons. by left.
    + rewrite IH. destruct (decide (k ∈ map canon d)) as [Hin|Hin].
      * rewrite decide_True; [done|]. apply elem_of_cons. by right.
      * rewrite decide_False; [done|]. intros [->|?]%elem_of_cons; done.
Qed.

Lemma keyed_set {V} (k : hkey) (o : json) (v : V) (d : pydict V) :
  hash o = Ok k -> keyed d -> keyed (dict_set k o v d).
Proof.
  intros Hk [Hnd Hall]. split.
  - rewrite dict_canon_set. case_decide; [done|].
    apply NoDup_app. repeat split; [done| |apply NoDup_singleton].
    intros x Hx ->%list_elem_of_singleton. done.
  - clear Hnd. induction Hall as [|e d He Hd IH]; simpl.
    + by constructor.
    + case_decide; constructor; simpl; try done. by subst.
Qed.

Lemma keyed_pop {V} (k : hkey) (d : pydict V) : keyed d -> keyed (dict_pop k d).
Proof.
  intros [Hnd Hall]. split.
  - unfold dict_canon in *. induction d as [|e d IH]; simpl; [done|].
    apply NoDup_cons in Hnd as [Hnot Hnd]. apply Forall_cons in Hall as [_ Hall].
    case_decide; [by apply IH|]. simpl. apply NoDup_cons. split; [|by apply IH].
    intros Hin. apply Hnot. clear -Hin.
    induction d as [|x d IHd]; simpl in *; [done|].
    case_decide; [apply elem_of_cons; right; by apply IHd|].
    apply elem_of_cons in Hin as [->|Hin]; apply elem_of_cons; [by left|right; by apply IHd].
  - clear Hnd. induction Hall as [|e d He Hd IH]; simpl; [done|].
    case_decide; [done|]. by constructor.
Qed.

Lemma keyed_nil {V} : keyed ([] : pydict V).
Proof. split; [apply NoDup_nil_2|constructor]. Qed.

Lemma monitor_name_record (fields : list (string * json)) :
  scalar (default JNull (assoc "name" fields)) = true ->
  scalar (default JNull (assoc "description" fields)) = true ->
  exists name, monitor_name (JObj fields) = Ok name /\ scalar name = true.
Proof.
  intros Hn Hd. unfold monitor_name. simpl. rsimpl. eexists. split; [done|].
  unfold py_or. repeat case_match; done.
Qed.

Lemma scalar_hash (v : json) : scalar v = true -> exists k, hash v = Ok k.
Proof. destruct v; simpl; eauto; done. Qed.

Lemma map_monitor_step (d : pydict json) (m : json) :
  monitor_record m = true ->
  map_monitor d m
  = Ok match monitor_entry m with
       | Some (k, name, ws) => dict_set k name ws d
       | None => d
       end
  /\ match monitor_entry m with
     | Some (k, name, ws) => hash name = Ok k /\ scalar ws = true
     | None => True
     end.
Proof.
  destruct m as [| | | | |fields]; try done. simpl.
  intros [[Href Hn]%andb_true_iff Hd]%andb_true_iff.
  destruct (nested_id_record fields "activeWorkspace" Href) as (ws & Hws & Hsc & Hid).
  destruct (monitor_name_record fields Hn Hd) as (name & Hname & Hscn).
  unfold map_monitor, monitor_entry. rewrite Hws, Hname, Hid. rsimpl.
  destruct (scalar_hash name Hscn) as [k Hk]. rewrite Hk.
  destruct (is_None ws); simpl; [done|].
  destruct (truthy name); simpl; done.
Qed.

Lemma ws_by_mon_acc (mons : list json) (acc : pydict json) :
  Forall (fun m => monitor_record m = true) mons ->
  keyed acc -> Forall (fun e => scalar (val e) = true) acc ->
  exists d, for_acc map_monitor mons acc = Ok d
    /\ keyed d /\ Forall (fun e => scalar (val e) = true) d
    /\ forall k, dict_get k d = match last_entry k mons with
                               | Some ws => Some ws
                               | None => dict_get k acc
                               end.
Proof.
  intros Hall. revert acc. induction Hall as [|m mons Hm _ IH]; intros acc Hk Hsc; simpl.
  - eauto.
  - destruct (map_monitor_step acc m Hm) as [-> Hentry]. simpl.
    set (acc' := match monitor_entry m with
                 | Some (k, name, ws) => dict_set k name ws acc
                 | None => acc
                 end).
    assert (Hk' : keyed acc').
    { subst acc'. destruct (monitor_entry m) as [[[k name] ws]|]; [|done].
      destruct Hentry. by apply keyed_set. }
    assert (Hsc' : Forall (fun e => scalar (val e) = true) acc').
    { subst acc'. destruct (monitor_entry m) as [[[k name] ws]|]; [|done].
      destruct Hentry as [_ Hws]. clear -Hsc Hws.
      induction Hsc as [|e d He Hd IHd]; simpl; [by constructor|].
      case_decide; constructor; done. }
    destruct (IH acc' Hk' Hsc') as (d & -> & Hkd & Hscd & Hget).
    exists d. do 3 (split; [done|]). intros k. rewrite Hget.
    destruct (last_entry k mons); [done|]. subst acc'.
    destruct (monitor_entry m) as [[[k' name] ws]|]; [|done].
    rewrite dict_get_set. by case_decide.
Qed.

(** ** The set of needed monitors *)

Lemma dict_get_app {V} (k : hkey) (d d' : pydict V) :
  dict_get k (d ++ d') = match dict_get k d with
                         | Some v => Some v
                         | None => dict_get k d'
                         end.
Proof. induction d as [|e d IH]; simpl; [done|]. by case_decide. Qed.

Lemma dict_get_Some {V} (k : hkey) (d : pydict V) (v : V) :
  dict_get k d = Some v -> exists e, e ∈ d /\ canon e = k /\ val e = v.
Proof.
  induction d as [|e d IH]; simpl; [done|]. case_decide.
  - intros [= <-]. exists e. split; [apply elem_of_cons; by left|done].
  - intros (e' & Hin & He')%IH. exists e'. split; [apply elem_of_cons; by right|done].
Qed.

Lemma dict_get_elem {V} (d : pydict V) (e : entry V) :
  NoDup (dict_canon d) -> e ∈ d -> dict_get (canon e) d = Some (val e).
Proof.
  unfold dict_canon. induction d as [|x d IH]; simpl; [by intros _ ?%elem_of_nil|].
  intros [Hnot Hnd]%NoDup_cons [->|Hin]%elem_of_cons.
  - by rewrite decide_True.
  - rewrite decide_False; [by apply IH|]. intros Heq. apply Hnot. rewrite Heq.
    apply list_elem_of_fmap. by exists e.
Qed.

Lemma dict_get_is_Some {V} (k : hkey) (d : pydict V) :
  is_Some (dict_get k d) <-> k ∈ dict_canon d.
Proof.
  unfold dict_canon. induction d as [|e d IH]; simpl.
  - split; [by intros [? ?]|by intros ?%elem_of_nil].
  - case_decide as He.
    + split; [|by eauto]. intros _. apply elem_of_cons. by left.
    + rewrite IH. split; [intros ?; apply elem_of_cons; by right|].
      intros [?|?]%elem_of_cons; congruence.
Qed.

Lemma set_mem_add (k k' : hkey) (o : json) (s : pyset) :
  set_mem k' (set_add k o s) = bool_decide (k = k') || set_mem k' s.
Proof.
  unfold set_add, set_mem. destruct (dict_get k s) as [[]|] eqn:Hk.
  - destruct (decide (k = k')) as [<-|Hne].
    + by rewrite Hk, bool_decide_eq_true_2.
    + by rewrite bool_decide_eq_false_2.
  - rewrite dict_get_app. simpl. destruct (dict_get k' s) as [[]|] eqn:Hk'.
    + by rewrite orb_true_r.
    + case_decide; [by rewrite bool_decide_eq_true_2|by rewrite bool_decide_eq_false_2].
Qed.

Lemma keyed_set_add (k : hkey) (o : json) (s : pyset) :
  hash o = Ok k -> keyed s -> keyed (set_add k o s).
Proof.
  intros Hk [Hnd Hall]. unfold set_add, set_mem.
  destruct (dict_get k s) as [[]|] eqn:Hget; [done|]. split.
  - unfold dict_canon. rewrite map_app. simpl. apply NoDup_app.
    repeat split; [done| |apply NoDup_singleton].
    intros x Hx ->%list_elem_of_singleton.
    apply dict_get_is_Some in Hx. rewrite Hget in Hx. by destruct Hx.
  - apply Forall_app. split; [done|]. by constructor.
Qed.

Lemma set_mem_elem (s : pyset) (e : entry unit) : e ∈ s -> set_mem (canon e) s = true.
Proof.
  intros Hin. unfold set_mem.
  assert (His : is_Some (dict_get (canon e) s)).
  { apply dict_get_is_Some. apply list_elem_of_fmap. by exists e. }
  by destruct His as [? ->].
Qed.

Lemma need_acc (counts : pydict Z) (d : pydict json) (acc : pyset) :
  Forall (fun e => hash (orig e) = Ok (canon e)) d ->
  Forall (fun e => scalar (val e) = true) d ->
  keyed acc ->
  exists need, for_acc (add_needed counts) d acc = Ok need
    /\ keyed need
    /\ forall k, set_mem k need = true
         <-> set_mem k acc = true
             \/ exists e kw, e ∈ d /\ canon e = k /\ hash (val e) = Ok kw
                             /\ 0 < tally_at kw counts.
Proof.
  intros Hall. revert acc. induction Hall as [|e d He Hd IH]; intros acc Hsc Hacc; simpl.
  - exists acc. do 2 (split; [done|]). intros k. split; [by left|].
    intros [?|(e & kw & ?%elem_of_nil & _)]; done.
  - apply Forall_cons in Hsc as [Hse Hsc].
    destruct (scalar_hash _ Hse) as [kw Hkw].
    unfold add_needed at 1. rewrite Hkw, He. rsimpl.
    destruct (0 <? tally_at kw counts) eqn:Hpos.
    + destruct (IH (set_add (canon e) (orig e) acc) Hsc) as (need & Hneed & Hkn & Hmem).
      { by apply keyed_set_add. }
      exists need. do 2 (split; [done|]). intros k. rewrite Hmem, set_mem_add.
      rewrite orb_true_iff, bool_decide_eq_true. split.
      * intros [[<-|?]|(e' & kw' & Hin & ?)].
        -- right. exists e, kw. repeat split; [apply elem_of_cons; by left|done|lia].
        -- by left.
        -- right. exists e', kw'. split; [apply elem_of_cons; by right|done].
      * intros [?|(e' & kw' & [->|Hin]%elem_of_cons & Hk' & ?)].
        -- left. by right.
        -- left. by left.
        -- right. by exists e', kw'.
    + destruct (IH acc Hsc Hacc) as (need & Hneed & Hkn & Hmem).
      exists need. do 2 (split; [done|]). intros k. rewrite Hmem. split.
      * intros [?|(e' & kw' & Hin & ?)]; [by left|].
        right. exists e', kw'. split; [apply elem_of_cons; by right|done].
      * intros [?|(e' & kw' & [->|Hin]%elem_of_cons & Hk' & Hh & Ht)].
        -- by left.
        -- rewrite Hkw in Hh. injection Hh as <-. apply Z.ltb_ge in Hpos. lia.
        -- right. by exists e', kw'.
Qed.

Lemma add_needed_ext (counts counts' : pydict Z) (d : pydict json) (acc : pyset) :
  (forall k, tally_at k counts = tally_at k counts') ->
  for_acc (add_needed counts) d acc = for_acc (add_needed counts') d acc.
Proof.
  intros Heq. revert acc. induction d as [|e d IH]; intros acc; simpl; [done|].
  unfold add_needed at 1 3. destruct (hash (val e)) as [kw|]; rsimpl; [|done].
  rewrite Heq. destruct (0 <? tally_at kw counts'); [|apply IH].
  destruct (hash (orig e)); rsimpl; [apply IH|done].
Qed.

Lemma needed_of_spec (mons clients : list json) :
  Forall (fun m => monitor_record m = true) mons ->
  Forall (fun c => client_record c = true) clients ->
  exists need, needed_of mons (JArr clients) = Ok need
    /\ keyed need
    /\ forall k, set_mem k need = true
         <-> exists ws kw, last_bound mons k ws /\ hash ws = Ok kw
                           /\ 0 < visible_count kw clients.
Proof.
  intros Hm Hc. unfold needed_of.
  destruct (ws_by_mon_acc mons [] Hm keyed_nil) as (d & -> & [Hnd Hkd] & Hsd & Hget);
    [constructor|].
  destruct (tally_acc clients [] Hc) as (counts & Hcounts & Htally).
  rsimpl. simpl. rewrite Hcounts. simpl.
  destruct (need_acc counts d [] Hkd Hsd keyed_nil) as (need & -> & Hkn & Hmem).
  exists need. do 2 (split; [done|]). intros k. rewrite Hmem. split.
  - intros [?|(e & kw & Hin & <- & Hh & Hpos)]; [done|].
    exists (val e), kw. split; [|split; [done|]].
    + apply last_entry_bound. pose proof (Hget (canon e)) as Hg.
      rewrite (dict_get_elem d e Hnd Hin) in Hg.
      destruct (last_entry (canon e) mons); [done|]. done.
    + rewrite Htally in Hpos. unfold tally_at in Hpos. simpl in Hpos. lia.
  - intros (ws & kw & Hb%last_entry_bound & Hh & Hpos). right.
    pose proof (Hget k) as Hg. rewrite Hb in Hg.
    apply dict_get_Some in Hg as (e & Hin & <- & <-).
    exists e, kw. repeat split; try done. rewrite Htally. unfold tally_at at 1. simpl. lia.
Qed.

(** ** Queries *)

Ltac mrun := unfold mbind at 1, M_bind at 1.

Ltac munfold :=
  unfold mbind, M_bind, mret, M_ret, lift, gets, modify, log, try_except in *.

Lemma run_json_eq (args : list string) (w : world) :
  run_json args w = (Ok (delivered (next_outcome w)), answered args w).
Proof.
  unfold run_json, check_output, next_query, answered, next_outcome, delivered.
  munfold. destruct (queries w) as [|[|code [|j]] rest]; simpl; try done;
    destruct (code =? 0); done.
Qed.

Lemma delivered_failed (q : query_outcome) : query_failed q -> delivered q = JNull.
Proof.
  destruct q as [|code [|j]]; simpl; try done. intros [Hne|?]; [|done].
  by rewrite (proj2 (Z.eqb_neq code 0) Hne).
Qed.

Lemma get_monitors_eq (w : world) :
  get_monitors w
  = (let data := delivered (next_outcome w) in
     if truthy data then rbind (iterate data) (fun items => for_acc keep_monitor items [])
     else Ok [],
     answered monitors_args w).
Proof.
  unfold get_monitors. unfold mbind at 1, M_bind at 1.
  rewrite run_json_eq. simpl.
  destruct (truthy (delivered (next_outcome w))); simpl; [|done].
  munfold. by destruct (iterate (delivered (next_outcome w))).
Qed.

Lemma get_clients_eq (w : world) :
  get_clients w
  = (Ok (let data := delivered (next_outcome w) in if truthy data then data else JArr []),
     answered clients_args w).
Proof.
  unfold get_clients. unfold mbind at 1, M_bind at 1.
  rewrite run_json_eq. simpl.
  by destruct (truthy (delivered (next_outcome w))).
Qed.

Lemma get_monitors_lists (w : world) (data : list json) :
  lists (next_outcome w) data ->
  Forall (fun m => exists fields, m = JObj fields) data ->
  get_monitors w = (Ok (retained data), answered monitors_args w).
Proof.
  intros Hq Hall. rewrite get_monitors_eq, Hq. simpl.
  destruct data as [|m data]; [done|]. simpl truthy. cbn [iterate rbind].
  by rewrite keep_monitor_acc.
Qed.

Lemma get_clients_lists (w : world) (data : list json) :
  lists (next_outcome w) data ->
  get_clients w = (Ok (JArr data), answered clients_args w).
Proof.
  intros Hq. rewrite get_clients_eq, Hq. simpl. by destruct data.
Qed.

Lemma monitor_record_object (m : json) :
  monitor_record m = true -> exists fields, m = JObj fields.
Proof. destruct m; try done. eauto. Qed.

Lemma retained_records (data : list json) :
  Forall (fun m => monitor_record m = true) data ->
  Forall (fun m => monitor_record m = true) (retained data).
Proof.
  intros Hall. unfold retained. induction Hall as [|m data Hm Hd IH]; simpl; [done|].
  destruct (negb (disabled m)); [by constructor|done].
Qed.

Lemma monitors_needing_waybar_lists (w : world) (mons clients : list json) :
  lists (next_outcome w) mons ->
  lists (next_outcome (answered monitors_args w)) clients ->
  Forall (fun m => exists fields, m = JObj fields) mons ->
  monitors_needing_waybar w
  = (needed_of (retained mons) (JArr clients),
     answered clients_args (answered monitors_args w)).
Proof.
  intros Hm Hc Hobj. unfold monitors_needing_waybar.
  unfold mbind at 1, M_bind at 1. rewrite (get_monitors_lists w mons Hm Hobj).
  unfold mbind at 1, M_bind at 1. rewrite (get_clients_lists _ clients Hc).
  done.
Qed.

(** ** The desired set *)

Lemma visible_count_insert (k : hkey) (before after : list json) (c : json) :
  visible_count k (before ++ c :: after)
  = visible_count k (before ++ after) + (if visible_onb k c then 1 else 0).
Proof.
  unfold visible_count. rewrite !List.filter_app, !length_app. simpl.
  destruct (visible_onb k c); simpl length; lia.
Qed.

Lemma hidden_or_unmapped_invisible (k : hkey) (c : json) :
  hidden_or_unmapped c -> visible_onb k c = false.
Proof.
  intros Hc. destruct (visible_onb k c) eqn:Hv; [|done].
  apply visible_onb_spec in Hv as (_ & [v [Hv Ht]] & Hhid).
  destruct Hc as [[v' [Hv' Ht']]|[Hm|[v' [Hv' Hf]]]]; [|congruence..].
  destruct Hhid as [?|[v'' [? ?]]]; congruence.
Qed.

Lemma monitor_entry_iff (m : json) (k : hkey) (ws : json) :
  (exists name, monitor_entry m = Some (k, name, ws)) <-> named_with_workspace m k ws.
Proof.
  unfold monitor_entry, named_with_workspace. split.
  - intros [name Hm]. destruct (ref_id m "activeWorkspace") as [ws'|]; [|done].
    destruct (monitor_name m) as [name'|]; [|done].
    destruct (truthy name') eqn:Ht; [|done].
    destruct (hash name') as [k'|] eqn:Hh; [|done].
    injection Hm as <- <- <-. by exists name'.
  - intros (name & -> & -> & -> & ->). by exists name.
Qed.

Lemma last_bound_distinct (mons : list json) (k : hkey) (ws : json) :
  distinct_names mons ->
  last_bound mons k ws <-> exists m, m ∈ mons /\ named_with_workspace m k ws.
Proof.
  intros Hd. split.
  - intros (before & m & after & name & -> & Hm & _). exists m. split.
    + apply elem_of_app. right. apply elem_of_cons. by left.
    + apply monitor_entry_iff. by exists name.
  - intros (m & Hin & [name Hm]%monitor_entry_iff).
    apply list_elem_of_split in Hin as (before & after & ->).
    exists before, m, after, name. do 2 (split; [done|]).
    apply Forall_forall. intros m' Hin' Hk'.
    apply list_elem_of_lookup in Hin' as [j Hj].
    assert (length before = length before + S j)%nat; [|lia].
    apply (Hd _ _ m m' k).
    + by apply list_lookup_middle.
    + rewrite lookup_app_r by lia.
      replace (length before + S j - length before)%nat with (S j) by lia. done.
    + by exists name, ws.
    + done.
Qed.

(** C10. In the tally of visible clients per workspace, a client record
    without a "mapped" field is never counted and one without a "hidden"
    field counts as not hidden: for every list of client records, taking a
    client [c] into the list raises the count of a workspace by one exactly
    when the workspace id of [c] is present and is that workspace, the
    "mapped" field of [c] is present and true, and the "hidden" field of
    [c] is absent or false; otherwise the count is the same. True and
    false are those of Python's [bool], which for the flags of the
    compositor are the two booleans. *)
Theorem tally_counts_mapped_and_not_hidden (before after : list json) (c : json) :
  Forall (fun c' => client_record c' = true) (before ++ c :: after) ->
  exists tally tally',
    for_acc count_client (before ++ after) [] = Ok tally
    /\ for_acc count_client (before ++ c :: after) [] = Ok tally'
    /\ (forall k, visible_on k c -> tally_at k tally' = tally_at k tally + 1)
    /\ (forall k, ~ visible_on k c -> tally_at k tally' = tally_at k tally)
    /\ (field c "mapped" = None -> forall k, tally_at k tally' = tally_at k tally)
    /\ (field c "hidden" = None ->
        forall k id, ref_id c "workspace" = Some id -> hash id = Ok k ->
                     field_true c "mapped" ->
                     tally_at k tally' = tally_at k tally + 1).
Proof.
  intros Hall.
  assert (Hall' : Forall (fun c' => client_record c' = true) (before ++ after)).
  { apply Forall_app in Hall as [Hb [_ Ha]%Forall_cons]. by apply Forall_app. }
  destruct (tally_acc _ [] Hall') as (tally & Ht & Htally).
  destruct (tally_acc _ [] Hall) as (tally' & Ht' & Htally').
  exists tally, tally'. do 2 (split; [done|]).
  assert (Hstep : forall k, tally_at k tally'
                            = tally_at k tally + (if visible_onb k c then 1 else 0)).
  { intros k. rewrite Htally', Htally, visible_count_insert. lia. }
  assert (Hyes : forall k, visible_on k c -> tally_at k tally' = tally_at k tally + 1).
  { intros k Hv%visible_onb_spec. by rewrite Hstep, Hv. }
  assert (Hno : forall k, ~ visible_on k c -> tally_at k tally' = tally_at k tally).
  { intros k Hv. rewrite Hstep. destruct (visible_onb k c) eqn:Hb; [|lia].
    by apply visible_onb_spec in Hb. }
  do 2 (split; [done|]). split.
  - intros Hm k. apply Hno. intros (_ & [v [Hv _]] & _). congruence.
  - intros Hh k id Hid Hk Hm. apply Hyes. split; [by exists id|]. split; [done|by left].
Qed.

(** C7, as the code has it. Monitors flagged disabled are filtered out, and
    a retained monitor is entered in the monitor -> active-workspace map
    exactly when it has both a usable name and an active workspace id: one
    that lacks either is left out. A name is bound to the active workspace
    id of the last retained monitor entered under it. *)
Theorem monitor_map_needs_name_and_workspace (w : world) (data : list json) :
  lists (next_outcome w) data ->
  Forall (fun m => monitor_record m = true) data ->
  get_monitors w = (Ok (retained data), answered monitors_args w)
  /\ (forall m, m ∈ retained data <-> m ∈ data /\ disabled m = false)
  /\ exists ws_by_mon,
       for_acc map_monitor (retained data) [] = Ok ws_by_mon
       /\ (forall k, is_Some (dict_get k ws_by_mon)
             <-> exists m ws, m ∈ retained data /\ named_with_workspace m k ws)
       /\ (forall k ws, dict_get k ws_by_mon = Some ws
             <-> last_bound (retained data) k ws).
Proof.
  intros Hq Hall. split; [|split].
  - apply get_monitors_lists; [done|].
    eapply Forall_impl; [exact Hall|]. apply monitor_record_object.
  - intros m. unfold retained. rewrite !list_elem_of_In, List.filter_In, negb_true_iff.
    done.
  - destruct (ws_by_mon_acc (retained data) [] (retained_records data Hall) keyed_nil)
      as (d & Hd & _ & _ & Hget); [constructor|].
    exists d. split; [done|].
    assert (Hbound : forall k ws, dict_get k d = Some ws <-> last_bound (retained data) k ws).
    { intros k ws. rewrite Hget, <- last_entry_bound.
      by destruct (last_entry k (retained data)). }
    split; [|done]. intros k. split.
    + intros [ws (before & m & after & name & Heq & Hm & _)%Hbound].
      exists m, ws. split.
      * rewrite Heq. apply elem_of_app. right. apply elem_of_cons. by left.
      * apply monitor_entry_iff. by exists name.
    + intros (m & ws & Hin & [name Hm]%monitor_entry_iff).
      destruct (last_entry k (retained data)) as [ws'|] eqn:Hlast.
      * exists ws'. by rewrite Hget, Hlast.
      * exfalso. clear -Hin Hm Hlast. induction (retained data) as [|x l IH]; simpl in *.
        -- by apply elem_of_nil in Hin.
        -- destruct (last_entry k l) eqn:Hl; [done|].
           apply elem_of_cons in Hin as [<-|Hin]; [|by apply IH].
           rewrite Hm in Hlast. by rewrite decide_True in Hlast.
Qed.

(** C1, as the code has it. For every list of monitor records and every
    list of client records, the desired set holds exactly the names whose
    last retained monitor record with an active workspace id has a visible
    tally greater than zero, the tally counting the clients that are
    mapped and not hidden under their workspace id and ignoring those
    without one. Where no two retained monitors share a name, these are
    the names of the retained monitors whose active workspace's tally is
    greater than zero. Adding a hidden or unmapped client to the client
    list leaves the set unchanged. *)
Theorem desired_set_of_names_last_record_wins (w : world) (mons clients : list json) :
  lists (next_outcome w) mons ->
  lists (next_outcome (answered monitors_args w)) clients ->
  Forall (fun m => monitor_record m = true) mons ->
  Forall (fun c => client_record c = true) clients ->
  exists need,
    monitors_needing_waybar w
    = (Ok need, answered clients_args (answered monitors_args w))
    /\ (forall k, set_mem k need = true
          <-> exists ws kw, last_bound (retained mons) k ws /\ hash ws = Ok kw
                            /\ 0 < visible_count kw clients)
    /\ (distinct_names (retained mons) ->
        forall k, set_mem k need = true
          <-> exists m ws kw, m ∈ retained mons /\ named_with_workspace m k ws
                              /\ hash ws = Ok kw /\ 0 < visible_count kw clients)
    /\ (forall w' before after c,
          clients = before ++ after ->
          client_record c = true -> hidden_or_unmapped c ->
          lists (next_outcome w') mons ->
          lists (next_outcome (answered monitors_args w')) (before ++ c :: after) ->
          fst (monitors_needing_waybar w') = Ok need).
Proof.
  intros Hqm Hqc Hm Hc.
  assert (Hobj : Forall (fun m => exists fields, m = JObj fields) mons).
  { eapply Forall_impl; [exact Hm|]. apply monitor_record_object. }
  destruct (needed_of_spec (retained mons) clients (retained_records mons Hm) Hc)
    as (need & Hneed & _ & Hmem).
  exists need. split; [|split; [done|split]].
  - by rewrite (monitors_needing_waybar_lists w mons clients Hqm Hqc Hobj), Hneed.
  - intros Hd k. rewrite Hmem. split.
    + intros (ws & kw & Hb%(last_bound_distinct _ _ _ Hd) & ?).
      destruct Hb as (m & ? & ?). by exists m, ws, kw.
    + intros (m & ws & kw & Hin & Hn & ?). exists ws, kw. split; [|done].
      apply (last_bound_distinct _ _ _ Hd). by exists m.
  - intros w' before after c -> Hrec Hhid Hqm' Hqc'.
    rewrite (monitors_needing_waybar_lists w' mons _ Hqm' Hqc' Hobj). simpl.
    rewrite <- Hneed. unfold needed_of.
    destruct (for_acc map_monitor (retained mons) []) as [d|]; [|done]. rsimpl. simpl.
    assert (Hc' : Forall (fun c' => client_record c' = true) (before ++ c :: after)).
    { apply Forall_app in Hc as [Hb Ha]. apply Forall_app. split; [done|by constructor]. }
    destruct (tally_acc _ [] Hc) as (tally & -> & Ht).
    destruct (tally_acc _ [] Hc') as (tally' & -> & Ht'). simpl.
    apply add_needed_ext. intros k.
    rewrite Ht, Ht', visible_count_insert, (hidden_or_unmapped_invisible k c Hhid). lia.
Qed.

(** C6. Whatever way a compositor query fails (the command cannot be
    launched, exits with a status other than zero, or prints what is not
    JSON), the prober returns an empty list and does not raise; in a cycle
    where a query fails the desired set is empty; and what a cycle computes
    depends on the answers of that cycle alone, so the next cycle whose
    queries succeed computes its set as if nothing had failed. *)
Theorem failed_query_gives_empty_desired_set (w : world) :
  monitors_answer (next_outcome w) ->
  clients_answer (next_outcome (answered monitors_args w)) ->
  query_failed (next_outcome w)
  \/ query_failed (next_outcome (answered monitors_args w)) ->
  (query_failed (next_outcome w) ->
   get_monitors w = (Ok [], answered monitors_args w))
  /\ (query_failed (next_outcome (answered monitors_args w)) ->
      get_clients (answered monitors_args w)
      = (Ok (JArr []), answered clients_args (answered monitors_args w)))
  /\ monitors_needing_waybar w
     = (Ok [], answered clients_args (answered monitors_args w))
  /\ (forall w1 w2, queries w1 = queries w2 ->
        fst (monitors_needing_waybar w1) = fst (monitors_needing_waybar w2)).
Proof.
  intros Hm Hc Hfail.
  assert (Hgm : forall w', query_failed (next_outcome w') ->
                  get_monitors w' = (Ok [], answered monitors_args w')).
  { intros w' Hf. by rewrite get_monitors_eq, (delivered_failed _ Hf). }
  assert (Hgc : forall w', query_failed (next_outcome w') ->
                  get_clients w' = (Ok (JArr []), answered clients_args w')).
  { intros w' Hf. by rewrite get_clients_eq, (delivered_failed _ Hf). }
  split; [by apply Hgm|]. split; [by apply Hgc|]. split.
  - unfold monitors_needing_waybar. unfold mbind at 1, M_bind at 1.
    destruct Hm as [Hf|(mons & Hl & Hrec)].
    + rewrite (Hgm w Hf). unfold mbind at 1, M_bind at 1.
      destruct Hc as [Hf'|(clients & Hl' & Hrec')].
      * by rewrite (Hgc _ Hf').
      * rewrite (get_clients_lists _ clients Hl').
        destruct (needed_of_spec [] clients) as (need & Hneed & _ & _); [done..|].
        unfold lift. rewrite Hneed. f_equal. f_equal.
        unfold needed_of in Hneed. rsimpl. simpl in Hneed.
        destruct (for_acc count_client clients []); simpl in Hneed; congruence.
    + assert (Hf' : query_failed (next_outcome (answered monitors_args w))).
      { destruct Hfail as [Hf|?]; [|done]. rewrite Hl in Hf. by destruct Hf. }
      rewrite (get_monitors_lists w mons Hl).
      2:{ eapply Forall_impl; [exact Hrec|]. apply monitor_record_object. }
      unfold mbind at 1, M_bind at 1. rewrite (Hgc _ Hf').
      destruct (ws_by_mon_acc (retained mons) [] (retained_records mons Hrec) keyed_nil)
        as (d & Hd & [_ Hkd] & Hsd & _); [constructor|].
      unfold lift, needed_of. rewrite Hd. rsimpl. simpl.
      destruct (need_acc [] d [] Hkd Hsd keyed_nil) as (need & Hneed & _ & Hmem).
      rewrite Hneed. f_equal. f_equal. destruct need as [|e need]; [done|].
      exfalso. assert (Hin : set_mem (canon e) (e :: need) = true).
      { apply set_mem_elem. apply elem_of_cons. by left. }
      apply Hmem in Hin as [?|(e' & kw & _ & _ & _ & Hpos)]; [done|].
      unfold tally_at in Hpos. simpl in Hpos. lia.
  - intros w1 w2 Hq. unfold monitors_needing_waybar.
    assert (H1 : next_outcome w1 = next_outcome w2).
    { unfold next_outcome. by rewrite Hq. }
    assert (H2 : next_outcome (answered monitors_args w1)
                 = next_outcome (answered monitors_args w2)).
    { unfold answered, next_outcome. rewrite Hq. by destruct (queries w2). }
    unfold mbind at 1 3, M_bind at 1 3. rewrite !get_monitors_eq, H1. cbn zeta.
    destruct (if truthy _ then _ else _) as [mons|e]; [|done].
    unfold mbind, M_bind. rewrite !get_clients_eq, H2. done.
Qed.

(** ** Running computations *)

Global Instance same_table_preorder : PreOrder same_table.
Proof.
  split; [by intros w|]. intros w1 w2 w3 H12 H23. unfold same_table in *. congruence.
Qed.

Global Instance emits_preorder (Q : event -> Prop) : PreOrder (emits Q).
Proof.
  split.
  - intros w. exists []. by rewrite app_nil_r.
  - intros w1 w2 w3 (t1 & H1 & Q1) (t2 & H2 & Q2). exists (t1 ++ t2).
    rewrite H2, H1, app_assoc. split; [done|]. by apply Forall_app.
Qed.

Lemma steps_bind {A B} (R : relation world) `{!PreOrder R} (m : M A) (f : A -> M B) :
  steps R m -> (forall a, steps R (f a)) -> steps R (m ≫= f).
Proof.
  intros Hm Hf w r w'. unfold mbind, M_bind.
  destruct (m w) as [[a|e] w1] eqn:Hrun; intros Hk.
  - transitivity w1; [by eapply Hm|by eapply Hf].
  - injection Hk as <- <-. by eapply Hm.
Qed.

Lemma steps_ret {A} (R : relation world) `{!Reflexive R} (a : A) : steps R (mret a).
Proof. intros w r w' [= <- <-]. done. Qed.

Lemma steps_lift {A} (R : relation world) `{!Reflexive R} (x : result A) : steps R (lift x).
Proof. intros w r w' [= <- <-]. done. Qed.

Lemma steps_gets {A} (R : relation world) `{!Reflexive R} (f : world -> A) : steps R (gets f).
Proof. intros w r w' [= <- <-]. done. Qed.

Lemma steps_modify (R : relation world) (f : world -> world) :
  (forall w, R w (f w)) -> steps R (modify f).
Proof. intros Hf w r w' [= <- <-]. apply Hf. Qed.

Lemma steps_try_except {A} (R : relation world) `{!PreOrder R} (m : M A) (h : exn -> M A) :
  steps R m -> (forall e, steps R (h e)) -> steps R (try_except m h).
Proof.
  intros Hm Hh w r w'. unfold try_except.
  destruct (m w) as [[a|e] w1] eqn:Hrun; intros Hk.
  - injection Hk as <- <-. by eapply Hm.
  - transitivity w1; [by eapply Hm|by eapply Hh].
Qed.

Lemma steps_log_table (e : event) : steps same_table (log e).
Proof. by apply steps_modify. Qed.

Lemma steps_log_emits (Q : event -> Prop) (e : event) : Q e -> steps (emits Q) (log e).
Proof.
  intros He. apply steps_modify. intros w. exists [e]. split; [done|]. by constructor.
Qed.

Lemma steps_next_fault (R : relation world) `{!Reflexive R} :
  (forall w fs, R w (set_faults fs w)) -> steps R next_fault.
Proof.
  intros HR w r w'. unfold next_fault. destruct (faults w); intros [= <- <-]; done.
Qed.

Lemma steps_next_poll (R : relation world) `{!Reflexive R} :
  (forall w ps, R w (set_polls ps w)) -> steps R next_poll.
Proof.
  intros HR w r w'. unfold next_poll. destruct (polls w); intros [= <- <-]; done.
Qed.

Lemma steps_next_query (R : relation world) `{!Reflexive R} :
  (forall w qs, R w (set_queries qs w)) -> steps R next_query.
Proof.
  intros HR w r w'. unfold next_query. destruct (queries w); intros [= <- <-]; done.
Qed.

Lemma emits_set (Q : event -> Prop) (f : world -> world) :
  (forall w, trace (f w) = trace w) -> forall w, emits Q w (f w).
Proof. intros Hf w. exists []. by rewrite Hf, app_nil_r. Qed.

Create HintDb steps discriminated.

#[local] Hint Resolve steps_log_table : steps.
#[local] Hint Extern 1 (same_table _ _) => reflexivity : steps.
#[local] Hint Extern 1 (emits _ _ (_ _)) => apply emits_set; reflexivity : steps.

(** Walks through a computation, leaving what the hints cannot close. *)
Ltac step :=
  lazymatch goal with
  | |- steps _ (mbind _ _) => apply steps_bind; [tc_solve| |intros]
  | |- steps _ (mret _) => apply steps_ret; tc_solve
  | |- steps _ (lift _) => apply steps_lift; tc_solve
  | |- steps _ (gets _) => apply steps_gets; tc_solve
  | |- steps _ (try_except _ _) => apply steps_try_except; [tc_solve| |intros]
  | |- steps _ (modify _) => apply steps_modify; intros
  | |- steps _ next_fault => apply steps_next_fault; [tc_solve|intros]
  | |- steps _ next_poll => apply steps_next_poll; [tc_solve|intros]
  | |- steps _ next_query => apply steps_next_query; [tc_solve|intros]
  | |- steps (emits _) (log _) => apply steps_log_emits; simpl
  | |- steps _ (match ?x with _ => _ end) => destruct x
  end.

Ltac steps := repeat first [solve [auto with steps] | step].

(** ** The primitives *)

Lemma poll_spec (p : handle) (w : world) :
  exists rc w', poll p w = (Ok rc, w')
    /\ procs w' = procs w
    /\ trace w' = trace w ++ [Poll p rc]
    /\ returncode w' !! p = rc
    /\ (forall c, returncode w !! p = Some c -> rc = Some c).
Proof.
  unfold poll, next_poll. munfold. simpl.
  destruct (returncode w !! p) as [c|] eqn:Hc; simpl.
  - exists (Some c), (set_trace (fun t => t ++ [Poll p (Some c)]) w). simpl.
    repeat split; try done; congruence.
  - destruct (polls w) as [|[c|] rest]; simpl; eexists _, _; (split; [done|]); simpl;
      repeat split; try done; by rewrite lookup_insert_eq.
Qed.

Lemma fallible_spec (e : bool -> event) (effect : world -> world) (w : world) :
  (forall w0, trace (effect w0) = trace w0) ->
  exists ok w0, fallible e effect w
                = (if (ok : bool) then Ok tt else Raise OSError,
                   if ok then effect w0 else w0)
    /\ trace w0 = trace w ++ [e ok]
    /\ procs w0 = procs w /\ returncode w0 = returncode w /\ files w0 = files w
    /\ fresh w0 = fresh w
    /\ ok = negb (default false (head (faults w)))
    /\ faults w0 = tail (faults w).
Proof.
  intros Ht. unfold fallible, next_fault. munfold. simpl.
  destruct (faults w) as [|[] rest] eqn:Hf; simpl; [exists true|exists false|exists true];
    eexists; (split; [done|]); simpl; rewrite ?Hf; repeat split; done.
Qed.

Lemma sleep_spec (ms : N) (w : world) :
  sleep ms w = (Ok tt, set_trace (fun t => t ++ [Sleep ms]) w).
Proof. done. Qed.

Lemma wait_exit_spec (n : nat) (p : handle) (w : world) :
  returncode w !! p = None ->
  exists w', wait_exit n p w = (Ok tt, w')
    /\ procs w' = procs w
    /\ ((exists m c, (m < n)%nat
           /\ trace w' = trace w ++ waits p m ++ [Poll p (Some c)]
           /\ returncode w' !! p = Some c)
        \/ (trace w' = trace w ++ waits p n /\ returncode w' !! p = None)).
Proof.
  revert w. induction n as [|n IH]; intros w Hrc; simpl.
  - exists w. do 2 (split; [done|]). right. by rewrite app_nil_r.
  - destruct (poll_spec p w) as (rc & w1 & Hpoll & Hp1 & Ht1 & Hrc1 & _).
    unfold mbind at 1, M_bind at 1. rewrite Hpoll. destruct rc as [c|].
    + exists w1. do 2 (split; [done|]). left. exists 0%nat, c.
      split; [lia|]. split; [|done]. by rewrite Ht1.
    + unfold mbind at 1, M_bind at 1. rewrite sleep_spec.
      destruct (IH (set_trace (fun t => t ++ [Sleep 50]) w1)) as (w' & -> & Hp' & Hcase);
        [done|].
      exists w'. split; [done|]. split; [by rewrite Hp'|].
      destruct Hcase as [(m & c & Hm & Ht' & Hrc')|[Ht' Hrc']].
      * left. exists (S m), c. split; [lia|]. split; [|done].
        rewrite Ht'. simpl. rewrite Ht1, <- !app_assoc. done.
      * right. split; [|done]. rewrite Ht'. simpl. rewrite Ht1, <- !app_assoc. done.
Qed.

Lemma slept_app (t t' : list event) : slept (t ++ t') = (slept t + slept t')%N.
Proof. induction t as [|[] t IH]; simpl; try done. rewrite IH. lia. Qed.

Lemma slept_waits (p : handle) (n : nat) : slept (waits p n) = (50 * N.of_nat n)%N.
Proof. induction n as [|n IH]; simpl; [done|]. rewrite IH. lia. Qed.

Lemma stopping_bounded (p : handle) (t : list event) :
  stopping p t -> (slept t <= 1000)%N.
Proof.
  intros [c| |n c Hn|c|ok]; simpl; rewrite ?slept_app, ?slept_waits; simpl; lia.
Qed.

(** ** Stopping *)

Lemma dict_pop_absent {V} (k : hkey) (d : pydict V) :
  dict_get k d = None -> dict_pop k d = d.
Proof.
  induction d as [|e d IH]; simpl; [done|]. case_decide; [done|].
  intros Hd. by rewrite IH.
Qed.

Lemma stop_waybar_for_run (mon_name : json) (k : hkey) (w : world) :
  hash mon_name = Ok k ->
  exists w', stop_waybar_for mon_name w = (Ok tt, w')
    /\ procs w' = dict_pop k (procs w)
    /\ match dict_get k (procs w) with
       | None => w' = set_trace (fun t => t ++ [Called_stop mon_name]) w
       | Some p => exists t, trace w' = trace w ++ Called_stop mon_name :: t
                             /\ stopping p t
       end.
Proof.
  intros Hk. unfold stop_waybar_for.
  unfold mbind at 1, M_bind at 1. unfold log at 1, modify at 1.
  unfold mbind at 1, M_bind at 1. unfold lift at 1. rewrite Hk.
  unfold mbind at 1, M_bind at 1. unfold gets at 1. cbn [procs set_trace].
  set (w0 := set_trace _ w).
  destruct (dict_get k (procs w)) as [p|] eqn:Hget.
  2:{ exists w0. split; [done|]. split; [|done]. by rewrite dict_pop_absent. }
  destruct (poll_spec p w0) as (rc & w1 & Hpoll & Hp1 & Ht1 & Hrc1 & _).
  mrun. rewrite Hpoll. destruct rc as [c|].
  { mrun. eexists. split; [done|]. cbn. rewrite Hp1. split; [done|].
    exists [Poll p (Some c)]. split; [|constructor].
    rewrite Ht1. subst w0. cbn. by rewrite <- app_assoc. }
  assert (Hshape : exists w2, try_except
                      (terminate p;; wait_exit 20 p;; rc' ← poll p;
                       match rc' with
                       | Some _ => mret ()
                       | None => kill p
                       end)
                      (fun _ => mret ()) w1 = (Ok tt, w2)
                    /\ procs w2 = procs w1
                    /\ exists t, trace w2 = trace w1 ++ t /\ stopping p (Poll p None :: t)).
  { unfold try_except. mrun.
    destruct (fallible_spec (Terminate p) id w1) as (ok & w2 & Hterm & Ht2 & Hp2 & Hrc2 & _);
      [done|].
    unfold terminate. rewrite Hterm. destruct ok.
    2:{ exists w2. split; [done|]. split; [done|]. eexists. split; [done|]. constructor. }
    unfold id. mrun.
    destruct (wait_exit_spec 20 p w2) as (w3 & -> & Hp3 & Hcase); [by rewrite Hrc2|].
    destruct (poll_spec p w3) as (rc' & w4 & Hpoll' & Hp4 & Ht4 & Hrc4 & Hcached).
    mrun. rewrite Hpoll'.
    destruct Hcase as [(m & c & Hm & Ht3 & Hrc3)|[Ht3 Hrc3]].
    - rewrite (Hcached c Hrc3). exists w4. split; [done|]. split; [congruence|].
      eexists. split; [|by apply (stop_exits p m c)].
      rewrite Ht4, (Hcached c Hrc3), Ht3, Ht2, <- !app_assoc. done.
    - destruct rc' as [c|].
      + exists w4. split; [done|]. split; [congruence|].
        eexists. split; [|by apply (stop_exits_late p c)].
        rewrite Ht4, Ht3, Ht2, <- !app_assoc. done.
      + destruct (fallible_spec (Kill p) id w4) as (ok & w5 & Hkill & Ht5 & Hp5 & _);
          [done|].
        unfold kill. rewrite Hkill. exists w5. unfold id.
        split; [by destruct ok|]. split; [congruence|].
        eexists. split; [|by apply (stop_kills p ok)].
        rewrite Ht5, Ht4, Ht3, Ht2, <- !app_assoc. done. }
  destruct Hshape as (w2 & Hrun & Hp2 & t & Ht2 & Hstop).
  mrun. rewrite Hrun. eexists. split; [done|]. cbn. rewrite Hp2, Hp1. split; [done|].
  eexists. split; [|exact Hstop].
  rewrite Ht2, Ht1. subst w0. cbn. by rewrite <- !app_assoc.
Qed.

(** C2. [stop_waybar_for] never raises. With no table entry for the
    output it does nothing (the world is as before but for the record of
    the call), and so does a second call in succession. With an entry, it
    asks a running process to terminate, polls it every 50 ms for at most
    twenty rounds (one second in all), kills it if it is still running
    after that, swallows what either attempt raises, and in every case the
    entry of the output is gone from the table when the call returns. *)
Theorem stop_never_raises_and_removes_the_entry (mon_name : json) (k : hkey) (w : world) :
  hash mon_name = Ok k ->
  exists w',
    stop_waybar_for mon_name w = (Ok tt, w')
    /\ dict_get k (procs w') = None
    /\ procs w' = dict_pop k (procs w)
    /\ stop_waybar_for mon_name w'
       = (Ok tt, set_trace (fun t => t ++ [Called_stop mon_name]) w')
    /\ match dict_get k (procs w) with
       | None => w' = set_trace (fun t => t ++ [Called_stop mon_name]) w
       | Some p =>
           exists t, trace w' = trace w ++ Called_stop mon_name :: t
                     /\ stopping p t /\ (slept t <= 1000)%N
       end.
Proof.
  intros Hk. destruct (stop_waybar_for_run mon_name k w Hk) as (w' & Hrun & Hp & Hcase).
  assert (Hgone : dict_get k (procs w') = None).
  { rewrite Hp, dict_get_pop. by rewrite decide_True. }
  exists w'. do 3 (split; [done|]). split.
  - destruct (stop_waybar_for_run mon_name k w' Hk) as (w'' & Hrun' & _ & Hcase').
    rewrite Hgone in Hcase'. by rewrite Hrun', Hcase'.
  - destruct (dict_get k (procs w)) as [p|]; [|done].
    destruct Hcase as (t & Ht & Hstop). exists t. do 2 (split; [done|]).
    by eapply stopping_bounded.
Qed.

(** ** The configuration file *)

Lemma supporting_quiet (e : event) : supporting e -> quiet e.
Proof. by destruct e. Qed.

Lemma split_slash_cons (s : string) : exists part parts, split_slash s = part :: parts.
Proof.
  induction s as [|c s (part & parts & IH)]; simpl; [by eauto|].
  destruct (Ascii.eqb c "/"); [by eauto|]. rewrite IH. by eauto.
Qed.

Lemma parts_of_head (c : ascii) (s : string) :
  Ascii.eqb c "/" = false -> Ascii.eqb c "." = false ->
  exists part parts, parts_of (String c s) = String c part :: parts.
Proof.
  intros Hslash Hdot. destruct (split_slash_cons s) as (part & parts & Hsplit).
  unfold parts_of. cbn [split_slash]. rewrite Hslash, Hsplit.
  cbn [List.filter String.eqb]. rewrite Hdot. cbn [negb andb]. by eauto.
Qed.

Lemma config_path_under_cache (mon_name : json) :
  exists part parts, config_path mon_name = CACHE_DIR ++ part :: parts.
Proof.
  unfold config_path.
  destruct (parts_of_head "w" ("aybar-" +:+ str mon_name +:+ ".jsonc"))
    as (part & parts & Hparts); [done..|].
  change ("waybar-" +:+ str mon_name +:+ ".jsonc")
    with (String "w" ("aybar-" +:+ str mon_name +:+ ".jsonc")).
  unfold joinpath. cbv iota beta. rewrite Hparts. by eauto.
Qed.

Lemma config_tmp_path (mon_name : json) :
  exists tmp, with_suffix (config_path mon_name) ".tmp" = Ok tmp.
Proof.
  destruct (config_path_under_cache mon_name) as (part & parts & ->).
  unfold with_suffix.
  destruct (last (CACHE_DIR ++ part :: parts)) as [name|] eqn:Hlast; [by eauto|].
  apply last_None in Hlast. by destruct CACHE_DIR.
Qed.

Lemma replace_spec (src dst : path) (w : world) :
  exists ok w', replace src dst w = (if (ok : bool) then Ok tt else Raise OSError, w')
    /\ trace w' = trace w ++ [Replace src dst ok]
    /\ procs w' = procs w /\ fresh w' = fresh w
    /\ faults w' = tail (faults w)
    /\ (default false (head (faults w)) = false -> is_Some (files w !! src) -> ok = true)
    /\ (if ok then exists c, files w !! src = Some c
                             /\ files w' = <[dst:=c]> (delete src (files w))
        else files w' = files w).
Proof.
  unfold replace, next_fault. munfold. simpl.
  destruct (faults w) as [|[] rest] eqn:Hf; simpl;
    destruct (files w !! src) as [c|] eqn:Hsrc; simpl.
  all: try (exists true; eexists; split; [done|]; simpl; rewrite ?Hf;
            do 5 (split; [done|]); by eauto).
  all: exists false; eexists; split; [done|]; simpl; rewrite ?Hf;
       do 4 (split; [done|]); split; [|done]; try done; by intros _ [? ?].
Qed.

Lemma ensure_monitor_config_run (mon_name : json) (w : world) :
  exists tmp r w',
    with_suffix (config_path mon_name) ".tmp" = Ok tmp
    /\ ensure_monitor_config mon_name w = (r, w')
    /\ procs w' = procs w /\ fresh w' = fresh w
    /\ (no_fault 3 w -> r = Ok (config_path mon_name))
    /\ match r with
       | Ok cfg =>
           cfg = config_path mon_name
           /\ trace w' = trace w ++ [Mkdir CACHE_DIR true;
                                     WriteText tmp (dumps (config_content mon_name)) true;
                                     Replace tmp cfg true]
           /\ files w' = <[cfg := dumps (config_content mon_name)]>
                           (delete tmp (<[tmp := dumps (config_content mon_name)]> (files w)))
           /\ faults w' = drop 3 (faults w)
       | Raise e =>
           exists ok rest, trace w' = trace w ++ Mkdir CACHE_DIR ok :: rest
                           /\ Forall supporting rest
       end.
Proof.
  destruct (config_tmp_path mon_name) as [tmp Htmp]. exists tmp.
  unfold ensure_monitor_config. rewrite Htmp. unfold mkdir, write_text.
  destruct (fallible_spec (Mkdir CACHE_DIR) id w)
    as (ok1 & w1 & Hrun1 & Ht1 & Hp1 & _ & Hf1 & Hfr1 & Hok1 & Hfl1); [done|].
  mrun. rewrite Hrun1. destruct ok1.
  2:{ eexists _, _. do 2 (split; [done|]). do 2 (split; [done|]). split.
      - intros Hno. exfalso. unfold no_fault in Hno. destruct (faults w) as [|[] ?]; try done.
        by apply Forall_cons in Hno as [? _].
      - exists false, []. split; [done|]. by repeat constructor. }
  unfold id. mrun. unfold lift at 1.
  set (content := dumps (config_content mon_name)).
  destruct (fallible_spec (WriteText tmp content) (set_files (fun fs => <[tmp:=content]> fs)) w1)
    as (ok2 & w2 & Hrun2 & Ht2 & Hp2 & _ & Hf2 & Hfr2 & Hok2 & Hfl2); [done|].
  mrun. rewrite Hrun2. destruct ok2.
  2:{ eexists _, _. do 2 (split; [done|]). split; [congruence|]. split; [congruence|]. split.
      - intros Hno. exfalso. unfold no_fault in Hno. rewrite Hfl1 in Hok2.
        destruct (faults w) as [|? [|[] ?]]; try done.
        apply Forall_cons in Hno as [_ Hno]. by apply Forall_cons in Hno as [? _].
      - exists true, [WriteText tmp content false].
        split; [by rewrite Ht2, Ht1, <- app_assoc|]. by repeat constructor. }
  set (w2' := set_files _ w2).
  destruct (replace_spec tmp (config_path mon_name) w2')
    as (ok3 & w3 & Hrun3 & Ht3 & Hp3 & Hfr3 & Hfl3 & Hok3 & Hfiles3).
  mrun. rewrite Hrun3. destruct ok3.
  2:{ eexists _, _. do 2 (split; [done|]). subst w2'. simpl in *.
      split; [congruence|]. split; [congruence|]. split.
      - intros Hno. exfalso. assert (false = true); [|done]. apply Hok3.
        + unfold no_fault in Hno. rewrite Hfl2, Hfl1.
          destruct (faults w) as [|? [|? [|[] ?]]]; try done.
          do 2 apply Forall_cons in Hno as [_ Hno]. by apply Forall_cons in Hno as [? _].
        + rewrite lookup_insert_eq. by eauto.
      - exists true, [WriteText tmp content true;
                      Replace tmp (config_path mon_name) false].
        split; [by rewrite Ht3, Ht2, Ht1, <- !app_assoc|]. by repeat constructor. }
  exists (Ok (config_path mon_name)), w3. do 2 (split; [done|]). subst w2'. simpl in *.
  split; [congruence|]. split; [congruence|]. split; [done|]. split; [done|].
  destruct Hfiles3 as (c & Hc & ->). rewrite lookup_insert_eq in Hc. injection Hc as <-.
  split; [by rewrite Ht3, Ht2, Ht1, <- !app_assoc|]. split; [by rewrite Hf2, Hf1|].
  rewrite Hfl3, Hfl2, Hfl1. by destruct (faults w) as [|? [|? [|? ?]]].
Qed.

(** The temporary file is not the target: their names end differently. *)

Lemma last_ascii_app (s t : string) (c : ascii) :
  last_ascii t = Some c -> last_ascii (s +:+ t) = Some c.
Proof. intros Ht. induction s as [|a s IH]; simpl; [done|]. by rewrite IH. Qed.

Lemma split_slash_jsonc (s : string) :
  exists init x, split_slash (s +:+ ".jsonc") = init ++ [x +:+ ".jsonc"].
Proof.
  induction s as [|c s (init & x & IH)].
  - by exists [], "".
  - change (String c s +:+ ".jsonc") with (String c (s +:+ ".jsonc")).
    cbn [split_slash]. rewrite IH. destruct (Ascii.eqb c "/").
    + by exists ("" :: init), x.
    + destruct init as [|y init]; simpl.
      * by exists [], (String c x).
      * by exists (String c y :: init), x.
Qed.

Lemma config_name_jsonc (mon_name : json) :
  exists x, last (config_path mon_name) = Some (x +:+ ".jsonc").
Proof.
  unfold config_path.
  change ("waybar-" +:+ str mon_name +:+ ".jsonc")
    with (String "w" ("aybar-" +:+ str mon_name +:+ ".jsonc")).
  unfold joinpath. cbv iota beta.
  destruct (split_slash_jsonc ("waybar-" +:+ str mon_name)) as (init & x & Hsplit).
  exists x. unfold parts_of.
  replace (String "w" ("aybar-" +:+ str mon_name +:+ ".jsonc"))
    with (("waybar-" +:+ str mon_name) +:+ ".jsonc").
  2:{ reflexivity. }
  rewrite Hsplit, List.filter_app. cbn [List.filter].
  assert (Hkeep : negb (String.eqb (x +:+ ".jsonc") "")
                  && negb (String.eqb (x +:+ ".jsonc") ".") = true).
  { destruct x as [|a [|b x]]; try done; simpl; by destruct (Ascii.eqb a "."). }
  rewrite Hkeep. rewrite app_assoc. apply last_snoc.
Qed.

Lemma config_tmp_differs (mon_name : json) (tmp : path) :
  with_suffix (config_path mon_name) ".tmp" = Ok tmp -> tmp <> config_path mon_name.
Proof.
  destruct (config_name_jsonc mon_name) as [x Hlast].
  unfold with_suffix. rewrite Hlast. intros [= <-] Heq.
  assert (Hl : last (removelast (config_path mon_name) ++
                [substring 0 (String.length (x +:+ ".jsonc")
                              - String.length (suffix (x +:+ ".jsonc"))) (x +:+ ".jsonc")
                 +:+ ".tmp"]) = Some (x +:+ ".jsonc")) by (by rewrite Heq).
  rewrite last_snoc in Hl. injection Hl as Hl.
  apply (f_equal last_ascii) in Hl.
  rewrite (last_ascii_app _ ".tmp" "p"), (last_ascii_app _ ".jsonc" "c") in Hl; done.
Qed.

(** C9. [ensure_monitor_config] returns the path [config_path], a function
    of the output alone that lies under the cache directory; when it
    returns, the file at that path holds the JSON document with the two
    keys "include", the path of the base configuration, and "output", the
    one-element list of the output; the document went to a temporary file
    first, which was then renamed over the target; and a second call with
    the same output returns the same path and leaves the same content. It
    returns whenever its three calls to the file system succeed. *)
Theorem config_artifact_is_written_then_renamed (mon_name : json) (w : world)
    (r : result path) (w' : world) :
  ensure_monitor_config mon_name w = (r, w') ->
  exists tmp part parts,
    config_path mon_name = CACHE_DIR ++ part :: parts
    /\ with_suffix (config_path mon_name) ".tmp" = Ok tmp
    /\ tmp <> config_path mon_name
    /\ (no_fault 3 w -> r = Ok (config_path mon_name))
    /\ forall cfg, r = Ok cfg ->
         let content := dumps (JObj [("include", JStr (path_str BASE_CONFIG));
                                     ("output", JArr [mon_name])]) in
         cfg = config_path mon_name
         /\ files w' !! cfg = Some content
         /\ trace w' = trace w ++ [Mkdir CACHE_DIR true; WriteText tmp content true;
                                   Replace tmp cfg true]
         /\ forall cfg' w'', ensure_monitor_config mon_name w' = (Ok cfg', w'') ->
              cfg' = cfg /\ files w'' !! cfg' = Some content.
Proof.
  intros Hrun.
  destruct (ensure_monitor_config_run mon_name w)
    as (tmp & r0 & w0 & Htmp & Hrun0 & _ & _ & Hok & Hcase).
  rewrite Hrun in Hrun0. injection Hrun0 as <- <-.
  destruct (config_path_under_cache mon_name) as (part & parts & Hunder).
  exists tmp, part, parts. do 2 (split; [done|]).
  split; [by apply config_tmp_differs|]. split; [done|].
  intros cfg ->. destruct Hcase as (-> & Ht & Hf & _). cbn zeta.
  split; [done|]. split; [by rewrite Hf, lookup_insert_eq|]. split; [done|].
  intros cfg' w'' Hrun'.
  destruct (ensure_monitor_config_run mon_name w')
    as (tmp' & r1 & w1 & _ & Hrun1 & _ & _ & _ & Hcase1).
  rewrite Hrun' in Hrun1. injection Hrun1 as <- <-.
  destruct Hcase1 as (-> & _ & Hf' & _). split; [done|].
  by rewrite Hf', lookup_insert_eq.
Qed.

(** ** Starting *)

Lemma poll_frame (p : handle) (w : world) :
  files (snd (poll p w)) = files w /\ fresh (snd (poll p w)) = fresh w
  /\ faults (snd (poll p w)) = faults w.
Proof.
  unfold poll, next_poll. munfold. simpl.
  destruct (returncode w !! p); simpl; [done|].
  by destruct (polls w) as [|[c|] rest].
Qed.

Lemma poll_trace_irrelevant (p : handle) (w : world) (f : list event -> list event) :
  fst (poll p (set_trace f w)) = fst (poll p w).
Proof.
  unfold poll, next_poll. munfold. simpl.
  destruct (returncode w !! p); simpl; [done|].
  by destruct (polls w) as [|[c|] rest].
Qed.

Lemma Popen_spec (argv : list string) (env : list (string * string)) (w : world) :
  exists res w', Popen argv env w
                 = (match res with Some p => Ok p | None => Raise OSError end, w')
    /\ trace w' = trace w ++ [Spawn argv env res]
    /\ procs w' = procs w
    /\ (res = None <-> default false (head (faults w)) = true)
    /\ (forall p, res = Some p -> p = fresh w).
Proof.
  unfold Popen, next_fault. munfold. simpl.
  destruct (faults w) as [|[] rest]; simpl.
  - exists (Some (fresh w)). eexists. split; [done|]. simpl.
    repeat split; try done. by intros ? [= <-].
  - exists None. eexists. split; [done|]. by simpl.
  - exists (Some (fresh w)). eexists. split; [done|]. simpl.
    repeat split; try done. by intros ? [= <-].
Qed.

Lemma launched_supporting (t : list event) : Forall supporting t -> launched t = [].
Proof.
  unfold launched. induction 1 as [|e t He _ IH]; simpl; [done|].
  destruct e as [| | | | | | | | | |? ? []]; simpl; try done.
Qed.

Lemma launched_app (t t' : list event) : launched (t ++ t') = launched t ++ launched t'.
Proof. unfold launched. apply omap_app. Qed.

Lemma start_waybar_for_run (mon_name : json) (k : hkey) (w : world) :
  hash mon_name = Ok k ->
  exists r w' t,
    start_waybar_for mon_name w = (r, w')
    /\ trace w' = trace w ++ Called_start mon_name :: t
    /\ Forall quiet t
    /\ ((exists p, dict_get k (procs w) = Some p /\ alive p w
           /\ r = Ok tt /\ t = [Poll p None]
           /\ procs w' = procs w /\ files w' = files w /\ fresh w' = fresh w)
        \/ ((dict_get k (procs w) = None
             \/ exists p, dict_get k (procs w) = Some p /\ ~ alive p w)
            /\ (exists checks ok rest,
                  t = checks ++ Mkdir CACHE_DIR ok :: rest
                  /\ match dict_get k (procs w) with
                     | Some p => exists c, checks = [Poll p (Some c)]
                     | None => checks = []
                     end)
            /\ match r with
               | Ok _ =>
                   exists pre argv env,
                     t = pre ++ [Spawn argv env (Some (fresh w))]
                     /\ Forall supporting pre
                     /\ procs w' = dict_set k mon_name (fresh w) (procs w)
               | Raise e => procs w' = procs w /\ launched t = []
               end)).
Proof.
  intros Hk. unfold start_waybar_for.
  mrun. unfold log at 1, modify at 1.
  mrun. unfold lift at 1. rewrite Hk.
  mrun. unfold gets at 1. cbn [procs set_trace].
  set (w0 := set_trace _ w).
  (* the launch, from a world whose table and handle counter are those of [w] *)
  assert (Hlaunch : forall checks wa,
            trace wa = trace w0 ++ checks -> Forall supporting checks ->
            procs wa = procs w -> fresh wa = fresh w ->
            exists r w' t,
              (cfg ← ensure_monitor_config mon_name;
               env ← gets environ;
               p ← Popen [WAYBAR_BIN; "-c"; path_str cfg; "-s"; path_str STYLE_CSS]
                         (setdefault "WAYBAR_LOG_LEVEL" "error" env);
               modify (set_procs (dict_set k mon_name p))) wa = (r, w')
              /\ trace w' = trace w ++ Called_start mon_name :: t
              /\ Forall quiet t
              /\ (exists ok rest, t = checks ++ Mkdir CACHE_DIR ok :: rest)
              /\ match r with
                 | Ok _ =>
                     exists pre argv env,
                       t = pre ++ [Spawn argv env (Some (fresh w))]
                       /\ Forall supporting pre
                       /\ procs w' = dict_set k mon_name (fresh w) (procs w)
                 | Raise e => procs w' = procs w /\ launched t = []
                 end).
  { intros checks wa Hta Hchecks Hpa Hfa.
    destruct (ensure_monitor_config_run mon_name wa)
      as (tmp & rc & wb & _ & Hcfg & Hpb & Hfb & _ & Hcase).
    mrun. rewrite Hcfg. destruct rc as [cfg|e].
    - destruct Hcase as (-> & Htb & _ & _).
      mrun. unfold gets at 1.
      destruct (Popen_spec [WAYBAR_BIN; "-c"; path_str (config_path mon_name); "-s";
                            path_str STYLE_CSS]
                  (setdefault "WAYBAR_LOG_LEVEL" "error" (environ wb)) wb)
        as (res & wc & Hpopen & Htc & Hpc & _ & Hres).
      mrun. rewrite Hpopen.
      set (cfg_events := [Mkdir CACHE_DIR true;
                          WriteText tmp (dumps (config_content mon_name)) true;
                          Replace tmp (config_path mon_name) true]) in *.
      assert (Hsup : Forall supporting (checks ++ cfg_events)).
      { apply Forall_app. split; [done|]. by repeat constructor. }
      destruct res as [p|].
      + assert (p = fresh w) as -> by (by rewrite (Hres p eq_refl), Hfb, Hfa).
        eexists _, _, _. split; [done|].
        cbn. rewrite Htc, Htb, Hta. subst w0. cbn.
        split; [by rewrite <- !app_assoc|]. split.
        { rewrite app_assoc. apply Forall_app.
          split; [|by repeat constructor].
          eapply Forall_impl; [exact Hsup|]. apply supporting_quiet. }
        split.
        { exists true. eexists. reflexivity. }
        eexists (checks ++ cfg_events), _, _. rewrite <- !app_assoc.
        split; [done|]. split; [done|]. by rewrite Hpc, Hpb, Hpa.
      + eexists _, _, _. split; [done|].
        rewrite Htc, Htb, Hta. subst w0. cbn.
        split; [by rewrite <- !app_assoc|]. split.
        { rewrite app_assoc. apply Forall_app.
          split; [|by repeat constructor].
          eapply Forall_impl; [exact Hsup|]. apply supporting_quiet. }
        split.
        { exists true. eexists. reflexivity. }
        split; [by rewrite Hpc, Hpb, Hpa|].
        rewrite app_assoc, launched_app, (launched_supporting _ Hsup). done.
    - destruct Hcase as (ok & rest & Htb & Hsup).
      assert (Hall : Forall supporting (checks ++ Mkdir CACHE_DIR ok :: rest)).
      { apply Forall_app. split; [done|]. by constructor. }
      eexists _, _, _. split; [done|]. rewrite Htb, Hta. subst w0. cbn.
      split; [by rewrite <- !app_assoc|].
      split; [eapply Forall_impl; [exact Hall|]; apply supporting_quiet|].
      split; [by exists ok, rest|].
      split; [congruence|]. by apply launched_supporting. }
  destruct (dict_get k (procs w)) as [p|] eqn:Hget.
  - destruct (poll_spec p w0) as (rc & w1 & Hpoll & Hp1 & Ht1 & _).
    pose proof (poll_frame p w0) as (Hf1 & Hfr1 & _). rewrite Hpoll in Hf1, Hfr1.
    assert (Halive : alive p w <-> rc = None).
    { unfold alive. rewrite <- (poll_trace_irrelevant p w (fun t => t ++ [Called_start mon_name])).
      fold w0. rewrite Hpoll. simpl. split; congruence. }
    mrun. mrun. rewrite Hpoll. cbn [mret M_ret]. destruct rc as [c|].
    + rewrite bool_decide_eq_false_2 by done.
      destruct (Hlaunch [Poll p (Some c)] w1) as (r & w' & t & Hrun & Ht & Hq & Hm & Hcase);
        [done|by repeat constructor|done|done|].
      exists r, w', t. do 3 (split; [done|]). right. split.
      { right. exists p. split; [done|]. rewrite Halive. done. }
      split; [|done]. destruct Hm as (ok & rest & ->). exists [Poll p (Some c)], ok, rest.
      split; [done|]. by exists c.
    + rewrite bool_decide_eq_true_2 by done.
      exists (Ok tt), w1, [Poll p None]. split; [done|].
      split; [rewrite Ht1; subst w0; cbn; by rewrite <- app_assoc|].
      split; [by repeat constructor|].
      left. exists p. simpl in Hf1, Hfr1. repeat split; try done. by apply Halive.
  - mrun. cbn [mret M_ret].
    destruct (Hlaunch [] w0) as (r & w' & t & Hrun & Ht & Hq & Hm & Hcase);
      [by rewrite app_nil_r|done|done|done|].
    exists r, w', t. do 3 (split; [done|]). right. split; [by left|].
    split; [|done]. destruct Hm as (ok & rest & ->). by exists [], ok, rest.
Qed.

Lemma entries_for_absent {V} (k : hkey) (d : pydict V) :
  k ∉ dict_canon d -> entries_for k d = [].
Proof.
  unfold entries_for, dict_canon. induction d as [|e d IH]; simpl; [done|].
  intros Hnot. rewrite bool_decide_eq_false_2.
  - apply IH. intros Hin. apply Hnot. apply elem_of_cons. by right.
  - intros Heq. apply Hnot. apply elem_of_cons. by left.
Qed.

Lemma entries_for_one {V} (k : hkey) (d : pydict V) :
  NoDup (dict_canon d) -> is_Some (dict_get k d) -> length (entries_for k d) = 1%nat.
Proof.
  unfold dict_canon. induction d as [|e d IH]; simpl; [by intros _ [? ?]|].
  intros [Hnot Hnd]%NoDup_cons. unfold entries_for. simpl. case_decide as He.
  - intros _. rewrite bool_decide_eq_true_2 by done. simpl. f_equal.
    fold (entries_for k d). rewrite entries_for_absent; [done|]. by rewrite <- He.
  - intros Hsome. rewrite bool_decide_eq_false_2 by done. by apply IH.
Qed.

(** C3. While the process of its table entry is alive, [start_waybar_for]
    is a no-op: it polls the handle, finds the process running, and
    launches nothing, writes no file and leaves the table as it is. The
    poll is what decides: with the same entry and a process found exited,
    the call goes on to the launch. Hence two calls in succession, the
    instance alive at the second, leave one table entry for the output and
    launch at most one process, exactly one when the output had no entry. *)
Theorem start_is_a_no_op_while_alive (mon_name : json) (k : hkey) (p : handle) (w : world) :
  hash mon_name = Ok k ->
  dict_get k (procs w) = Some p ->
  alive p w ->
  (exists w', start_waybar_for mon_name w = (Ok tt, w')
     /\ procs w' = procs w /\ files w' = files w /\ fresh w' = fresh w
     /\ trace w' = trace w ++ [Called_start mon_name; Poll p None])
  /\ (forall w0 r w0',
        dict_get k (procs w0) = Some p -> ~ alive p w0 ->
        start_waybar_for mon_name w0 = (r, w0') ->
        exists c ok rest,
          trace w0' = trace w0 ++ Called_start mon_name :: Poll p (Some c)
                                  :: Mkdir CACHE_DIR ok :: rest)
  /\ (forall w0 w1,
        NoDup (dict_canon (procs w0)) ->
        start_waybar_for mon_name w0 = (Ok tt, w1) ->
        (forall q, dict_get k (procs w1) = Some q -> alive q w1) ->
        exists q w2 t,
          dict_get k (procs w1) = Some q
          /\ start_waybar_for mon_name w1 = (Ok tt, w2)
          /\ procs w2 = procs w1
          /\ length (entries_for k (procs w2)) = 1%nat
          /\ trace w2 = trace w0 ++ t
          /\ (length (launched t) <= 1)%nat
          /\ (dict_get k (procs w0) = None -> launched t = [q])).
Proof.
  intros Hk Hget Halive. split; [|split].
  - destruct (start_waybar_for_run mon_name k w Hk) as (r & w' & t & Hrun & Ht & _ & Hcase).
    destruct Hcase as [(p' & Hget' & _ & -> & -> & Hp & Hf & Hfr)|([Hnone|(p' & Hget' & Hdead)] & _)].
    + rewrite Hget in Hget'. injection Hget' as <-. by exists w'.
    + congruence.
    + rewrite Hget in Hget'. injection Hget' as <-. done.
  - intros w0 r w0' Hget0 Hdead Hrun.
    destruct (start_waybar_for_run mon_name k w0 Hk) as (r' & w' & t & Hrun' & Ht & _ & Hcase).
    rewrite Hrun in Hrun'. injection Hrun' as <- <-.
    destruct Hcase as [(p' & Hget' & Hal & _)|(_ & (checks & ok & rest & -> & Hchecks) & _)].
    + rewrite Hget0 in Hget'. injection Hget' as <-. done.
    + rewrite Hget0 in Hchecks. destruct Hchecks as [c ->]. by exists c, ok, rest.
  - intros w0 w1 Hnd Hrun1 Hal1.
    destruct (start_waybar_for_run mon_name k w0 Hk) as (r & w' & t1 & Hrun & Ht1 & _ & Hcase).
    rewrite Hrun1 in Hrun. injection Hrun as <- <-.
    assert (Hfirst : exists q, dict_get k (procs w1) = Some q
                       /\ NoDup (dict_canon (procs w1))
                       /\ (length (launched t1) <= 1)%nat
                       /\ (dict_get k (procs w0) = None -> launched t1 = [q])).
    { destruct Hcase as [(q & Hq & _ & _ & -> & Hp & _)|(_ & _ & pre & argv & env & -> & Hpre & Hp)].
      - exists q. rewrite Hp. repeat split; try done; [simpl; lia|congruence].
      - exists (fresh w0). rewrite Hp, dict_get_set, decide_True by done.
        split; [done|]. split.
        { rewrite dict_canon_set. case_decide; [done|].
          apply NoDup_app. repeat split; [done| |apply NoDup_singleton].
          by intros x Hx ->%list_elem_of_singleton. }
        rewrite launched_app, (launched_supporting _ Hpre). simpl. split; [lia|done]. }
    destruct Hfirst as (q & Hq & Hnd1 & Hle & Hnew).
    destruct (start_waybar_for_run mon_name k w1 Hk) as (r2 & w2 & t2 & Hrun2 & Ht2 & _ & Hcase2).
    destruct Hcase2 as [(q' & Hq' & _ & -> & -> & Hp2 & _)|([Hnone|(q' & Hq' & Hdead)] & _)].
    + rewrite Hq in Hq'. injection Hq' as <-.
      exists q, w2, (Called_start mon_name :: t1 ++ [Called_start mon_name; Poll q None]).
      do 3 (split; [done|]). split; [rewrite Hp2; by apply entries_for_one|].
      split; [rewrite Ht2, Ht1, <- app_assoc; done|].
      change (launched (Called_start mon_name :: ?l)) with (launched l).
      rewrite launched_app. simpl. rewrite app_nil_r. done.
    + congruence.
    + rewrite Hq in Hq'. injection Hq' as <-. exfalso. apply Hdead. by apply Hal1.
Qed.

(** ** The reconciliation cycle *)

Lemma check_output_table (args : list string) : steps same_table (check_output args).
Proof. unfold check_output. steps. Qed.

Lemma check_output_emits (args : list string) : steps (emits quiet) (check_output args).
Proof. unfold check_output. steps. Qed.

Lemma monitors_needing_waybar_table : steps same_table monitors_needing_waybar.
Proof.
  unfold monitors_needing_waybar, get_monitors, get_clients, run_json.
  steps; apply check_output_table.
Qed.

Lemma monitors_needing_waybar_emits : steps (emits quiet) monitors_needing_waybar.
Proof.
  unfold monitors_needing_waybar, get_monitors, get_clients, run_json.
  steps; apply check_output_emits.
Qed.

Lemma add_needed_keyed (counts : pydict Z) (d : pydict json) (acc need : pyset) :
  keyed acc -> for_acc (add_needed counts) d acc = Ok need -> keyed need.
Proof.
  revert acc. induction d as [|e d IH]; intros acc Hacc; simpl.
  - by intros [= <-].
  - unfold add_needed at 1. destruct (hash (val e)) as [kw|]; rsimpl; [|done].
    destruct (0 <? tally_at kw counts); [|by apply IH].
    destruct (hash (orig e)) as [kn|] eqn:Hkn; rsimpl; [|done].
    apply IH. by apply keyed_set_add.
Qed.

Lemma needed_of_keyed (mons : list json) (clients : json) (need : pyset) :
  needed_of mons clients = Ok need -> keyed need.
Proof.
  unfold needed_of. destruct (for_acc map_monitor mons []); rsimpl; [|done].
  destruct (iterate clients); rsimpl; [|done].
  destruct (for_acc count_client _ []); rsimpl; [|done].
  apply add_needed_keyed, keyed_nil.
Qed.

Lemma monitors_needing_waybar_keyed (w w' : world) (need : pyset) :
  monitors_needing_waybar w = (Ok need, w') -> keyed need.
Proof.
  unfold monitors_needing_waybar. mrun.
  destruct (get_monitors w) as [[mons|] w1]; [|done]. mrun.
  destruct (get_clients w1) as [[clients|] w2]; [|done]. unfold lift.
  intros [= Hneed _]. by eapply needed_of_keyed.
Qed.

Lemma dict_pop_middle {V} (pre l : pydict V) (e : entry V) :
  NoDup (dict_canon (pre ++ e :: l)) -> dict_pop (canon e) (pre ++ e :: l) = pre ++ l.
Proof.
  unfold dict_canon. rewrite map_app. simpl.
  intros (Hpre & Hdisj & [Hnot Hl]%NoDup_cons)%NoDup_app.
  induction pre as [|x pre IH]; simpl.
  - rewrite decide_True by done. apply dict_pop_absent.
    destruct (dict_get (canon e) l) eqn:Hget; [|done]. exfalso. apply Hnot.
    apply (dict_get_is_Some (canon e) l). by eauto.
  - rewrite decide_False.
    + f_equal. apply IH.
      * by apply NoDup_cons in Hpre as [_ ?].
      * intros y Hy. apply Hdisj. apply elem_of_cons. by right.
    + intros Heq. apply (Hdisj (canon e)); [rewrite <- Heq|]; apply elem_of_cons; by left.
Qed.

Lemma stopping_quiet (p : handle) (t : list event) : stopping p t -> Forall quiet t.
Proof.
  assert (Hw : forall n, Forall quiet (waits p n)).
  { induction n as [|n IH]; simpl; [done|]. by repeat constructor. }
  intros [c| |n c Hn|c|ok]; repeat (apply Forall_cons; split; [done|]);
    rewrite ?Forall_app; repeat split; try apply Hw; by repeat constructor.
Qed.

Lemma quiet_stop_phase (needed : pyset) (table : pydict handle) (e : event) :
  quiet e -> stop_phase needed table e.
Proof. by destruct e. Qed.

Lemma quiet_start_phase (needed : pyset) (e : event) : quiet e -> start_phase needed e.
Proof. by destruct e. Qed.

Lemma stops_loop (needed : pyset) (table l pre : pydict handle) (w : world) :
  procs w = pre ++ l -> keyed (pre ++ l) ->
  (forall e, e ∈ l -> e ∈ table) ->
  exists w' t,
    for_each (dict_keys l) (stop_unneeded needed) w = (Ok tt, w')
    /\ procs w' = pre ++ List.filter (fun e => set_mem (canon e) needed) l
    /\ trace w' = trace w ++ t
    /\ Forall (stop_phase needed table) t
    /\ forall e, e ∈ l -> set_mem (canon e) needed = false -> Called_stop (orig e) ∈ t.
Proof.
  revert pre w. induction l as [|e l IH]; intros pre w Hp Hkeyed Htable; simpl.
  - exists w, []. rewrite !app_nil_r in *. do 4 (split; [done|]).
    by intros e ?%elem_of_nil.
  - assert (Hk : hash (orig e) = Ok (canon e)).
    { destruct Hkeyed as [_ Hall]. apply Forall_app in Hall as [_ Hall].
      by apply Forall_cons in Hall as [? _]. }
    mrun. unfold stop_unneeded at 1. mrun. unfold lift at 1. rewrite Hk.
    destruct (set_mem (canon e) needed) eqn:Hmem.
    + cbn [mret M_ret].
      destruct (IH (pre ++ [e]) w) as (w' & t & Hrun & Hp' & Ht & Hq & Hall).
      { by rewrite <- app_assoc. }
      { by rewrite <- app_assoc. }
      { intros x Hx. apply Htable. apply elem_of_cons. by right. }
      exists w', t. split; [done|]. split; [by rewrite Hp', <- app_assoc|].
      do 2 (split; [done|]). intros x [->|Hx]%elem_of_cons Hx'; [congruence|by apply Hall].
    + destruct (stop_waybar_for_run (orig e) (canon e) w Hk) as (w1 & Hstop & Hp1 & Hcase).
      rewrite Hstop.
      assert (Hq1 : exists t1, trace w1 = trace w ++ Called_stop (orig e) :: t1
                               /\ Forall quiet t1).
      { destruct (dict_get (canon e) (procs w)) as [p|].
        - destruct Hcase as (t1 & Ht1 & Hs). exists t1. split; [done|].
          by eapply stopping_quiet.
        - exists []. by rewrite Hcase. }
      destruct Hq1 as (t1 & Ht1 & Hquiet1).
      rewrite Hp, dict_pop_middle in Hp1 by (by destruct Hkeyed).
      destruct (IH pre w1) as (w' & t & Hrun & Hp' & Ht & Hq & Hall).
      { done. }
      { rewrite <- (dict_pop_middle pre l e) by (by destruct Hkeyed). by apply keyed_pop. }
      { intros x Hx. apply Htable. apply elem_of_cons. by right. }
      exists w', (Called_stop (orig e) :: t1 ++ t). split; [done|]. split; [done|].
      split; [rewrite Ht, Ht1, <- app_assoc; done|]. split.
      * apply Forall_cons. split.
        -- split.
           ++ apply list_elem_of_fmap. exists e. split; [done|]. apply Htable.
              apply elem_of_cons. by left.
           ++ by exists (canon e).
        -- apply Forall_app. split; [|done].
           eapply Forall_impl; [exact Hquiet1|]. apply quiet_stop_phase.
      * intros x [->|Hx]%elem_of_cons Hx'.
        -- apply elem_of_cons. by left.
        -- apply elem_of_cons. right. apply elem_of_app. right. by apply Hall.
Qed.

Lemma starts_loop (needed : pyset) (xs : list json) (w : world) :
  Forall (fun x => x ∈ dict_keys needed
                   /\ exists k, hash x = Ok k /\ set_mem k needed = true) xs ->
  keyed (procs w) ->
  exists r w' t,
    for_each xs start_waybar_for w = (r, w')
    /\ trace w' = trace w ++ t
    /\ Forall (start_phase needed) t
    /\ (r = Ok tt -> forall x, x ∈ xs -> Called_start x ∈ t)
    /\ keyed (procs w')
    /\ (forall k p, dict_get k (procs w') = Some p ->
          dict_get k (procs w) = Some p \/ set_mem k needed = true)
    /\ (forall e, r = Raise e ->
          exists y pre post, y ∈ xs /\ t = pre ++ Called_start y :: post
                             /\ Forall quiet post).
Proof.
  intros Hall. revert w. induction Hall as [|x xs (Hin & k & Hk & Hmem) _ IH];
    intros w Hkeyed; simpl.
  - exists (Ok tt), w, []. rewrite app_nil_r. do 3 (split; [done|]).
    split; [by intros _ x ?%elem_of_nil|]. split; [done|].
    split; [intros k p ?; by left|done].
  - destruct (start_waybar_for_run x k w Hk) as (r1 & w1 & t1 & Hrun1 & Ht1 & Hq1 & Hcase).
    assert (Htable : keyed (procs w1)
                     /\ forall k' p, dict_get k' (procs w1) = Some p ->
                          dict_get k' (procs w) = Some p \/ set_mem k' needed = true).
    { destruct Hcase as [(p & _ & _ & _ & _ & Hp & _)|(_ & _ & Hcase)].
      - rewrite Hp. split; [done|by left].
      - destruct r1 as [[]|e1].
        + destruct Hcase as (pre & argv & env & _ & _ & ->). split; [by apply keyed_set|].
          intros k' p. rewrite dict_get_set. case_decide; [subst; by right|by left].
        + destruct Hcase as [-> _]. split; [done|by left]. }
    destruct Htable as [Hkeyed1 Hsub1].
    assert (Hphase1 : Forall (start_phase needed) (Called_start x :: t1)).
    { apply Forall_cons. split; [done|].
      eapply Forall_impl; [exact Hq1|]. apply quiet_start_phase. }
    mrun. rewrite Hrun1. destruct r1 as [[]|e1].
    + destruct (IH w1 Hkeyed1)
        as (r & w' & t & Hrun & Ht & Hq & Hcalled & Hkeyed' & Hsub & Hraise).
      exists r, w', (Called_start x :: t1 ++ t). split; [done|].
      split; [rewrite Ht, Ht1, <- app_assoc; done|]. split.
      { rewrite app_comm_cons. by apply Forall_app. }
      split.
      { intros Hr y [->|Hy]%elem_of_cons.
        - apply elem_of_cons. by left.
        - apply elem_of_cons. right. apply elem_of_app. right. by apply Hcalled. }
      split; [done|]. split.
      { intros k' p [Hold|?]%Hsub; [by apply Hsub1|by right]. }
      intros e He. destruct (Hraise e He) as (y & pre & post & Hy & -> & Hpost).
      exists y, (Called_start x :: t1 ++ pre), post.
      split; [apply elem_of_cons; by right|]. split; [|done].
      simpl. by rewrite <- app_assoc.
    + exists (Raise e1), w1, (Called_start x :: t1). do 3 (split; [done|]).
      split; [done|]. split; [done|]. split; [done|].
      intros e _. exists x, [], t1. split; [apply elem_of_cons; by left|done].
Qed.

Lemma sweep_loop (l : pydict handle) (w : world) :
  Forall (fun e => hash (orig e) = Ok (canon e)) l ->
  exists w' t,
    for_each l sweep_entry w = (Ok tt, w')
    /\ trace w' = trace w ++ t
    /\ Forall quiet t
    /\ (keyed (procs w) -> keyed (procs w'))
    /\ forall k p, dict_get k (procs w') = Some p -> dict_get k (procs w) = Some p.
Proof.
  intros Hall. revert w. induction Hall as [|e l Hk _ IH]; intros w; simpl.
  - exists w, []. rewrite app_nil_r. by do 4 (split; [done|]).
  - destruct (poll_spec (val e) w) as (rc & w1 & Hpoll & Hp1 & Ht1 & _).
    mrun. unfold sweep_entry at 1. mrun. rewrite Hpoll.
    set (w2 := match rc with
               | Some _ => set_procs (dict_pop (canon e)) w1
               | None => w1
               end).
    assert (Hstep : (match rc with
                     | Some _ => k ← lift (hash (orig e)); modify (set_procs (dict_pop k))
                     | None => mret ()
                     end) w1 = (Ok tt, w2)).
    { subst w2. destruct rc; [|done]. mrun. unfold lift. by rewrite Hk. }
    rewrite Hstep.
    destruct (IH w2) as (w' & t & Hrun & Ht & Hq & Hkeyed & Hsub).
    exists w', (Poll (val e) rc :: t). split; [done|].
    assert (Ht2 : trace w2 = trace w1) by (subst w2; by destruct rc).
    split; [rewrite Ht, Ht2, Ht1, <- app_assoc; done|].
    split; [by constructor|]. split.
    + intros Hw. apply Hkeyed. subst w2. destruct rc; simpl; rewrite Hp1; [|done].
      by apply keyed_pop.
    + intros k p Hget%Hsub. subst w2. destruct rc; simpl in Hget; rewrite Hp1 in Hget; [|done].
      rewrite dict_get_pop in Hget. by case_decide.
Qed.

Lemma dict_get_filter {V} (g : hkey -> bool) (k : hkey) (d : pydict V) :
  dict_get k (List.filter (fun e => g (canon e)) d) = if g k then dict_get k d else None.
Proof.
  induction d as [|e d IH]; simpl; [by destruct (g k)|].
  destruct (g (canon e)) eqn:Hg; simpl; case_decide; subst; rewrite ?Hg; try done.
  by rewrite IH, Hg.
Qed.

Lemma keyed_filter {V} (f : entry V -> bool) (d : pydict V) :
  keyed d -> keyed (List.filter f d).
Proof.
  intros [Hnd Hall]. split.
  - unfold dict_canon in *. induction d as [|e d IH]; simpl; [done|].
    apply NoDup_cons in Hnd as [Hnot Hnd]. apply Forall_cons in Hall as [_ Hall].
    destruct (f e); [|by apply IH]. simpl. apply NoDup_cons. split; [|by apply IH].
    intros Hin. apply Hnot. apply list_elem_of_fmap in Hin as (x & Hx & Hin).
    apply list_elem_of_fmap. exists x. split; [done|].
    apply list_elem_of_In, List.filter_In in Hin as [Hin _]. by apply list_elem_of_In.
  - clear Hnd. induction Hall as [|e d He Hd IH]; simpl; [done|].
    destruct (f e); [by constructor|done].
Qed.

Lemma dict_keys_hash (s : pyset) (x : json) :
  keyed s -> x ∈ dict_keys s -> exists k, hash x = Ok k /\ set_mem k s = true.
Proof.
  intros [_ Hall] (e & -> & Hin)%list_elem_of_fmap. exists (canon e). split.
  - by apply (proj1 (Forall_forall _ _) Hall).
  - by apply set_mem_elem.
Qed.

Lemma reconcile_run (w w1 : world) (needed : pyset) :
  keyed (procs w) ->
  monitors_needing_waybar w = (Ok needed, w1) ->
  exists r w' t_stop t_rest,
    reconcile w = (r, w')
    /\ trace w' = trace w1 ++ t_stop ++ t_rest
    /\ Forall (stop_phase needed (procs w)) t_stop
    /\ Forall (start_phase needed) t_rest
    /\ (forall e, e ∈ procs w -> set_mem (canon e) needed = false ->
                  Called_stop (orig e) ∈ t_stop)
    /\ (r = Ok tt -> forall x, x ∈ dict_keys needed -> Called_start x ∈ t_rest)
    /\ keyed (procs w')
    /\ (forall k p, dict_get k (procs w') = Some p ->
                    dict_get k (procs w) = Some p \/ set_mem k needed = true)
    /\ (forall k, is_Some (dict_get k (procs w')) -> set_mem k needed = true)
    /\ (forall e, r = Raise e ->
          exists y pre post, y ∈ dict_keys needed
                             /\ t_rest = pre ++ Called_start y :: post
                             /\ Forall quiet post).
Proof.
  intros Hkeyed Hneeded.
  pose proof (monitors_needing_waybar_table _ _ _ Hneeded) as Hp1. unfold same_table in Hp1.
  pose proof (monitors_needing_waybar_keyed _ _ _ Hneeded) as Hkn.
  unfold reconcile. mrun. rewrite Hneeded. mrun. unfold gets at 1. rewrite Hp1.
  destruct (stops_loop needed (procs w) (procs w) [] w1) as (w2 & t1 & Hstops & Hp2 & Ht2 & Hq2 & Hall2);
    [done|done|done|].
  mrun. rewrite Hstops. simpl in Hp2.
  assert (Hkeyed2 : keyed (procs w2)) by (rewrite Hp2; by apply keyed_filter).
  assert (Hsub2 : forall k p, dict_get k (procs w2) = Some p ->
                    dict_get k (procs w) = Some p /\ set_mem k needed = true).
  { intros k p. rewrite Hp2, (dict_get_filter (fun k => set_mem k needed)).
    by destruct (set_mem k needed). }
  destruct (starts_loop needed (set_order (dict_keys needed)) w2)
    as (r3 & w3 & t3 & Hstarts & Ht3 & Hq3 & Hcalled & Hkeyed3 & Hsub3 & Hraise3); [|done|].
  { apply Forall_forall. intros x Hx.
    assert (Hin : x ∈ dict_keys needed).
    { apply list_elem_of_In. eapply Permutation_in; [apply set_order_permutes|].
      by apply list_elem_of_In. }
    split; [done|]. by apply dict_keys_hash. }
  assert (Hneeded3 : forall k p, dict_get k (procs w3) = Some p -> set_mem k needed = true).
  { intros k p [Hold|?]%Hsub3; [|done]. by apply Hsub2 in Hold as [_ ?]. }
  mrun. rewrite Hstarts. destruct r3 as [[]|e3].
  - mrun. unfold gets at 1.
    destruct (sweep_loop (procs w3) w3) as (w4 & t4 & Hsweep & Ht4 & Hq4 & Hkeyed4 & Hsub4);
      [by destruct Hkeyed3|].
    rewrite Hsweep. exists (Ok tt), w4, t1, (t3 ++ t4).
    split; [done|]. split; [by rewrite Ht4, Ht3, Ht2, <- !app_assoc|].
    split; [done|]. split.
    { apply Forall_app. split; [done|].
      eapply Forall_impl; [exact Hq4|]. apply quiet_start_phase. }
    split; [done|]. split.
    { intros _ x Hx. apply elem_of_app. left. apply Hcalled; [done|].
      apply list_elem_of_In. eapply Permutation_in; [symmetry; apply set_order_permutes|].
      by apply list_elem_of_In. }
    split; [by apply Hkeyed4|]. split; [|split; [|done]].
    + intros k p Hget%Hsub4. apply Hsub3 in Hget as [Hold|?]; [|by right].
      left. by apply Hsub2 in Hold as [? _].
    + intros k [p Hget%Hsub4]. by eapply Hneeded3.
  - exists (Raise e3), w3, t1, t3.
    split; [done|]. split; [by rewrite Ht3, Ht2, <- !app_assoc|].
    do 3 (split; [done|]). split; [done|]. split; [done|]. split; [|split].
    + intros k p Hget. apply Hsub3 in Hget as [Hold|?]; [|by right].
      left. by apply Hsub2 in Hold as [? _].
    + intros k [p Hget]. by eapply Hneeded3.
    + intros e _. destruct (Hraise3 e3 eq_refl) as (y & pre & post & Hy & -> & Hpost).
      exists y, pre, post. split; [|done].
      apply list_elem_of_In. eapply Permutation_in; [apply set_order_permutes|].
      by apply list_elem_of_In.
Qed.

(** C4. Within one reconciliation cycle every stop is issued before any
    start: what the cycle logs after computing its desired set splits into
    a first part with the stops, each of an output of the table that is
    not in the desired set, and a second part with the starts, each of an
    output of the desired set. Every output of the table that is not
    desired is stopped in the first part, so the stop of a departing
    output precedes the start of any entering one. *)
Theorem stops_are_issued_before_starts (w w1 w' : world) (needed : pyset)
    (r : result unit) :
  keyed (procs w) ->
  monitors_needing_waybar w = (Ok needed, w1) ->
  reconcile w = (r, w') ->
  exists t_stop t_rest,
    trace w' = trace w1 ++ t_stop ++ t_rest
    /\ Forall (stop_phase needed (procs w)) t_stop
    /\ Forall (start_phase needed) t_rest
    /\ (forall i j a b,
          (t_stop ++ t_rest) !! i = Some (Called_stop a) ->
          (t_stop ++ t_rest) !! j = Some (Called_start b) ->
          (i < j)%nat)
    /\ (forall e, e ∈ procs w -> set_mem (canon e) needed = false ->
                  Called_stop (orig e) ∈ t_stop)
    /\ (r = Ok tt -> forall x, x ∈ dict_keys needed -> Called_start x ∈ t_rest).
Proof.
  intros Hkeyed Hneeded Hrun.
  destruct (reconcile_run w w1 needed Hkeyed Hneeded)
    as (r0 & w0 & t_stop & t_rest & Hrun0 & Ht & Hstop & Hstart & Hall & Hcalled & _).
  rewrite Hrun in Hrun0. injection Hrun0 as <- <-.
  exists t_stop, t_rest. do 3 (split; [done|]). split; [|done].
  intros i j a b Hi Hj.
  assert (Hi' : (i < length t_stop)%nat).
  { destruct (decide (i < length t_stop)%nat) as [|Hge]; [done|].
    rewrite lookup_app_r in Hi by lia.
    apply list_elem_of_lookup_2 in Hi.
    by apply (proj1 (Forall_forall _ _) Hstart) in Hi. }
  assert (Hj' : (length t_stop <= j)%nat).
  { destruct (decide (length t_stop <= j)%nat) as [|Hlt]; [done|].
    rewrite lookup_app_l in Hj by lia.
    apply list_elem_of_lookup_2 in Hj.
    by apply (proj1 (Forall_forall _ _) Hstop) in Hj. }
  lia.
Qed.

Lemma entries_for_at_most_one {V} (k : hkey) (d : pydict V) :
  NoDup (dict_canon d) -> (length (entries_for k d) <= 1)%nat.
Proof.
  intros Hnd. destruct (dict_get k d) as [v|] eqn:Hget.
  - rewrite entries_for_one; [done..|by eauto].
  - rewrite entries_for_absent; [simpl; lia|].
    intros Hin%dict_get_is_Some. rewrite Hget in Hin. by destruct Hin.
Qed.

(** C5. The table holds at most one entry per output: [start_waybar_for],
    [stop_waybar_for] and [reconcile] keep it so. After a cycle whose
    desired set was computed, every output with an entry is in that set,
    and an entry that was not in the table before the cycle is of a
    desired output. Entries go only in [stop_waybar_for] and in the sweep:
    [start_waybar_for] removes none, and computing the desired set leaves
    the table as it is. *)
Theorem table_holds_desired_outputs_once (w w1 w' : world) (needed : pyset)
    (r : result unit) :
  keyed (procs w) ->
  monitors_needing_waybar w = (Ok needed, w1) ->
  reconcile w = (r, w') ->
  (keyed (procs w') /\ forall k, (length (entries_for k (procs w')) <= 1)%nat)
  /\ (forall k, is_Some (dict_get k (procs w')) -> set_mem k needed = true)
  /\ (forall k p, dict_get k (procs w') = Some p ->
                  dict_get k (procs w) = Some p \/ set_mem k needed = true)
  /\ procs w1 = procs w
  /\ (forall mon_name k w0 r0 w0',
        hash mon_name = Ok k -> keyed (procs w0) ->
        start_waybar_for mon_name w0 = (r0, w0') ->
        keyed (procs w0')
        /\ (forall k', is_Some (dict_get k' (procs w0)) -> is_Some (dict_get k' (procs w0')))
        /\ (forall k', k' <> k -> dict_get k' (procs w0') = dict_get k' (procs w0)))
  /\ (forall mon_name k w0 r0 w0',
        hash mon_name = Ok k -> keyed (procs w0) ->
        stop_waybar_for mon_name w0 = (r0, w0') ->
        keyed (procs w0') /\ procs w0' = dict_pop k (procs w0)).
Proof.
  intros Hkeyed Hneeded Hrun.
  destruct (reconcile_run w w1 needed Hkeyed Hneeded)
    as (r0 & w0 & t_stop & t_rest & Hrun0 & _ & _ & _ & _ & _ & Hk' & Hsub & Hin & _).
  rewrite Hrun in Hrun0. injection Hrun0 as <- <-.
  split; [|split; [done|split; [done|split; [|split]]]].
  - split; [done|]. intros k. apply entries_for_at_most_one. by destruct Hk'.
  - by apply (monitors_needing_waybar_table _ _ _ Hneeded).
  - intros mon_name k w0 r0 w0' Hk Hkeyed0 Hstart.
    destruct (start_waybar_for_run mon_name k w0 Hk) as (r1 & w2 & t & Hrun1 & _ & _ & Hcase).
    rewrite Hstart in Hrun1. injection Hrun1 as <- <-.
    assert (Hp : procs w0' = procs w0
                 \/ procs w0' = dict_set k mon_name (fresh w0) (procs w0)).
    { destruct Hcase as [(p & _ & _ & _ & _ & Hp & _)|(_ & _ & Hcase)]; [by left|].
      destruct r0 as [[]|e].
      - destruct Hcase as (pre & argv & env & _ & _ & Hp). by right.
      - destruct Hcase as [Hp _]. by left. }
    destruct Hp as [->| ->]; [done|]. split; [by apply keyed_set|]. split.
    + intros k'. rewrite dict_get_set. case_decide; [by eauto|done].
    + intros k' Hne. rewrite dict_get_set. by rewrite decide_False.
  - intros mon_name k w0 r0 w0' Hk Hkeyed0 Hstop.
    destruct (stop_waybar_for_run mon_name k w0 Hk) as (w2 & Hrun2 & Hp & _).
    rewrite Hstop in Hrun2. injection Hrun2 as _ <-. rewrite Hp.
    split; [by apply keyed_pop|done].
Qed.

(** C8, as the code has it. If the launch inside [start_waybar_for] fails,
    the call raises, no process is launched and the table is exactly as it
    was before the call. A later cycle in which the output is desired
    calls [start_waybar_for] for it again, unless the cycle ends before
    that in the raising start of another desired output: an exception is
    not caught per output, it ends the cycle. *)
Theorem failed_launch_leaves_the_table (mon_name : json) (k : hkey) (w w' : world)
    (r : result unit) (t : list event) (argv : list string) (env : list (string * string)) :
  hash mon_name = Ok k ->
  start_waybar_for mon_name w = (r, w') ->
  trace w' = trace w ++ t ->
  Spawn argv env None ∈ t ->
  (exists e, r = Raise e)
  /\ procs w' = procs w
  /\ launched t = []
  /\ forall v v1 v' needed r',
       keyed (procs v) ->
       monitors_needing_waybar v = (Ok needed, v1) ->
       set_mem k needed = true ->
       reconcile v = (r', v') ->
       exists x t',
         hash x = Ok k /\ x ∈ dict_keys needed /\ trace v' = trace v ++ t'
         /\ (Called_start x ∈ t'
             \/ exists e y k' pre post,
                  r' = Raise e /\ hash y = Ok k' /\ k' <> k
                  /\ t' = pre ++ Called_start y :: post /\ Forall quiet post).
Proof.
  intros Hk Hstart Ht Hfail.
  destruct (start_waybar_for_run mon_name k w Hk) as (r1 & w2 & t1 & Hrun1 & Ht1 & _ & Hcase).
  rewrite Hstart in Hrun1. injection Hrun1 as <- <-.
  rewrite Ht in Ht1. apply app_inv_head in Ht1. subst t.
  assert (Hnot : forall pre, Forall supporting pre -> Spawn argv env None ∉ pre).
  { intros pre Hpre Hin. by apply (proj1 (Forall_forall _ _) Hpre) in Hin. }
  assert (Hraise : exists e, r = Raise e /\ procs w' = procs w /\ launched t1 = []).
  { destruct Hcase as [(p & _ & _ & _ & -> & _)|(_ & _ & Hcase)].
    - apply elem_of_cons in Hfail as [?|Hfail]; [done|].
      apply elem_of_cons in Hfail as [?|Hfail]; [done|]. by apply elem_of_nil in Hfail.
    - destruct r as [[]|e]; [|by exists e].
      destruct Hcase as (pre & argv' & env' & -> & Hpre & _).
      apply elem_of_cons in Hfail as [?|Hfail]; [done|].
      apply elem_of_app in Hfail as [Hfail|Hfail]; [by apply Hnot in Hfail|].
      apply elem_of_cons in Hfail as [?|Hfail]; [done|]. by apply elem_of_nil in Hfail. }
  destruct Hraise as (e & -> & Hp & Hl). split; [by exists e|]. do 2 (split; [done|]).
  intros v v1 v' needed r' Hkeyed Hneeded Hmem Hrun.
  destruct (reconcile_run v v1 needed Hkeyed Hneeded)
    as (r0 & v0 & t_stop & t_rest & Hrun0 & Htv & _ & _ & _ & Hcalled & _ & _ & _ & Hraise).
  rewrite Hrun in Hrun0. injection Hrun0 as <- <-.
  destruct (monitors_needing_waybar_emits _ _ _ Hneeded) as (t0 & Ht0 & _).
  unfold set_mem in Hmem. destruct (dict_get k needed) as [[]|] eqn:Hget; [|done].
  apply dict_get_Some in Hget as (x & Hx & Hcx & _).
  pose proof (monitors_needing_waybar_keyed _ _ _ Hneeded) as [Hnd Hkn].
  assert (Hxk : forall z, z ∈ needed -> hash (orig z) = Ok (canon z)).
  { intros z Hz. by apply (proj1 (Forall_forall _ _) Hkn). }
  assert (Hxin : orig x ∈ dict_keys needed) by (apply list_elem_of_fmap; by exists x).
  exists (orig x), (t0 ++ t_stop ++ t_rest). split; [rewrite <- Hcx; by apply Hxk|].
  split; [done|]. split; [by rewrite Htv, Ht0, <- app_assoc|].
  destruct r' as [[]|e'].
  - left. apply elem_of_app. right. apply elem_of_app. right. by apply Hcalled.
  - destruct (Hraise e' eq_refl) as (y & pre & post & Hy & -> & Hpost).
    apply list_elem_of_fmap in Hy as (z & -> & Hz).
    destruct (decide (canon z = k)) as [Hzk|Hzk].
    + left. assert (z = x) as ->.
      { pose proof (dict_get_elem needed z Hnd Hz) as Hgz.
        pose proof (dict_get_elem needed x Hnd Hx) as Hgx.
        clear -Hnd Hz Hx Hzk Hcx. rewrite <- Hcx in Hzk. unfold dict_canon in Hnd.
        apply list_elem_of_lookup in Hz as [i Hi]. apply list_elem_of_lookup in Hx as [j Hj].
        assert (i = j); [|by simplify_eq].
        eapply (NoDup_lookup _ i j (canon z) Hnd); rewrite list_lookup_fmap.
        - by rewrite Hi.
        - by rewrite Hj, Hzk. }
      apply elem_of_app. right. apply elem_of_app. right.
      apply elem_of_app. right. apply elem_of_cons. by left.
    + right. exists e', (orig z), (canon z), (t0 ++ t_stop ++ pre), post.
      split; [done|]. split; [by apply Hxk|]. split; [done|]. split; [|done].
      by rewrite <- !app_assoc.
Qed.

(** ** What a run leaves alone *)

Global Instance keeps_preorder {A} (f : world -> A) : PreOrder (keeps f).
Proof.
  split; [by intros w|]. intros w1 w2 w3 H12 H23. unfold keeps in *. congruence.
Qed.

#[local] Hint Extern 1 (keeps _ _ _) => reflexivity : steps.
#[local] Hint Extern 1 (steps (keeps _) (log _)) =>
  apply steps_modify; intros; reflexivity : steps.

Lemma for_each_steps {X} (R : relation world) `{!PreOrder R} (xs : list X)
    (body : X -> M unit) :
  (forall x, x ∈ xs -> steps R (body x)) -> steps R (for_each xs body).
Proof.
  induction xs as [|x xs IH]; intros Hbody; simpl.
  - apply steps_ret; tc_solve.
  - apply steps_bind; [tc_solve| |intros _].
    + apply Hbody. apply elem_of_cons. by left.
    + apply IH. intros y Hy. apply Hbody. apply elem_of_cons. by right.
Qed.

Lemma poll_beside_processes (p : handle) : steps (keeps beside_processes) (poll p).
Proof. unfold poll. steps. Qed.

Lemma wait_exit_beside_processes (n : nat) (p : handle) :
  steps (keeps beside_processes) (wait_exit n p).
Proof.
  induction n as [|n IH]; simpl; [steps|].
  apply steps_bind; [tc_solve|apply poll_beside_processes|intros [c|]]; [steps|].
  apply steps_bind; [tc_solve| |by intros _]. unfold sleep, log. steps.
Qed.

Lemma stop_waybar_for_beside_processes (mon_name : json) :
  steps (keeps beside_processes) (stop_waybar_for mon_name).
Proof.
  unfold stop_waybar_for, terminate, kill, fallible, log.
  steps; first [apply poll_beside_processes | apply wait_exit_beside_processes].
Qed.

Lemma stopping_concerns (p : handle) (t : list event) :
  stopping p t -> Forall (concerns p) t.
Proof.
  assert (Hw : forall n, Forall (concerns p) (waits p n)).
  { induction n as [|n IH]; simpl; [done|]. by repeat constructor. }
  intros [c| |n c Hn|c|ok]; repeat (apply Forall_cons; split; [done|]);
    rewrite ?Forall_app; repeat split; try apply Hw; by repeat constructor.
Qed.

(** X1. [stop_waybar_for] touches nothing but the table entry and the
    process of its output. It writes no file, launches nothing and asks the
    compositor nothing; the entries of the other outputs stay as they are;
    and whatever it does after the call is recorded, it does to the process
    of the entry the table held for the output: it polls it, asks it to
    terminate, kills it, or lets time pass. An output that cannot key a
    dict makes the lookup raise [TypeError], the table as it was. *)
Theorem stop_touches_only_its_own_process (mon_name : json) (w : world) :
  let w' := snd (stop_waybar_for mon_name w) in
  files w' = files w /\ fresh w' = fresh w /\ environ w' = environ w
  /\ queries w' = queries w
  /\ (forall k k', hash mon_name = Ok k -> k' <> k ->
        dict_get k' (procs w') = dict_get k' (procs w))
  /\ (scalar mon_name = false ->
        fst (stop_waybar_for mon_name w) = Raise TypeError /\ procs w' = procs w)
  /\ exists t, trace w' = trace w ++ Called_stop mon_name :: t
       /\ Forall (fun e => exists k p, hash mon_name = Ok k
                             /\ dict_get k (procs w) = Some p /\ concerns p e) t.
Proof.
  cbn zeta.
  destruct (stop_waybar_for mon_name w) as [r w'] eqn:Hrun. simpl.
  pose proof (stop_waybar_for_beside_processes mon_name w r w' Hrun) as Hframe.
  unfold keeps, beside_processes in Hframe. injection Hframe as Hfiles Hfresh Henv Hq.
  do 4 (split; [done|]).
  destruct (hash mon_name) as [k|e] eqn:Hk.
  - destruct (stop_waybar_for_run mon_name k w Hk) as (w0 & Hrun0 & Hp & Hcase).
    rewrite Hrun in Hrun0. injection Hrun0 as -> <-.
    split; [|split].
    + intros ? k' [= <-] Hne. rewrite Hp, dict_get_pop. by rewrite decide_False.
    + intros Hs. by destruct mon_name.
    + destruct (dict_get k (procs w)) as [p|] eqn:Hget.
      * destruct Hcase as (t & Ht & Hstop). exists t. split; [done|].
        eapply Forall_impl; [by apply stopping_concerns|].
        intros e He. by exists k, p.
      * exists []. by rewrite Hcase.
  - split; [done|].
    unfold stop_waybar_for in Hrun. munfold. rewrite Hk in Hrun. injection Hrun as <- <-.
    split; [|by exists []].
    intros _. split; [|done]. destruct mon_name; simpl in Hk; congruence.
Qed.

(** ** The monitors document, by shape *)

Lemma keep_monitor_shape (items acc : list json) :
  for_acc keep_monitor items acc
  = if forallb is_object items then Ok (acc ++ retained items) else Raise AttributeError.
Proof.
  revert acc. induction items as [|m items IH]; intros acc; simpl.
  - by rewrite app_nil_r.
  - destruct m as [| | | | |fields]; simpl; try done.
    unfold keep_monitor at 1. unfold retained, disabled. simpl. rsimpl.
    destruct (assoc "disabled" fields) as [[|[]| | | |]|]; simpl; rewrite IH;
      destruct (forallb is_object items); try done; by rewrite <- app_assoc.
Qed.

(** X2. What [get_monitors] makes of the document the monitors query
    delivers ([None] when the query failed), shape by shape. A document
    that is false as a condition ([None], [false], 0, an empty string, list
    or dict) gives no monitors. A list of objects gives those of its
    objects that are not flagged [disabled: true], in order. Anything else
    raises: a number or [true] is not iterable ([TypeError]); a list with an
    item that is no object, a non-empty string and a non-empty dict raise
    [AttributeError] at the first [.get]. *)
Theorem get_monitors_by_shape (w : world) :
  fst (get_monitors w)
  = match delivered (next_outcome w) with
    | JNull => Ok []
    | JBool b => if b then Raise TypeError else Ok []
    | JInt z => if z =? 0 then Ok [] else Raise TypeError
    | JStr s => match s with EmptyString => Ok [] | _ => Raise AttributeError end
    | JObj fields => match fields with [] => Ok [] | _ => Raise AttributeError end
    | JArr items =>
        if forallb is_object items then Ok (retained items) else Raise AttributeError
    end.
Proof.
  rewrite get_monitors_eq. cbn [fst].
  destruct (delivered (next_outcome w)) as [|[]|z|[|c s]|items|[|[key v] fields]];
    simpl; try done.
  - by destruct (z =? 0).
  - destruct items as [|m items]; [done|]. cbn [truthy rbind iterate].
    by rewrite keep_monitor_shape.
Qed.

(** ** The name of a monitor *)

Lemma string_of_int_nonempty (z : Z) : NilZero.string_of_int (Z.to_int z) <> "".
Proof.
  destruct z as [|p|p]; simpl; [done| |done].
  unfold NilZero.string_of_uint. by destruct (Pos.to_uint p).
Qed.

Lemma str_empty (v : json) : scalar v = true -> str v = "" -> v = JStr "".
Proof.
  destruct v as [|[]|z|s| |]; simpl; try done.
  - intros _ Hz. by apply string_of_int_nonempty in Hz.
  - by intros _ ->.
Qed.

(** X3. The name [monitors_needing_waybar] gives a monitor record is its
    "name" if that is true as a condition, else its "description" if that
    is, else [str] of its "id" (the text "None" when the record has no
    id). With an id that is missing or a number, a boolean or a string, the
    result fails to be a usable name in one case only: no name, no
    description, and the empty string as id. *)
Theorem monitor_without_a_name_has_an_empty_id (fields : list (string * json)) :
  let name := default JNull (assoc "name" fields) in
  let description := default JNull (assoc "description" fields) in
  let id := default JNull (assoc "id" fields) in
  let chosen := if truthy name then name
                else if truthy description then description
                else JStr (str id) in
  monitor_name (JObj fields) = Ok chosen
  /\ (scalar id = true ->
        (truthy chosen = false
         <-> truthy name = false /\ truthy description = false /\ id = JStr "")).
Proof.
  cbn zeta. split.
  { unfold monitor_name, py_or. simpl. rsimpl.
    destruct (truthy (default JNull (assoc "name" fields))) eqn:Hn; [by rewrite Hn|].
    by destruct (truthy (default JNull (assoc "description" fields))). }
  intros Hid.
  destruct (truthy (default JNull (assoc "name" fields))) eqn:Hn.
  { rewrite Hn. split; [done|]. by intros [? _]. }
  destruct (truthy (default JNull (assoc "description" fields))) eqn:Hd.
  { rewrite Hd. split; [done|]. by intros (_ & ? & _). }
  simpl. split.
  - intros Hs. do 2 (split; [done|]). apply str_empty; [done|].
    by destruct (str (default JNull (assoc "id" fields))).
  - by intros (_ & _ & ->).
Qed.

(** ** The configuration files of plain names *)

Lemma length_append (s t : string) :
  String.length (s +:+ t) = (String.length s + String.length t)%nat.
Proof. induction s as [|c s IH]; simpl; [done|]. by rewrite IH. Qed.

Lemma substring_prefix (s t : string) : substring 0 (String.length s) (s +:+ t) = s.
Proof.
  induction s as [|c s IH]; simpl.
  - by destruct t.
  - by rewrite IH.
Qed.

Lemma substring_skip (s t : string) (n : nat) :
  substring (String.length s) n (s +:+ t) = substring 0 n t.
Proof. induction s as [|c s IH]; simpl; [done|]. by rewrite IH. Qed.

Lemma append_inv_tail (s s' t : string) : s +:+ t = s' +:+ t -> s = s'.
Proof.
  revert s'. induction s as [|c s IH]; intros [|c' s'] Heq; simpl in *.
  - done.
  - apply (f_equal String.length) in Heq. rewrite !length_append in Heq.
    simpl in Heq. lia.
  - apply (f_equal String.length) in Heq. rewrite !length_append in Heq.
    simpl in Heq. lia.
  - change (String c (s +:+ t) = String c' (s' +:+ t)) in Heq.
    injection Heq as -> Heq. f_equal. by apply IH.
Qed.

Lemma slash_free_app (s t : string) :
  slash_free (s +:+ t) = slash_free s && slash_free t.
Proof.
  induction s as [|c s IH]; simpl; [done|]. rewrite IH. by destruct (Ascii.eqb c "/").
Qed.

Lemma split_slash_free (s : string) : slash_free s = true -> split_slash s = [s].
Proof.
  induction s as [|c s IH]; simpl; [done|].
  destruct (Ascii.eqb c "/"); simpl; [done|]. intros Hs. by rewrite IH.
Qed.

Lemma rfind_dot_jsonc (i : nat) (s : string) :
  rfind_dot i (s +:+ ".jsonc") = Some (i + String.length s)%nat.
Proof.
  revert i. induction s as [|c s IH]; intros i.
  - simpl. f_equal. lia.
  - change (String c s +:+ ".jsonc") with (String c (s +:+ ".jsonc")).
    cbn [rfind_dot]. rewrite IH. simpl. f_equal. lia.
Qed.

Lemma suffix_jsonc (stem : string) :
  stem <> "" -> suffix (stem +:+ ".jsonc") = ".jsonc".
Proof.
  intros Hstem. unfold suffix. rewrite rfind_dot_jsonc, length_append.
  assert (Hlen : (0 < String.length stem)%nat) by (destruct stem; [done|simpl; lia]).
  cbn [String.length Nat.add].
  replace (0 <? String.length stem)%nat with true by (symmetry; apply Nat.ltb_lt; lia).
  replace (String.length stem <? String.length stem + 6 - 1)%nat with true
    by (symmetry; apply Nat.ltb_lt; lia).
  cbn [andb]. replace (String.length stem + 6 - String.length stem)%nat with 6%nat by lia.
  by rewrite substring_skip.
Qed.

Lemma with_suffix_jsonc (dir : path) (stem : string) :
  stem <> "" ->
  with_suffix (dir ++ [stem +:+ ".jsonc"]) ".tmp" = Ok (dir ++ [stem +:+ ".tmp"]).
Proof.
  intros Hstem. unfold with_suffix. rewrite last_snoc, removelast_last.
  do 2 f_equal. rewrite (suffix_jsonc stem Hstem), length_append.
  cbn [String.length].
  replace (String.length stem + 6 - 6)%nat with (String.length stem) by lia.
  by rewrite substring_prefix.
Qed.

Lemma config_path_plain (mon_name : json) :
  slash_free (str mon_name) = true ->
  config_path mon_name = CACHE_DIR ++ ["waybar-" +:+ str mon_name +:+ ".jsonc"]
  /\ with_suffix (config_path mon_name) ".tmp"
     = Ok (CACHE_DIR ++ ["waybar-" +:+ str mon_name +:+ ".tmp"]).
Proof.
  intros Hfree.
  assert (Hcfg : config_path mon_name
                 = CACHE_DIR ++ ["waybar-" +:+ str mon_name +:+ ".jsonc"]).
  { unfold config_path.
    assert (Hparts : parts_of ("waybar-" +:+ str mon_name +:+ ".jsonc")
                     = ["waybar-" +:+ str mon_name +:+ ".jsonc"]).
    { unfold parts_of. rewrite split_slash_free.
      - done.
      - change (slash_free (str mon_name +:+ ".jsonc") = true).
        by rewrite slash_free_app, Hfree. }
    change ("waybar-" +:+ str mon_name +:+ ".jsonc")
      with (String "w" ("aybar-" +:+ str mon_name +:+ ".jsonc")) in *.
    unfold joinpath. cbv iota beta. by rewrite Hparts. }
  split; [done|]. rewrite Hcfg.
  change ("waybar-" +:+ str mon_name +:+ ".jsonc")
    with (("waybar-" +:+ str mon_name) +:+ ".jsonc").
  by rewrite with_suffix_jsonc.
Qed.

Lemma steps_lift_bind {A B} (R : relation world) (a : A) (f : A -> M B) :
  steps R (f a) -> steps R (lift (Ok a) ≫= f).
Proof. intros Hf w r w' Hrun. by apply (Hf w r w'). Qed.

Lemma ensure_monitor_config_elsewhere (mon_name : json) (tmp file : path) :
  with_suffix (config_path mon_name) ".tmp" = Ok tmp ->
  file <> tmp -> file <> config_path mon_name ->
  steps (keeps (fun w => files w !! file)) (ensure_monitor_config mon_name).
Proof.
  intros Htmp Hne Hne'. unfold ensure_monitor_config. rewrite Htmp.
  apply steps_bind; [tc_solve|unfold mkdir, fallible; steps|intros _].
  apply steps_lift_bind. unfold write_text, replace, fallible.
  steps; unfold keeps; simpl.
  - by rewrite lookup_insert_ne.
  - rewrite lookup_insert_ne by done. by rewrite lookup_delete_ne.
Qed.

(** X4. An output whose name has no slash has flat files of its own. Its
    configuration file is the file [waybar-<name>.jsonc] of the cache
    directory and the temporary file it is written through is
    [waybar-<name>.tmp] beside it: the suffix replaced is the final
    [.jsonc], also when the name has dots itself. The files of another
    such output with a different name are different files, the temporary
    file of the one is not the configuration file of the other, and
    writing the configuration of the one, whether it succeeds or fails,
    leaves the configuration file of the other as it is. *)
Theorem plain_names_have_files_of_their_own (mon_name : json) :
  slash_free (str mon_name) = true ->
  config_path mon_name = CACHE_DIR ++ ["waybar-" +:+ str mon_name +:+ ".jsonc"]
  /\ with_suffix (config_path mon_name) ".tmp"
     = Ok (CACHE_DIR ++ ["waybar-" +:+ str mon_name +:+ ".tmp"])
  /\ forall mon_name',
       slash_free (str mon_name') = true ->
       str mon_name <> str mon_name' ->
       config_path mon_name <> config_path mon_name'
       /\ with_suffix (config_path mon_name) ".tmp"
          <> with_suffix (config_path mon_name') ".tmp"
       /\ with_suffix (config_path mon_name) ".tmp" <> Ok (config_path mon_name')
       /\ forall w r w',
            ensure_monitor_config mon_name w = (r, w') ->
            files w' !! config_path mon_name' = files w !! config_path mon_name'.
Proof.
  intros Hfree.
  destruct (config_path_plain mon_name Hfree) as [Hcfg Htmp].
  do 2 (split; [done|]). intros mon_name' Hfree' Hne.
  destruct (config_path_plain mon_name' Hfree') as [Hcfg' Htmp'].
  assert (Hc : config_path mon_name <> config_path mon_name').
  { rewrite Hcfg, Hcfg'. intros Heq%app_inv_head. injection Heq as Heq.
    by apply (append_inv_tail (str mon_name) (str mon_name') ".jsonc") in Heq. }
  assert (Ht : with_suffix (config_path mon_name) ".tmp" <> Ok (config_path mon_name')).
  { rewrite Htmp, Hcfg'. intros [= Heq%app_inv_head]. injection Heq as Heq.
    apply (f_equal last_ascii) in Heq.
    change (last_ascii (str mon_name +:+ ".tmp") = last_ascii (str mon_name' +:+ ".jsonc"))
      in Heq.
    rewrite (last_ascii_app _ ".tmp" "p"), (last_ascii_app _ ".jsonc" "c") in Heq; done. }
  split; [done|]. split; [|split; [done|]].
  - rewrite Htmp, Htmp'. intros [= Heq%app_inv_head]. injection Heq as Heq.
    by apply (append_inv_tail (str mon_name) (str mon_name') ".tmp") in Heq.
  - intros w r w' Hrun.
    apply (ensure_monitor_config_elsewhere mon_name _ (config_path mon_name') Htmp)
      in Hrun; [done| |by apply not_eq_sym].
    intros Heq. apply Ht. by rewrite Htmp, Heq.
Qed.

(** ** The launch *)

(** What [start_waybar_for] does once it has decided to launch. *)
Local Abbreviation launch mon_name k :=
  (cfg ← ensure_monitor_config mon_name;
   env ← gets environ;
   p ← Popen [WAYBAR_BIN; "-c"; path_str cfg; "-s"; path_str STYLE_CSS]
             (setdefault "WAYBAR_LOG_LEVEL" "error" env);
   modify (set_procs (dict_set k mon_name p))).

Lemma start_waybar_for_unfold (mon_name : json) (k : hkey) (w : world) :
  hash mon_name = Ok k ->
  start_waybar_for mon_name w
  = let w0 := set_trace (fun t => t ++ [Called_start mon_name]) w in
    match dict_get k (procs w) with
    | Some p =>
        match poll p w0 with
        | (Ok None, w1) => (Ok tt, w1)
        | (Ok (Some _), w1) => launch mon_name k w1
        | (Raise e, w1) => (Raise e, w1)
        end
    | None => launch mon_name k w0
    end.
Proof.
  intros Hk. unfold start_waybar_for.
  mrun. unfold log at 1, modify at 1.
  mrun. unfold lift at 1. rewrite Hk.
  mrun. unfold gets at 1. cbn [procs set_trace]. cbn zeta.
  destruct (dict_get k (procs w)) as [p|]; [|done].
  mrun. mrun. destruct (poll p _) as [[[c|]|e] w1]; try done.
Qed.

Lemma Popen_run (argv : list string) (env : list (string * string)) (w : world) :
  exists ok w',
    Popen argv env w = (if (ok : bool) then Ok (fresh w) else Raise OSError, w')
    /\ trace w' = trace w ++ [Spawn argv env (if ok then Some (fresh w) else None)]
    /\ procs w' = procs w /\ files w' = files w
    /\ fresh w' = (if ok then S (fresh w) else fresh w)
    /\ ok = negb (default false (head (faults w)))
    /\ faults w' = tail (faults w).
Proof.
  unfold Popen, next_fault. munfold. simpl.
  destruct (faults w) as [|[] rest] eqn:Hf; simpl;
    [exists true|exists false|exists true]; eexists; (split; [done|]); simpl;
    rewrite ?Hf; done.
Qed.

Lemma ensure_monitor_config_beside_launch (mon_name : json) :
  steps (keeps beside_launch) (ensure_monitor_config mon_name).
Proof. unfold ensure_monitor_config, mkdir, write_text, replace, fallible. steps. Qed.

Lemma ensure_monitor_config_file_events (mon_name : json) :
  steps (emits file_event) (ensure_monitor_config mon_name).
Proof. unfold ensure_monitor_config, mkdir, write_text, replace, fallible. steps. Qed.

Lemma no_fault_head (n : nat) (w : world) :
  no_fault (S n) w -> default false (head (drop n (faults w))) = false.
Proof.
  unfold no_fault. intros Hall.
  destruct (drop n (faults w)) as [|b rest] eqn:Hdrop; [done|]. simpl.
  assert (Hb : take (S n) (faults w) !! n = Some b).
  { rewrite lookup_take_lt by lia. rewrite <- (Nat.add_0_r n), <- lookup_drop. by rewrite Hdrop. }
  apply list_elem_of_lookup_2 in Hb. by apply (proj1 (Forall_forall _ _) Hall) in Hb.
Qed.

Lemma no_fault_le (n m : nat) (w : world) : (n <= m)%nat -> no_fault m w -> no_fault n w.
Proof.
  unfold no_fault. intros Hle Hall. rewrite <- (Nat.min_l n m), <- take_take by lia.
  by apply Forall_take.
Qed.

Lemma launch_run (mon_name : json) (k : hkey) (w : world) :
  exists tmp r w' t,
    with_suffix (config_path mon_name) ".tmp" = Ok tmp
    /\ launch mon_name k w = (r, w')
    /\ trace w' = trace w ++ t
    /\ beside_launch w' = beside_launch w
    /\ (no_fault 4 w -> r = Ok tt)
    /\ match r with
       | Ok _ =>
           t = launch_events mon_name tmp (environ w) (fresh w)
           /\ procs w' = dict_set k mon_name (fresh w) (procs w)
           /\ fresh w' = S (fresh w)
           /\ files w' !! config_path mon_name = Some (dumps (config_content mon_name))
           /\ faults w' = drop 4 (faults w)
       | Raise e =>
           e = OSError
           /\ procs w' = procs w /\ fresh w' = fresh w
           /\ launched t = []
           /\ Forall (fun e => signalled e = None) t
       end.
Proof.
  destruct (ensure_monitor_config_run mon_name w)
    as (tmp & rc & wb & Htmp & Hcfg & Hpb & Hfb & Hok & Hcase).
  pose proof (ensure_monitor_config_beside_launch mon_name w rc wb Hcfg) as Hframe.
  unfold keeps in Hframe.
  exists tmp. mrun. rewrite Hcfg. destruct rc as [cfg|e].
  - destruct Hcase as (-> & Htb & Hfiles & Hfaults).
    mrun. unfold gets at 1.
    destruct (Popen_run [WAYBAR_BIN; "-c"; path_str (config_path mon_name); "-s";
                         path_str STYLE_CSS]
                (setdefault "WAYBAR_LOG_LEVEL" "error" (environ wb)) wb)
      as (ok & wc & Hpopen & Htc & Hpc & Hfc & Hfrc & Hokc & Hflc).
    assert (Hsame : beside_launch wc = beside_launch wb).
    { assert (Hs : steps (keeps beside_launch)
                     (Popen [WAYBAR_BIN; "-c"; path_str (config_path mon_name); "-s";
                             path_str STYLE_CSS]
                        (setdefault "WAYBAR_LOG_LEVEL" "error" (environ wb))))
        by (unfold Popen; steps).
      by apply (Hs wb _ wc Hpopen). }
    assert (Henv : environ wb = environ w).
    { unfold beside_launch in Hframe. by injection Hframe. }
    mrun. rewrite Hpopen. destruct ok.
    + eexists (Ok tt), _, _. split; [done|]. split; [done|]. cbn.
      split; [by rewrite Htc, Htb, <- app_assoc|].
      split; [by rewrite <- Hframe, <- Hsame|]. split; [done|].
      split; [unfold launch_events, command_line; by rewrite Hfb, Henv|].
      split; [by rewrite Hpc, Hpb, Hfb|]. split; [by rewrite Hfrc, Hfb|].
      split; [by rewrite Hfc, Hfiles, lookup_insert_eq|].
      rewrite Hflc, Hfaults. by destruct (faults w) as [|? [|? [|? [|? ?]]]].
    + eexists (Raise OSError), _, _. split; [done|]. split; [done|].
      split; [by rewrite Htc, Htb, <- app_assoc|].
      split; [by rewrite <- Hframe, <- Hsame|]. split.
      { intros H4. exfalso. apply no_fault_head in H4. rewrite <- Hfaults in H4.
        rewrite H4 in Hokc. done. }
      split; [done|]. split; [by rewrite Hpc|]. split; [by rewrite Hfrc|].
      split; [done|]. by repeat constructor.
  - destruct Hcase as (ok & rest & Htb & Hsup).
    assert (He : e = OSError).
    { clear -Hcfg Htmp. unfold ensure_monitor_config, mkdir, write_text, replace, fallible,
        next_fault in Hcfg. rewrite Htmp in Hcfg. munfold.
      repeat (match type of Hcfg with
              | context [match faults ?x with _ => _ end] => destruct (faults x) as [|[] ?]
              | context [match ?l with [] => _ | _ :: _ => _ end] => destruct l as [|[] ?]
              | context [match ?fs !! ?y with _ => _ end] => destruct (fs !! y)
              end; simpl in Hcfg); by simplify_eq. }
    destruct (ensure_monitor_config_file_events mon_name w _ wb Hcfg) as (t0 & Ht0 & Hfile).
    exists (Raise e), wb, t0. split; [done|]. split; [done|].
    split; [done|]. split; [done|]. split.
    { intros H4. apply (no_fault_le 3) in H4; [|lia]. by apply Hok in H4. }
    split; [done|]. do 2 (split; [done|]). split.
    + apply launched_supporting. eapply Forall_impl; [exact Hfile|]. by intros [].
    + eapply Forall_impl; [exact Hfile|]. by intros [].
Qed.

Lemma poll_unfold (p : handle) (w : world) :
  poll p w
  = match returncode w !! p with
    | Some c => (Ok (Some c), set_trace (fun t => t ++ [Poll p (Some c)]) w)
    | None =>
        match polls w with
        | [] => (Ok None, set_trace (fun t => t ++ [Poll p None]) w)
        | None :: rest =>
            (Ok None, set_trace (fun t => t ++ [Poll p None]) (set_polls rest w))
        | Some c :: rest =>
            (Ok (Some c),
             set_trace (fun t => t ++ [Poll p (Some c)])
               (set_returncode (fun m => <[p:=c]> m) (set_polls rest w)))
        end
    end.
Proof.
  unfold poll, next_poll. munfold. simpl.
  destruct (returncode w !! p); simpl; [done|].
  by destruct (polls w) as [|[c|] rest].
Qed.

(** What one poll of [p] in [w] leads to: the status [rc] and the world
    [w']. *)
Lemma poll_cases (p : handle) (w : world) :
  exists rc w',
    poll p w = (Ok rc, w')
    /\ trace w' = trace w ++ [Poll p rc]
    /\ procs w' = procs w /\ files w' = files w /\ fresh w' = fresh w
    /\ environ w' = environ w /\ queries w' = queries w /\ faults w' = faults w
    /\ (polls w' = polls w \/ polls w' = tail (polls w))
    /\ returncode w' !! p = rc
    /\ (forall q, q <> p -> returncode w' !! q = returncode w !! q)
    /\ match rc with
       | None => returncode w' = returncode w
       | Some c => returncode w !! p = Some c \/ head (polls w) = Some (Some c)
       end.
Proof.
  rewrite poll_unfold.
  destruct (returncode w !! p) as [c|] eqn:Hc; [|destruct (polls w) as [|[c|] rest] eqn:Hp];
    eexists _, _; (split; [done|]); simpl; rewrite ?Hp; simpl;
    repeat split; try done; eauto.
  - by rewrite lookup_insert_eq.
  - intros q Hq. by rewrite lookup_insert_ne.
Qed.

Lemma find_app {A} (f : A -> bool) (l l' : list A) :
  List.find f (l ++ l') = match List.find f l with
                          | Some x => Some x
                          | None => List.find f l'
                          end.
Proof. induction l as [|x l IH]; simpl; [done|]. by destruct (f x). Qed.

Lemma getenv_setdefault (k v : string) (env : list (string * string)) :
  getenv k (setdefault k v env) = Some (default v (getenv k env)).
Proof.
  unfold getenv, setdefault.
  destruct (List.find (fun kv => String.eqb (fst kv) k) env) as [kv|] eqn:Hfind.
  - by rewrite Hfind.
  - rewrite find_app, Hfind. simpl. by rewrite String.eqb_refl.
Qed.

Lemma getenv_setdefault_ne (k v x : string) (env : list (string * string)) :
  x <> k -> getenv x (setdefault k v env) = getenv x env.
Proof.
  intros Hne. unfold getenv, setdefault.
  destruct (List.find (fun kv => String.eqb (fst kv) k) env); [done|].
  rewrite find_app. simpl. rewrite (proj2 (String.eqb_neq k x)) by done.
  by destruct (List.find _ env).
Qed.

Lemma launched_elem (t : list event) (argv : list string) (env : list (string * string))
    (p : handle) :
  Spawn argv env (Some p) ∈ t -> p ∈ launched t.
Proof.
  intros Hin. unfold launched. apply list_elem_of_omap. by exists (Spawn argv env (Some p)).
Qed.

(** The three ways [start_waybar_for] goes for an output that can key the
    table: the instance is found running; it is launched, after the poll
    of a dead instance if the table had one; or the launch fails. *)
Lemma start_waybar_for_full (mon_name : json) (k : hkey) (w : world) :
  hash mon_name = Ok k ->
  exists r w' checks t,
    start_waybar_for mon_name w = (r, w')
    /\ trace w' = trace w ++ Called_start mon_name :: checks ++ t
    /\ environ w' = environ w /\ queries w' = queries w
    /\ (polls w' = polls w \/ polls w' = tail (polls w))
    /\ match dict_get k (procs w) with
       | None => checks = [] /\ returncode w' = returncode w
       | Some p =>
           exists rc, checks = [Poll p rc]
             /\ returncode w' !! p = rc
             /\ (forall q, q <> p -> returncode w' !! q = returncode w !! q)
             /\ match rc with
                | None => returncode w' = returncode w
                | Some c => returncode w !! p = Some c \/ head (polls w) = Some (Some c)
                end
       end
    /\ ((exists p, dict_get k (procs w) = Some p /\ checks = [Poll p None]
           /\ r = Ok tt /\ t = []
           /\ procs w' = procs w /\ files w' = files w /\ fresh w' = fresh w
           /\ faults w' = faults w)
        \/ (checks <> [Poll (default 0%nat (dict_get k (procs w))) None]
            /\ (no_fault 4 w -> r = Ok tt)
            /\ match r with
               | Ok _ =>
                   (exists tmp, with_suffix (config_path mon_name) ".tmp" = Ok tmp
                      /\ t = launch_events mon_name tmp (environ w) (fresh w))
                   /\ procs w' = dict_set k mon_name (fresh w) (procs w)
                   /\ fresh w' = S (fresh w)
                   /\ files w' !! config_path mon_name
                      = Some (dumps (config_content mon_name))
                   /\ faults w' = drop 4 (faults w)
               | Raise e =>
                   e = OSError
                   /\ procs w' = procs w /\ fresh w' = fresh w
                   /\ launched t = []
                   /\ Forall (fun e => signalled e = None) t
               end)).
Proof.
  intros Hk. rewrite (start_waybar_for_unfold mon_name k w Hk). cbn zeta.
  set (w0 := set_trace (fun t => t ++ [Called_start mon_name]) w).
  assert (Hlaunch : forall checks wa,
            trace wa = trace w0 ++ checks ->
            procs wa = procs w -> fresh wa = fresh w -> environ wa = environ w ->
            queries wa = queries w -> faults wa = faults w ->
            exists r w' t,
              launch mon_name k wa = (r, w')
              /\ trace w' = trace w ++ Called_start mon_name :: checks ++ t
              /\ environ w' = environ w /\ queries w' = queries w
              /\ polls w' = polls wa /\ returncode w' = returncode wa
              /\ (no_fault 4 w -> r = Ok tt)
              /\ match r with
                 | Ok _ =>
                     (exists tmp, with_suffix (config_path mon_name) ".tmp" = Ok tmp
                        /\ t = launch_events mon_name tmp (environ w) (fresh w))
                     /\ procs w' = dict_set k mon_name (fresh w) (procs w)
                     /\ fresh w' = S (fresh w)
                     /\ files w' !! config_path mon_name
                        = Some (dumps (config_content mon_name))
                     /\ faults w' = drop 4 (faults w)
                 | Raise e =>
                     e = OSError
                     /\ procs w' = procs w /\ fresh w' = fresh w
                     /\ launched t = []
                     /\ Forall (fun e => signalled e = None) t
                 end).
  { intros checks wa Hta Hpa Hfa Hea Hqa Hfla.
    destruct (launch_run mon_name k wa)
      as (tmp & r & w' & t & Htmp & Hrun & Ht & Hframe & Hok & Hcase).
    unfold beside_launch in Hframe. injection Hframe as Henv Hrc Hpolls Hq.
    exists r, w', t. split; [done|].
    split; [rewrite Ht, Hta; subst w0; cbn; by rewrite <- !app_assoc|].
    split; [congruence|]. split; [congruence|]. do 2 (split; [done|]).
    split; [intros H4; apply Hok; unfold no_fault in *; by rewrite Hfla|].
    destruct r as [[]|e].
    - destruct Hcase as (-> & Hp & Hfr & Hfiles & Hfl).
      split; [exists tmp; by rewrite Hea, Hfa|].
      rewrite Hp, Hfr, Hfl, Hpa, Hfa, Hfla. done.
    - destruct Hcase as (-> & Hp & Hfr & Hl & Hsig).
      rewrite Hp, Hfr. done. }
  destruct (dict_get k (procs w)) as [p|] eqn:Hget.
  - destruct (poll_cases p w0)
      as (rc & w1 & Hpoll & Ht1 & Hp1 & Hf1 & Hfr1 & He1 & Hq1 & Hfl1 & Hpolls1 & Hrc1
          & Hother1 & Hseen1).
    rewrite Hpoll. destruct rc as [c|].
    + destruct (Hlaunch [Poll p (Some c)] w1)
        as (r & w' & t & Hrun & Ht & He & Hq & Hpolls & Hrc & Hok & Hcase); try done.
      exists r, w', [Poll p (Some c)], t. split; [done|]. split; [done|].
      do 2 (split; [done|]). split; [by rewrite Hpolls|]. split.
      { exists (Some c). rewrite Hrc. do 2 (split; [done|]). done. }
      right. split; [simpl; congruence|]. done.
    + exists (Ok tt), w1, [Poll p None], []. split; [done|].
      split; [rewrite Ht1; subst w0; cbn; by rewrite <- !app_assoc|].
      do 3 (split; [done|]). split; [by exists None|].
      left. exists p. done.
  - destruct (Hlaunch [] w0)
      as (r & w' & t & Hrun & Ht & He & Hq & Hpolls & Hrc & Hok & Hcase);
      [by rewrite app_nil_r|done..|].
    exists r, w', [], t. split; [done|]. split; [done|]. do 2 (split; [done|]).
    split; [by left|]. split; [done|]. right. done.
Qed.

(** X5. What [start_waybar_for] launches. Whenever the call launches a
    process, the command line is [waybar -c <config> -s <style.css>] with
    the configuration file of the output, and that file is in place with
    the document of the output before the launch; the environment handed
    to the process is the one of the script with [WAYBAR_LOG_LEVEL] set to
    [error] unless the script's environment sets it already, in which case
    its value is kept; the environment of the script itself is not
    changed. The call then returns, having launched that one process, and
    the table holds its handle for the output, the other outputs as
    before. *)
Theorem launch_carries_config_and_environment (mon_name : json) (w w' : world)
    (r : result unit) (t : list event) (argv : list string)
    (env : list (string * string)) (p : handle) :
  start_waybar_for mon_name w = (r, w') ->
  trace w' = trace w ++ t ->
  Spawn argv env (Some p) ∈ t ->
  r = Ok tt
  /\ argv = [WAYBAR_BIN; "-c"; path_str (config_path mon_name); "-s"; path_str STYLE_CSS]
  /\ files w' !! config_path mon_name = Some (dumps (config_content mon_name))
  /\ getenv "WAYBAR_LOG_LEVEL" env
     = Some (default "error" (getenv "WAYBAR_LOG_LEVEL" (environ w)))
  /\ (forall x, x <> "WAYBAR_LOG_LEVEL" -> getenv x env = getenv x (environ w))
  /\ environ w' = environ w
  /\ launched t = [p]
  /\ exists k, hash mon_name = Ok k
       /\ dict_get k (procs w') = Some p
       /\ forall k', k' <> k -> dict_get k' (procs w') = dict_get k' (procs w).
Proof.
  intros Hrun Ht Hin.
  destruct (hash mon_name) as [k|e] eqn:Hk.
  2:{ exfalso. unfold start_waybar_for in Hrun. munfold. rewrite Hk in Hrun.
      injection Hrun as _ <-. simpl in Ht. apply app_inv_head in Ht. subst t.
      by apply list_elem_of_singleton in Hin. }
  destruct (start_waybar_for_full mon_name k w Hk)
    as (r0 & w0 & checks & t0 & Hrun0 & Ht0 & Henv & _ & _ & Hchecks & Hcase).
  rewrite Hrun in Hrun0. injection Hrun0 as <- <-.
  rewrite Ht in Ht0. apply app_inv_head in Ht0. subst t.
  assert (Hquiet : Spawn argv env (Some p) ∉ checks).
  { destruct (dict_get k (procs w)) as [q|].
    - destruct Hchecks as (rc & -> & _). by intros ?%list_elem_of_singleton.
    - destruct Hchecks as [-> _]. by intros ?%elem_of_nil. }
  apply elem_of_cons in Hin as [?|Hin]; [done|].
  apply elem_of_app in Hin as [?|Hin]; [done|].
  destruct Hcase as [(q & _ & _ & _ & -> & _)|(_ & _ & Hcase)];
    [by apply elem_of_nil in Hin|].
  destruct r as [[]|e].
  2:{ destruct Hcase as (_ & _ & _ & Hl & _). apply launched_elem in Hin.
      rewrite Hl in Hin. by apply elem_of_nil in Hin. }
  destruct Hcase as ((tmp & Htmp & ->) & Hp & Hfr & Hfiles & _).
  unfold launch_events in Hin.
  do 3 (apply elem_of_cons in Hin as [?|Hin]; [done|]).
  apply list_elem_of_singleton in Hin. injection Hin as -> -> ->.
  split; [done|]. split; [done|]. split; [done|].
  split; [apply getenv_setdefault|]. split; [intros x Hx; by apply getenv_setdefault_ne|].
  split; [done|]. split.
  { change (launched (Called_start mon_name :: ?l)) with (launched l).
    rewrite launched_app. replace (launched checks) with (@nil handle); [done|].
    destruct (dict_get k (procs w)) as [q|].
    - by destruct Hchecks as (rc & -> & _).
    - by destruct Hchecks as [-> _]. }
  exists k. split; [done|]. rewrite Hp. split.
  - by rewrite dict_get_set, decide_True.
  - intros k' Hne. by rewrite dict_get_set, decide_False.
Qed.

(** ** Shutting down *)

Lemma stopped_app (t t' : list event) : stopped (t ++ t') = stopped t ++ stopped t'.
Proof. unfold stopped. apply omap_app. Qed.

Lemma started_app (t t' : list event) : started (t ++ t') = started t ++ started t'.
Proof. unfold started. apply omap_app. Qed.

Lemma quiet_not_called (t : list event) : Forall quiet t -> stopped t = [] /\ started t = [].
Proof.
  induction 1 as [|e t He _ IH]; [done|].
  destruct e; try done; exact IH.
Qed.

Lemma stopping_launches_nothing (p : handle) (t : list event) :
  stopping p t -> launched t = [].
Proof.
  intros Hs%stopping_concerns. apply launched_supporting.
  eapply Forall_impl; [exact Hs|]. by intros [].
Qed.

Lemma shutting_facts (table : pydict handle) (t : list event) :
  shutting table t ->
  stopped t = dict_keys table /\ started t = [] /\ launched t = []
  /\ (slept t <= 1000 * N.of_nat (length table))%N
  /\ Forall (fun e => forall p, signalled e = Some p -> p ∈ map val table) t.
Proof.
  induction 1 as [|e table t1 t Hstop _ (IH1 & IH2 & IH3 & IH4 & IH5)]; [done|].
  destruct (quiet_not_called t1 (stopping_quiet _ _ Hstop)) as [Hs1 Hs2].
  split; [|split; [|split; [|split]]].
  - change (stopped (Called_stop (orig e) :: ?l)) with (orig e :: stopped l).
    rewrite stopped_app, Hs1, IH1. done.
  - change (started (Called_stop (orig e) :: ?l)) with (started l).
    rewrite started_app, Hs2, IH2. done.
  - change (launched (Called_stop (orig e) :: ?l)) with (launched l).
    rewrite launched_app, (stopping_launches_nothing _ _ Hstop), IH3. done.
  - change (slept (Called_stop (orig e) :: ?l)) with (slept l).
    rewrite slept_app. pose proof (stopping_bounded _ _ Hstop). simpl length. lia.
  - apply Forall_cons. split; [done|]. apply Forall_app. split.
    + eapply Forall_impl; [by apply stopping_concerns|].
      intros ev Hev p Hp. simpl. apply elem_of_cons. left.
      destruct ev; simpl in *; congruence.
    + eapply Forall_impl; [exact IH5|].
      intros ev Hev p Hp. simpl. apply elem_of_cons. right. by apply Hev.
Qed.

Lemma shutdown_loop (table : pydict handle) (w : world) :
  procs w = table -> keyed table ->
  exists w' t,
    for_each (dict_keys table) stop_waybar_for w = (Ok tt, w')
    /\ procs w' = []
    /\ trace w' = trace w ++ t
    /\ shutting table t
    /\ beside_processes w' = beside_processes w.
Proof.
  revert w. induction table as [|e table IH]; intros w Hp Hkeyed; simpl.
  - exists w, []. rewrite app_nil_r. do 3 (split; [done|]). split; [constructor|done].
  - destruct Hkeyed as [Hnd Hall].
    apply Forall_cons in Hall as [Hk Hall].
    destruct (stop_waybar_for_run (orig e) (canon e) w Hk) as (w1 & Hstop & Hp1 & Hcase).
    pose proof (stop_waybar_for_beside_processes (orig e) w _ w1 Hstop) as Hframe1.
    rewrite Hp in Hp1, Hcase. simpl in Hcase. rewrite decide_True in Hcase by done.
    destruct Hcase as (t1 & Ht1 & Hstop1).
    assert (Hp1' : procs w1 = table).
    { rewrite Hp1. apply (dict_pop_middle [] table e). exact Hnd. }
    destruct (IH w1 Hp1') as (w' & t & Hrun & Hp' & Ht & Hshut & Hframe).
    { split; [|done]. unfold dict_canon in *. simpl in Hnd. by apply NoDup_cons in Hnd as [_ ?]. }
    mrun. rewrite Hstop. exists w', (Called_stop (orig e) :: t1 ++ t).
    split; [done|]. split; [done|].
    split; [rewrite Ht, Ht1, <- app_assoc; done|].
    split; [by constructor|]. unfold keeps in Hframe1. congruence.
Qed.

(** X6. The signal handler stops every instance. On a table without
    duplicate keys [_shutdown] calls [stop_waybar_for] for each entry in
    table order, no stop raises, and the handler ends in [SystemExit] with
    the table empty. It starts and launches nothing and writes no file,
    sends signals only to the processes of the table, and the time it
    sleeps is at most one second per entry. *)
Theorem shutdown_stops_every_instance (w : world) :
  keyed (procs w) ->
  exists w' t,
    _shutdown w = (Ok SystemExit, w')
    /\ procs w' = []
    /\ trace w' = trace w ++ t
    /\ shutting (procs w) t
    /\ stopped t = dict_keys (procs w) /\ started t = [] /\ launched t = []
    /\ files w' = files w
    /\ (slept t <= 1000 * N.of_nat (length (procs w)))%N
    /\ Forall (fun e => forall p, signalled e = Some p -> p ∈ map val (procs w)) t.
Proof.
  intros Hkeyed.
  destruct (shutdown_loop (procs w) w eq_refl Hkeyed) as (w' & t & Hrun & Hp & Ht & Hshut & Hframe).
  destruct (shutting_facts _ _ Hshut) as (H1 & H2 & H3 & H4 & H5).
  exists w', t. unfold _shutdown. mrun. unfold gets at 1. mrun. rewrite Hrun.
  split; [done|]. do 6 (split; [done|]).
  split; [unfold beside_processes in Hframe; by injection Hframe|]. done.
Qed.

(** ** What a cycle asks the compositor *)

Lemma asked_app (t t' : list event) : asked (t ++ t') = asked t ++ asked t'.
Proof. unfold asked. apply omap_app. Qed.

Lemma asked_silent (t : list event) : Forall silent t -> asked t = [].
Proof. induction 1 as [|e t He _ IH]; [done|]. destruct e; try done; exact IH. Qed.

Lemma poll_silent (p : handle) : steps (emits silent) (poll p).
Proof. unfold poll. steps. Qed.

Lemma wait_exit_silent (n : nat) (p : handle) : steps (emits silent) (wait_exit n p).
Proof.
  induction n as [|n IH]; simpl; [steps|].
  apply steps_bind; [tc_solve|apply poll_silent|intros [c|]]; [steps|].
  apply steps_bind; [tc_solve| |by intros _]. unfold sleep. steps.
Qed.

Lemma stop_waybar_for_silent (mon_name : json) :
  steps (emits silent) (stop_waybar_for mon_name).
Proof.
  unfold stop_waybar_for, terminate, kill, fallible.
  steps; first [apply poll_silent | apply wait_exit_silent].
Qed.

Lemma start_waybar_for_silent (mon_name : json) :
  steps (emits silent) (start_waybar_for mon_name).
Proof.
  unfold start_waybar_for, ensure_monitor_config, mkdir, write_text, replace, fallible, Popen.
  steps; apply poll_silent.
Qed.

Lemma sweep_entry_silent (item : entry handle) : steps (emits silent) (sweep_entry item).
Proof. unfold sweep_entry. steps; apply poll_silent. Qed.

Lemma monitors_needing_waybar_run (w : world) :
  exists r,
    monitors_needing_waybar w
    = (r, match fst (get_monitors w) with
          | Ok _ => answered clients_args (answered monitors_args w)
          | Raise _ => answered monitors_args w
          end)
    /\ forall e, fst (get_monitors w) = Raise e -> r = Raise e.
Proof.
  unfold monitors_needing_waybar. mrun. rewrite get_monitors_eq. cbn [fst].
  destruct (if truthy (delivered (next_outcome w)) then _ else _) as [mons|e].
  - mrun. rewrite get_clients_eq. unfold lift. by eexists.
  - eexists. split; [done|]. by intros ? [= <-].
Qed.

Lemma trace_answered (args : list string) (w : world) :
  trace (answered args w) = trace w ++ [Query args (next_outcome w)].
Proof. unfold answered. by destruct (queries w). Qed.

Lemma reconcile_asks (w : world) (r : result unit) (w' : world) :
  reconcile w = (r, w') ->
  exists t, trace w' = trace w ++ t
    /\ (asked t = [monitors_args; clients_args]
        \/ (asked t = [monitors_args] /\ exists e, r = Raise e)).
Proof.
  destruct (monitors_needing_waybar_run w) as (r1 & Hprobe & Hraise).
  unfold reconcile. mrun. rewrite Hprobe.
  destruct (get_monitors w) as [[mons|e] wm] eqn:Hmons; cbn [fst] in *.
  - destruct r1 as [needed|e].
    + set (w1 := answered clients_args (answered monitors_args w)).
      intros Hrest.
      assert (Hsilent : steps (emits silent)
                (table ← gets procs;
                 for_each (dict_keys table) (stop_unneeded needed);;
                 for_each (set_order (dict_keys needed)) start_waybar_for;;
                 table' ← gets procs;
                 for_each table' sweep_entry)).
      { steps; apply for_each_steps; try tc_solve; intros x _.
        - unfold stop_unneeded. steps. apply stop_waybar_for_silent.
        - apply start_waybar_for_silent.
        - apply sweep_entry_silent. }
      destruct (Hsilent w1 r w' Hrest) as (t & Ht & Hq).
      exists ([Query monitors_args (next_outcome w);
               Query clients_args (next_outcome (answered monitors_args w))] ++ t).
      split.
      * rewrite Ht. subst w1. rewrite !trace_answered, <- !app_assoc. done.
      * left. rewrite asked_app, (asked_silent t Hq). done.
    + intros [= <- <-]. exists [Query monitors_args (next_outcome w);
                                Query clients_args (next_outcome (answered monitors_args w))].
      split; [|by left]. rewrite !trace_answered, <- !app_assoc. done.
  - rewrite (Hraise e eq_refl). intros [= <- <-].
    exists [Query monitors_args (next_outcome w)]. split; [by rewrite trace_answered|].
    right. split; [done|]. by exists e.
Qed.

(** ** The loop *)

Lemma main_cycle_run (w : world) :
  exists w' t,
    main_cycle w = (Ok tt, w')
    /\ trace w' = trace w ++ t
    /\ (asked t = [monitors_args; clients_args] \/ asked t = [monitors_args])
    /\ (500 <= slept t)%N
    /\ (forall e, fst (reconcile w) = Raise e -> 1500 <= slept t)%N.
Proof.
  unfold main_cycle. mrun. unfold try_except.
  destruct (reconcile w) as [[[]|e] w1] eqn:Hrun;
    destruct (reconcile_asks w _ w1 Hrun) as (t & Ht & Hasked).
  - rewrite sleep_spec. eexists _, (t ++ [Sleep 500]). split; [done|].
    split; [simpl; by rewrite Ht, <- app_assoc|].
    split; [|split].
    + rewrite asked_app, app_nil_r. destruct Hasked as [?|[? _]]; [by left|by right].
    + rewrite slept_app. simpl. lia.
    + by intros e.
  - rewrite !sleep_spec. unfold POLL_INTERVAL_SEC.
    eexists _, (t ++ [Sleep 1000; Sleep 500]). split; [done|].
    split; [simpl; by rewrite Ht, <- !app_assoc|].
    split; [|split].
    + rewrite asked_app, app_nil_r. destruct Hasked as [?|[? _]]; [by left|by right].
    + rewrite slept_app. simpl. lia.
    + intros _ _. rewrite slept_app. simpl. lia.
Qed.

Lemma main_loop_run (turns : nat) (w : world) :
  exists w' t,
    main_loop turns w = (Ok tt, w')
    /\ trace w' = trace w ++ t
    /\ length (List.filter (fun args => bool_decide (args = monitors_args)) (asked t)) = turns
    /\ (length (asked t) <= 2 * turns)%nat
    /\ (500 * N.of_nat turns <= slept t)%N.
Proof.
  revert w. induction turns as [|turns IH]; intros w.
  - exists w, []. rewrite app_nil_r. by repeat split.
  - destruct (main_cycle_run w) as (w1 & t1 & Hrun1 & Ht1 & Hasked & Hslept & _).
    destruct (IH w1) as (w' & t & Hrun & Ht & Hcount & Hlen & Hsl).
    exists w', (t1 ++ t). cbn [main_loop]. mrun. rewrite Hrun1.
    split; [done|]. split; [by rewrite Ht, Ht1, <- app_assoc|].
    rewrite asked_app, List.filter_app, !length_app, slept_app, Hcount.
    destruct Hasked as [-> | ->]; simpl; repeat split; lia.
Qed.

(** X7. [main] first looks for the base configuration. Without it, it
    prints its complaint and returns, the world untouched: no query, no
    process, no file. With it, the loop turns, and no turn ends it: every
    exception of a cycle is caught, so after any number of turns the loop
    is still running. Each turn asks the compositor for the monitors once
    and for the clients at most once, and sleeps at least the poll interval
    of half a second. *)
Theorem main_checks_the_base_config_and_survives_every_cycle (turns : nat) (w : world) :
  exists out w' t,
    main turns w = (Ok out, w')
    /\ trace w' = trace w ++ t
    /\ match files w !! BASE_CONFIG with
       | None =>
           out = Some ("Missing base Waybar config at " +:+ path_str BASE_CONFIG)
           /\ w' = w
       | Some _ =>
           out = None
           /\ length (List.filter (fun args => bool_decide (args = monitors_args)) (asked t))
              = turns
           /\ (length (asked t) <= 2 * turns)%nat
           /\ (500 * N.of_nat turns <= slept t)%N
       end.
Proof.
  unfold main, path_exists. mrun. unfold gets at 1.
  destruct (files w !! BASE_CONFIG) as [content|] eqn:Hbase.
  - rewrite bool_decide_eq_true_2 by (by eexists). cbn [negb].
    destruct (main_loop_run turns w) as (w' & t & Hrun & Ht & Hcount & Hlen & Hsl).
    mrun. rewrite Hrun. by exists None, w', t.
  - rewrite bool_decide_eq_false_2 by (by intros [? ?]). cbn [negb].
    eexists _, w, []. rewrite app_nil_r. done.
Qed.

(** ** Loops and the phases of a cycle *)

Lemma for_each_inv {X} (I : world -> Prop) (xs : list X) (body : X -> M unit)
    (w : world) (r : result unit) (w' : world) :
  (forall x v r' v', x ∈ xs -> I v -> body x v = (r', v') -> I v') ->
  I w -> for_each xs body w = (r, w') -> I w'.
Proof.
  revert w. induction xs as [|x xs IH]; intros w Hbody Hw; simpl.
  - by intros [= _ <-].
  - mrun. destruct (body x w) as [[[]|e] w1] eqn:Hx.
    + apply IH.
      * intros y v r' v' Hy. apply Hbody. apply elem_of_cons. by right.
      * eapply Hbody; [|exact Hw|exact Hx]. apply elem_of_cons. by left.
    + intros [= _ <-]. eapply Hbody; [|exact Hw|exact Hx]. apply elem_of_cons. by left.
Qed.

(** A cycle is the probe, then the stops, then the starts, then the sweep;
    the first of them that raises ends it. *)
Lemma reconcile_phases (w : world) (r : result unit) (w' : world) :
  reconcile w = (r, w') ->
  exists rp w1, monitors_needing_waybar w = (rp, w1)
    /\ match rp with
       | Raise e => r = Raise e /\ w' = w1
       | Ok needed =>
           exists r2 w2,
             for_each (dict_keys (procs w1)) (stop_unneeded needed) w1 = (r2, w2)
             /\ match r2 with
                | Raise e => r = Raise e /\ w' = w2
                | Ok _ =>
                    exists r3 w3,
                      for_each (set_order (dict_keys needed)) start_waybar_for w2 = (r3, w3)
                      /\ match r3 with
                         | Raise e => r = Raise e /\ w' = w3
                         | Ok _ => for_each (procs w3) sweep_entry w3 = (r, w')
                         end
                end
       end.
Proof.
  unfold reconcile. mrun.
  destruct (monitors_needing_waybar w) as [[needed|e] w1]; [|intros [= <- <-]; by eexists _, _].
  intros Hrun. eexists _, _. split; [done|].
  revert Hrun. mrun. unfold gets at 1. mrun.
  destruct (for_each (dict_keys (procs w1)) (stop_unneeded needed) w1) as [[[]|e] w2];
    [|intros [= <- <-]; by eexists _, _].
  intros Hrun. eexists _, _. split; [done|].
  revert Hrun. mrun.
  destruct (for_each (set_order (dict_keys needed)) start_waybar_for w2) as [[[]|e] w3];
    [|intros [= <- <-]; by eexists _, _].
  intros Hrun. eexists _, _. split; [done|].
  revert Hrun. mrun. unfold gets at 1. done.
Qed.

(** ** The signals of a cycle *)

Lemma dict_pop_elem {V} (k : hkey) (d : pydict V) (x : entry V) :
  x ∈ dict_pop k d -> x ∈ d /\ canon x <> k.
Proof.
  induction d as [|e d IH]; simpl; [by intros ?%elem_of_nil|].
  case_decide as He.
  - intros [Hx Hne]%IH. split; [apply elem_of_cons; by right|done].
  - intros [->|Hx]%elem_of_cons.
    + split; [apply elem_of_cons; by left|done].
    + apply IH in Hx as [Hx Hne]. split; [apply elem_of_cons; by right|done].
Qed.

#[local] Hint Extern 1 (peaceful _) => reflexivity : steps.

Lemma poll_peaceful (p : handle) : steps (emits peaceful) (poll p).
Proof. unfold poll. steps. Qed.

Lemma start_waybar_for_peaceful (mon_name : json) :
  steps (emits peaceful) (start_waybar_for mon_name).
Proof.
  unfold start_waybar_for, ensure_monitor_config, mkdir, write_text, replace, fallible, Popen.
  steps; apply poll_peaceful.
Qed.

Lemma sweep_entry_peaceful (item : entry handle) : steps (emits peaceful) (sweep_entry item).
Proof. unfold sweep_entry. steps; apply poll_peaceful. Qed.

Lemma monitors_needing_waybar_peaceful : steps (emits peaceful) monitors_needing_waybar.
Proof.
  unfold monitors_needing_waybar, get_monitors, get_clients, run_json, check_output.
  steps.
Qed.

(** The stops of a cycle send signals only to processes of entries of the
    table [table] whose output is not in [needed]. *)
Lemma stops_signal_the_undesired (needed : pyset) (table : pydict handle)
    (xs : list json) (w : world) (r : result unit) (w' : world) :
  keyed (procs w) -> (forall e, e ∈ procs w -> e ∈ table) ->
  for_each xs (stop_unneeded needed) w = (r, w') ->
  keyed (procs w') /\ (forall e, e ∈ procs w' -> e ∈ table)
  /\ exists t, trace w' = trace w ++ t
       /\ Forall (fun ev => forall p, signalled ev = Some p ->
                    exists e, e ∈ table /\ val e = p
                              /\ set_mem (canon e) needed = false) t.
Proof.
  intros Hkeyed Hsub Hrun.
  set (Q := fun ev => forall p, signalled ev = Some p ->
                exists e, e ∈ table /\ val e = p /\ set_mem (canon e) needed = false).
  apply (for_each_inv
           (fun v => keyed (procs v) /\ (forall e, e ∈ procs v -> e ∈ table)
                     /\ exists t, trace v = trace w ++ t /\ Forall Q t)
           xs (stop_unneeded needed) w r w'); [| |exact Hrun].
  2:{ do 2 (split; [done|]). exists []. by rewrite app_nil_r. }
  clear Hrun. intros x v r' v' _ (Hk & Hs & t & Ht & HQ). unfold stop_unneeded. mrun.
  unfold lift at 1. destruct (hash x) as [k|e] eqn:Hx.
  2:{ intros [= _ <-]. do 2 (split; [done|]). by exists t. }
  destruct (set_mem k needed) eqn:Hmem.
  { intros [= _ <-]. do 2 (split; [done|]). by exists t. }
  destruct (stop_waybar_for_run x k v Hx) as (v1 & Hstop & Hp1 & Hcase).
  rewrite Hstop. intros [= _ <-]. rewrite Hp1.
  split; [by apply keyed_pop|]. split.
  { intros e [He _]%dict_pop_elem. by apply Hs. }
  destruct (dict_get k (procs v)) as [p|] eqn:Hget.
  - destruct Hcase as (t1 & Ht1 & Hstopping).
    exists (t ++ Called_stop x :: t1). split; [by rewrite Ht1, Ht, <- app_assoc|].
    apply Forall_app. split; [done|]. apply Forall_cons. split; [done|].
    apply dict_get_Some in Hget as (e & He & Hce & Hve).
    eapply Forall_impl; [by apply stopping_concerns|].
    intros ev Hev q Hq. exists e. split; [by apply Hs|]. split; [|by rewrite Hce].
    destruct ev; simpl in *; congruence.
  - exists (t ++ [Called_stop x]). rewrite Hcase. simpl. rewrite Ht, <- app_assoc.
    split; [done|]. apply Forall_app. split; [done|]. by repeat constructor.
Qed.

(** X8. A cycle sends signals to the undesired only. Every process that
    [reconcile] asks to terminate or kills is the process of an entry the
    table held at the start of the cycle for an output that is not in the
    desired set of the cycle; the instance of a desired output is never
    signalled. *)
Theorem only_undesired_instances_are_signalled (w w1 w' : world) (needed : pyset)
    (r : result unit) :
  keyed (procs w) ->
  monitors_needing_waybar w = (Ok needed, w1) ->
  reconcile w = (r, w') ->
  exists t, trace w' = trace w ++ t
    /\ forall ev p, ev ∈ t -> signalled ev = Some p ->
         exists e, e ∈ procs w /\ val e = p /\ set_mem (canon e) needed = false.
Proof.
  intros Hkeyed Hprobe Hrun.
  set (Q := fun ev => forall p, signalled ev = Some p ->
                exists e, e ∈ procs w /\ val e = p /\ set_mem (canon e) needed = false).
  assert (Hpeace : forall ev, peaceful ev -> Q ev).
  { intros ev Hev p Hp. unfold peaceful in Hev. congruence. }
  assert (Hall : exists t, trace w' = trace w ++ t /\ Forall Q t).
  { destruct (reconcile_phases w r w' Hrun) as (rp & w1' & Hprobe' & Hrest).
    rewrite Hprobe in Hprobe'. injection Hprobe' as <- <-.
    destruct (monitors_needing_waybar_peaceful w _ w1 Hprobe) as (t0 & Ht0 & Hq0).
    pose proof (monitors_needing_waybar_table w _ w1 Hprobe) as Hp1. unfold same_table in Hp1.
    destruct Hrest as (r2 & w2 & Hstops & Hrest).
    destruct (stops_signal_the_undesired needed (procs w) (dict_keys (procs w1)) w1 r2 w2)
      as (_ & _ & t2 & Ht2 & Hq2); [by rewrite Hp1|by rewrite Hp1|exact Hstops|].
    assert (H02 : Forall Q (t0 ++ t2)).
    { apply Forall_app. split; [|done]. eapply Forall_impl; [exact Hq0|exact Hpeace]. }
    destruct r2 as [[]|e2].
    2:{ destruct Hrest as [_ ->]. exists (t0 ++ t2). split; [|done].
        by rewrite Ht2, Ht0, <- app_assoc. }
    destruct Hrest as (r3 & w3 & Hstarts & Hrest).
    assert (Hs3 : steps (emits peaceful)
                    (for_each (set_order (dict_keys needed)) start_waybar_for)).
    { apply for_each_steps; [tc_solve|]. intros x _. apply start_waybar_for_peaceful. }
    destruct (Hs3 w2 r3 w3 Hstarts) as (t3 & Ht3 & Hq3).
    assert (H03 : Forall Q ((t0 ++ t2) ++ t3)).
    { apply Forall_app. split; [done|]. eapply Forall_impl; [exact Hq3|exact Hpeace]. }
    destruct r3 as [[]|e3].
    2:{ destruct Hrest as [_ ->]. exists ((t0 ++ t2) ++ t3). split; [|done].
        by rewrite Ht3, Ht2, Ht0, <- !app_assoc. }
    assert (Hs4 : steps (emits peaceful) (for_each (procs w3) sweep_entry)).
    { apply for_each_steps; [tc_solve|]. intros x _. apply sweep_entry_peaceful. }
    destruct (Hs4 w3 r w' Hrest) as (t4 & Ht4 & Hq4).
    exists (((t0 ++ t2) ++ t3) ++ t4). split; [by rewrite Ht4, Ht3, Ht2, Ht0, <- !app_assoc|].
    apply Forall_app. split; [done|]. eapply Forall_impl; [exact Hq4|exact Hpeace]. }
  destruct Hall as (t & Ht & HQ). exists t. split; [done|].
  intros ev p Hev. by apply (proj1 (Forall_forall _ _) HQ).
Qed.

(** ** The instance of a desired output *)

Global Instance remembers_preorder : PreOrder remembers.
Proof.
  split; [by intros w p c|]. intros w1 w2 w3 H12 H23 p c Hp. by apply H23, H12.
Qed.

#[local] Hint Extern 1 (remembers _ _) => (intros ? ? ?; assumption) : steps.
#[local] Hint Extern 1 (steps remembers (log _)) =>
  apply steps_modify; intros; intros ? ? ?; assumption : steps.

Lemma poll_remembers (p : handle) : steps remembers (poll p).
Proof.
  intros w r w'. rewrite poll_unfold.
  destruct (returncode w !! p) as [c|] eqn:Hc; [|destruct (polls w) as [|[c|] rest]];
    intros [= _ <-] q d; simpl; try done.
  intros Hq. rewrite lookup_insert_ne; [done|]. intros <-. congruence.
Qed.

Lemma wait_exit_remembers (n : nat) (p : handle) : steps remembers (wait_exit n p).
Proof.
  induction n as [|n IH]; simpl; [steps|].
  apply steps_bind; [tc_solve|apply poll_remembers|intros [c|]]; [steps|].
  apply steps_bind; [tc_solve| |by intros _]. unfold sleep. steps.
Qed.

Lemma stop_waybar_for_remembers (mon_name : json) :
  steps remembers (stop_waybar_for mon_name).
Proof.
  unfold stop_waybar_for, terminate, kill, fallible.
  steps; first [apply poll_remembers | apply wait_exit_remembers].
Qed.

Lemma start_waybar_for_remembers (mon_name : json) :
  steps remembers (start_waybar_for mon_name).
Proof.
  unfold start_waybar_for, ensure_monitor_config, mkdir, write_text, replace, fallible, Popen.
  steps; apply poll_remembers.
Qed.

(** The entry of the key [k] holds the handle [p], or [p] has been seen
    exited. *)
Local Abbreviation kept_or_exited k p v :=
  (dict_get k (procs v) = Some p \/ is_Some (returncode v !! p)).

Lemma kept_or_exited_remembers (k : hkey) (p : handle) (v v' : world) :
  remembers v v' -> procs v' = procs v -> kept_or_exited k p v -> kept_or_exited k p v'.
Proof.
  intros Hrem Hp [Hget|[c Hc]]; [left; by rewrite Hp|right]. exists c. by apply Hrem.
Qed.

Lemma stop_unneeded_keeps_desired (needed : pyset) (k : hkey) (p : handle) (x : json)
    (v : world) (r : result unit) (v' : world) :
  set_mem k needed = true ->
  stop_unneeded needed x v = (r, v') ->
  keyed (procs v) /\ kept_or_exited k p v ->
  keyed (procs v') /\ kept_or_exited k p v'.
Proof.
  intros Hmem Hrun [Hkeyed Hinv]. unfold stop_unneeded in Hrun. revert Hrun. mrun.
  unfold lift at 1. destruct (hash x) as [k'|e] eqn:Hx; [|by intros [= _ <-]].
  destruct (set_mem k' needed) eqn:Hmem'; [by intros [= _ <-]|].
  intros Hrun. pose proof (stop_waybar_for_remembers x v r v' Hrun) as Hrem.
  destruct (stop_waybar_for_run x k' v Hx) as (v1 & Hstop & Hp1 & _).
  rewrite Hrun in Hstop. injection Hstop as _ <-. rewrite Hp1.
  split; [by apply keyed_pop|].
  destruct Hinv as [Hget|[c Hc]]; [left|right; exists c; by apply Hrem].
  rewrite dict_get_pop, decide_False; [done|]. intros <-. congruence.
Qed.

Lemma start_keeps_desired (k : hkey) (p : handle) (x : json)
    (v : world) (r : result unit) (v' : world) :
  start_waybar_for x v = (r, v') ->
  keyed (procs v) /\ kept_or_exited k p v ->
  keyed (procs v') /\ kept_or_exited k p v'.
Proof.
  intros Hrun [Hkeyed Hinv].
  pose proof (start_waybar_for_remembers x v r v' Hrun) as Hrem.
  destruct (hash x) as [k'|e] eqn:Hx.
  2:{ unfold start_waybar_for in Hrun. munfold. rewrite Hx in Hrun. injection Hrun as _ <-.
      done. }
  destruct (start_waybar_for_full x k' v Hx)
    as (r0 & v0 & checks & t & Hrun0 & _ & _ & _ & _ & Hchecks & Hcase).
  rewrite Hrun in Hrun0. injection Hrun0 as <- <-.
  destruct Hcase as [(q & _ & _ & _ & _ & Hp & _)|(Hne & _ & Hcase)].
  { split; [by rewrite Hp|]. by apply (kept_or_exited_remembers k p v). }
  destruct r as [[]|e].
  2:{ destruct Hcase as (_ & Hp & _). split; [by rewrite Hp|].
      by apply (kept_or_exited_remembers k p v). }
  destruct Hcase as (_ & Hp & _). rewrite Hp. split; [by apply keyed_set|].
  destruct Hinv as [Hget|[c Hc]]; [|right; exists c; by apply Hrem].
  destruct (decide (k' = k)) as [->|Hk'].
  - right. rewrite Hget in Hchecks, Hne. simpl in Hne.
    destruct Hchecks as (rc & -> & Hrc & _). destruct rc as [c|]; [|done].
    by exists c.
  - left. by rewrite dict_get_set, decide_False.
Qed.

Lemma sweep_keeps_desired (k : hkey) (p : handle) (snapshot : pydict handle)
    (item : entry handle) (v : world) (r : result unit) (v' : world) :
  item ∈ snapshot ->
  Forall (fun e => hash (orig e) = Ok (canon e)) snapshot ->
  sweep_entry item v = (r, v') ->
  let agrees v := forall e, e ∈ snapshot ->
                    dict_get (canon e) (procs v) = Some (val e)
                    \/ dict_get (canon e) (procs v) = None in
  keyed (procs v) /\ kept_or_exited k p v /\ agrees v ->
  keyed (procs v') /\ kept_or_exited k p v' /\ agrees v'.
Proof.
  intros Hin Hhash Hrun agrees (Hkeyed & Hinv & Hagree).
  assert (Hk : hash (orig item) = Ok (canon item))
    by (by apply (proj1 (Forall_forall _ _) Hhash)).
  unfold sweep_entry in Hrun. revert Hrun. mrun.
  destruct (poll p v) as [rp vp] eqn:Hdummy. clear Hdummy rp vp.
  destruct (poll_cases (val item) v)
    as (rc & v1 & Hpoll & _ & Hp1 & _ & _ & _ & _ & _ & _ & Hrc1 & _).
  pose proof (poll_remembers (val item) v _ v1 Hpoll) as Hrem.
  rewrite Hpoll. destruct rc as [c|].
  - mrun. unfold lift at 1. rewrite Hk. intros [= _ <-]. simpl. rewrite Hp1.
    split; [by apply keyed_pop|]. split.
    + destruct Hinv as [Hget|[d Hd]]; [|right; exists d; by apply Hrem].
      destruct (decide (canon item = k)) as [Heq|Hne].
      * right. destruct (Hagree item Hin) as [Hsome|Hnone]; rewrite Heq in *; [|congruence].
        assert (p = val item) as -> by congruence. by exists c.
      * left. by rewrite dict_get_pop, decide_False.
    + intros e He. simpl. rewrite Hp1, dict_get_pop.
      case_decide; [by right|by apply Hagree].
  - intros [= _ <-]. split; [by rewrite Hp1|]. split.
    + by apply (kept_or_exited_remembers k p v).
    + intros e He. rewrite Hp1. by apply Hagree.
Qed.

(** X9. A cycle keeps the instance of a desired output. If the table
    holds the handle [p] for an output at the start of a cycle and the
    output is in the desired set of the cycle, then at the end of the
    cycle, however it ends, the table still holds [p] for the output,
    unless the process has been seen exited: a running instance of a
    desired output is never replaced. *)
Theorem instance_of_a_desired_output_is_kept (w w1 w' : world) (needed : pyset)
    (r : result unit) (k : hkey) (p : handle) :
  keyed (procs w) ->
  monitors_needing_waybar w = (Ok needed, w1) ->
  reconcile w = (r, w') ->
  dict_get k (procs w) = Some p ->
  set_mem k needed = true ->
  dict_get k (procs w') = Some p \/ is_Some (returncode w' !! p).
Proof.
  intros Hkeyed Hprobe Hrun Hget Hmem.
  destruct (reconcile_phases w r w' Hrun) as (rp & w1' & Hprobe' & Hrest).
  rewrite Hprobe in Hprobe'. injection Hprobe' as <- <-.
  pose proof (monitors_needing_waybar_table w _ w1 Hprobe) as Hp1. unfold same_table in Hp1.
  assert (H1 : keyed (procs w1) /\ kept_or_exited k p w1).
  { rewrite Hp1. split; [done|by left]. }
  destruct Hrest as (r2 & w2 & Hstops & Hrest).
  assert (H2 : keyed (procs w2) /\ kept_or_exited k p w2).
  { refine (for_each_inv (fun v => keyed (procs v) /\ kept_or_exited k p v)
              _ _ w1 r2 w2 _ H1 Hstops).
    intros x v r' v' _ Hv Hx. by apply (stop_unneeded_keeps_desired needed k p x v r' v'). }
  destruct r2 as [[]|e2]; [|destruct Hrest as [_ ->]; by destruct H2].
  destruct Hrest as (r3 & w3 & Hstarts & Hrest).
  assert (H3 : keyed (procs w3) /\ kept_or_exited k p w3).
  { refine (for_each_inv (fun v => keyed (procs v) /\ kept_or_exited k p v)
              _ _ w2 r3 w3 _ H2 Hstarts).
    intros x v r' v' _ Hv Hx. by apply (start_keeps_desired k p x v r' v'). }
  destruct r3 as [[]|e3]; [|destruct Hrest as [_ ->]; by destruct H3].
  destruct H3 as [Hk3 Hinv3].
  set (agrees := fun v : world => forall e, e ∈ procs w3 ->
                   dict_get (canon e) (procs v) = Some (val e)
                   \/ dict_get (canon e) (procs v) = None).
  assert (H4 : keyed (procs w') /\ kept_or_exited k p w' /\ agrees w').
  { refine (for_each_inv (fun v => keyed (procs v) /\ kept_or_exited k p v /\ agrees v)
              _ _ w3 r w' _ _ Hrest).
    - intros x v r' v' Hx Hv Hsweep.
      apply (sweep_keeps_desired k p (procs w3) x v r' v'); try done. by destruct Hk3.
    - split; [done|]. split; [done|]. intros e He. left. apply dict_get_elem; [|done].
      by destruct Hk3. }
  by destruct H4 as (_ & ? & _).
Qed.

(** ** The handles of the table, and the sweep *)

Lemma dict_pop_vals {V} (k : hkey) (d : pydict V) (P : V -> Prop) :
  NoDup (map val d) -> Forall (fun e => P (val e)) d ->
  NoDup (map val (dict_pop k d)) /\ Forall (fun e => P (val e)) (dict_pop k d).
Proof.
  induction d as [|e d IH]; simpl; [done|].
  intros [Hnot Hnd]%NoDup_cons [He Hd]%Forall_cons.
  destruct (IH Hnd Hd) as [IH1 IH2]. case_decide; [done|]. simpl. split.
  - apply NoDup_cons. split; [|done]. intros (x & Hx & Hin)%list_elem_of_fmap.
    apply Hnot. apply list_elem_of_fmap. exists x. split; [done|].
    by apply dict_pop_elem in Hin as [? _].
  - by constructor.
Qed.

Lemma dict_set_elem {V} (k : hkey) (o : json) (v : V) (d : pydict V) (x : entry V) :
  x ∈ dict_set k o v d -> x ∈ d \/ val x = v.
Proof.
  induction d as [|e d IH]; simpl.
  - intros ->%list_elem_of_singleton. by right.
  - case_decide.
    + intros [->|Hx]%elem_of_cons; [by right|]. left. apply elem_of_cons. by right.
    + intros [->|Hx]%elem_of_cons; [left; apply elem_of_cons; by left|].
      apply IH in Hx as [Hx|Hx]; [|by right]. left. apply elem_of_cons. by right.
Qed.

Lemma dict_set_vals {V} (k : hkey) (o : json) (v : V) (d : pydict V) (P : V -> Prop) :
  NoDup (map val d) -> Forall (fun e => P (val e) /\ val e <> v) d -> P v ->
  NoDup (map val (dict_set k o v d)) /\ Forall (fun e => P (val e)) (dict_set k o v d).
Proof.
  intros Hnd Hall Hv. induction d as [|e d IH]; simpl.
  - split; [apply NoDup_singleton|by repeat constructor].
  - apply NoDup_cons in Hnd as [Hnot Hnd]. apply Forall_cons in Hall as [[He Hne] Hd].
    case_decide; simpl.
    + split.
      * apply NoDup_cons. split; [|done]. intros (x & Hx & Hin)%list_elem_of_fmap.
        apply (proj1 (Forall_forall _ _) Hd) in Hin as [_ Hin]. congruence.
      * constructor; [done|]. eapply Forall_impl; [exact Hd|]. by intros x [? _].
    + destruct (IH Hnd Hd) as [IH1 IH2]. split; [|by constructor].
      apply NoDup_cons. split; [|done]. intros (x & Hx & Hin)%list_elem_of_fmap.
      apply dict_set_elem in Hin as [Hin|Hin]; [|congruence].
      apply Hnot. apply list_elem_of_fmap. by exists x.
Qed.

Lemma handles_ok_pop (k : hkey) (v v' : world) :
  procs v' = dict_pop k (procs v) -> fresh v' = fresh v -> handles_ok v -> handles_ok v'.
Proof.
  intros Hp Hf [Hnd Hall]. unfold handles_ok. rewrite Hp, Hf.
  by apply (dict_pop_vals k (procs v) (fun p => (p < fresh v)%nat)).
Qed.

Lemma handles_ok_same (v v' : world) :
  procs v' = procs v -> fresh v' = fresh v -> handles_ok v -> handles_ok v'.
Proof. intros Hp Hf. unfold handles_ok. by rewrite Hp, Hf. Qed.

Lemma stop_unneeded_handles (needed : pyset) (x : json)
    (v : world) (r : result unit) (v' : world) :
  stop_unneeded needed x v = (r, v') ->
  keyed (procs v) /\ handles_ok v -> keyed (procs v') /\ handles_ok v'.
Proof.
  intros Hrun [Hkeyed Hok]. unfold stop_unneeded in Hrun. revert Hrun. mrun.
  unfold lift at 1. destruct (hash x) as [k'|e] eqn:Hx; [|by intros [= _ <-]].
  destruct (set_mem k' needed); [by intros [= _ <-]|].
  intros Hrun. pose proof (stop_waybar_for_beside_processes x v r v' Hrun) as Hframe.
  unfold keeps, beside_processes in Hframe. injection Hframe as _ Hfresh _ _.
  destruct (stop_waybar_for_run x k' v Hx) as (v1 & Hstop & Hp1 & _).
  rewrite Hrun in Hstop. injection Hstop as _ <-.
  split; [rewrite Hp1; by apply keyed_pop|]. by apply (handles_ok_pop k' v).
Qed.

Lemma start_handles (x : json) (v : world) (r : result unit) (v' : world) :
  start_waybar_for x v = (r, v') ->
  keyed (procs v) /\ handles_ok v -> keyed (procs v') /\ handles_ok v'.
Proof.
  intros Hrun [Hkeyed Hok].
  destruct (hash x) as [k'|e] eqn:Hx.
  2:{ unfold start_waybar_for in Hrun. munfold. rewrite Hx in Hrun. injection Hrun as _ <-.
      done. }
  destruct (start_waybar_for_full x k' v Hx)
    as (r0 & v0 & checks & t & Hrun0 & _ & _ & _ & _ & _ & Hcase).
  rewrite Hrun in Hrun0. injection Hrun0 as <- <-.
  destruct Hcase as [(q & _ & _ & _ & _ & Hp & _ & Hf & _)|(_ & _ & Hcase)].
  { split; [by rewrite Hp|]. by apply (handles_ok_same v). }
  destruct r as [[]|e].
  2:{ destruct Hcase as (_ & Hp & Hf & _). split; [by rewrite Hp|].
      by apply (handles_ok_same v). }
  destruct Hcase as (_ & Hp & Hf & _). split; [rewrite Hp; by apply keyed_set|].
  destruct Hok as [Hnd Hall]. unfold handles_ok. rewrite Hp, Hf.
  apply (dict_set_vals k' x (fresh v) (procs v) (fun p => (p < S (fresh v))%nat)); [done| |lia].
  eapply Forall_impl; [exact Hall|]. intros e He. simpl in *. unfold handle in *. lia.
Qed.

Lemma sweep_entry_handles (item : entry handle) (v : world) (r : result unit) (v' : world) :
  sweep_entry item v = (r, v') ->
  keyed (procs v) /\ handles_ok v -> keyed (procs v') /\ handles_ok v'.
Proof.
  intros Hrun [Hkeyed Hok]. unfold sweep_entry in Hrun. revert Hrun. mrun.
  destruct (poll_cases (val item) v)
    as (rc & v1 & Hpoll & _ & Hp1 & _ & Hf1 & _).
  rewrite Hpoll. destruct rc as [c|].
  - mrun. unfold lift at 1. destruct (hash (orig item)) as [k|e].
    + intros [= _ <-]. simpl. rewrite Hp1. split; [by apply keyed_pop|].
      apply (handles_ok_pop k v); simpl; congruence.
    + intros [= _ <-]. split; [by rewrite Hp1|]. by apply (handles_ok_same v).
  - intros [= _ <-]. split; [by rewrite Hp1|]. by apply (handles_ok_same v).
Qed.

(** The sweep over the entries [l], whose handles are distinct: it never
    raises, removes entries only, and an entry of [l] that is still in the
    table after it was found running. *)
Lemma sweep_leaves_the_running (l : pydict handle) (w : world) :
  Forall (fun e => hash (orig e) = Ok (canon e)) l ->
  NoDup (map val l) ->
  exists w',
    for_each l sweep_entry w = (Ok tt, w')
    /\ (forall e, e ∈ procs w' -> e ∈ procs w)
    /\ (forall e, e ∈ l -> e ∈ procs w' -> returncode w' !! val e = None)
    /\ (forall q, q ∉ map val l -> returncode w' !! q = returncode w !! q).
Proof.
  intros Hall. revert w. induction Hall as [|e l Hk _ IH]; intros w Hnd; simpl.
  - exists w. split; [done|]. split; [done|]. split; [by intros e ?%elem_of_nil|done].
  - apply NoDup_cons in Hnd as [Hnot Hnd].
    destruct (poll_cases (val e) w)
      as (rc & w1 & Hpoll & _ & Hp1 & _ & _ & _ & _ & _ & _ & Hrc1 & Hother1 & _).
    mrun. unfold sweep_entry at 1. mrun. rewrite Hpoll.
    set (w2 := match rc with
               | Some _ => set_procs (dict_pop (canon e)) w1
               | None => w1
               end).
    assert (Hstep : (match rc with
                     | Some _ => k ← lift (hash (orig e)); modify (set_procs (dict_pop k))
                     | None => mret ()
                     end) w1 = (Ok tt, w2)).
    { subst w2. destruct rc; [|done]. mrun. unfold lift. by rewrite Hk. }
    rewrite Hstep.
    assert (Hrc2 : returncode w2 = returncode w1) by (subst w2; by destruct rc).
    assert (Hsub2 : forall x, x ∈ procs w2 -> x ∈ procs w).
    { intros x. subst w2. destruct rc; simpl; rewrite Hp1; [|done].
      by intros [? _]%dict_pop_elem. }
    destruct (IH w2 Hnd) as (w' & Hrun & Hsub & Hrunning & Hother).
    exists w'. split; [done|]. split; [intros x Hx; by apply Hsub2, Hsub|]. split.
    + intros x [->|Hx]%elem_of_cons Hx'; [|by apply Hrunning].
      rewrite (Hother (val e) Hnot), Hrc2, Hrc1.
      destruct rc as [c|]; [|done]. exfalso.
      apply Hsub in Hx'. subst w2. simpl in Hx'. by apply dict_pop_elem in Hx' as [_ ?].
    + intros q Hq. rewrite Hother, Hrc2.
      * apply Hother1. intros ->. apply Hq. apply elem_of_cons. by left.
      * intros Hin. apply Hq. apply elem_of_cons. by right.
Qed.

Lemma monitors_needing_waybar_beside_queries :
  steps (keeps beside_queries) monitors_needing_waybar.
Proof.
  unfold monitors_needing_waybar, get_monitors, get_clients, run_json, check_output.
  steps.
Qed.

(** X10. The sweep leaves no instance behind that is known to have exited.
    Let no two entries of the table share a handle, each handle the result
    of an earlier launch. A cycle keeps this so, however it ends; and when
    the cycle returns, every entry that is left in the table is of a
    process that the sweep found running: no entry is of a process seen
    exited. *)
Theorem completed_cycle_leaves_no_exited_instance (w w' : world) (r : result unit) :
  keyed (procs w) ->
  handles_ok w ->
  reconcile w = (r, w') ->
  keyed (procs w') /\ handles_ok w'
  /\ (r = Ok tt -> forall e, e ∈ procs w' -> returncode w' !! val e = None).
Proof.
  intros Hkeyed Hok Hrun.
  destruct (reconcile_phases w r w' Hrun) as (rp & w1 & Hprobe & Hrest).
  pose proof (monitors_needing_waybar_beside_queries w _ w1 Hprobe) as Hframe.
  unfold keeps, beside_queries in Hframe. injection Hframe as Hp1 _ Hf1 _ _ _ _.
  assert (H1 : keyed (procs w1) /\ handles_ok w1).
  { split; [by rewrite Hp1|]. by apply (handles_ok_same w). }
  destruct rp as [needed|e]; [|destruct Hrest as [-> ->]; by destruct H1].
  destruct Hrest as (r2 & w2 & Hstops & Hrest).
  assert (H2 : keyed (procs w2) /\ handles_ok w2).
  { refine (for_each_inv (fun v => keyed (procs v) /\ handles_ok v) _ _ w1 r2 w2 _ H1 Hstops).
    intros x v r' v' _ Hv Hx. by apply (stop_unneeded_handles needed x v r' v'). }
  destruct r2 as [[]|e2]; [|destruct Hrest as [-> ->]; by destruct H2].
  destruct Hrest as (r3 & w3 & Hstarts & Hrest).
  assert (H3 : keyed (procs w3) /\ handles_ok w3).
  { refine (for_each_inv (fun v => keyed (procs v) /\ handles_ok v) _ _ w2 r3 w3 _ H2 Hstarts).
    intros x v r' v' _ Hv Hx. by apply (start_handles x v r' v'). }
  destruct r3 as [[]|e3]; [|destruct Hrest as [-> ->]; by destruct H3].
  assert (H4 : keyed (procs w') /\ handles_ok w').
  { refine (for_each_inv (fun v => keyed (procs v) /\ handles_ok v) _ _ w3 r w' _ H3 Hrest).
    intros x v r' v' _ Hv Hx. by apply (sweep_entry_handles x v r' v'). }
  destruct H4 as [Hk4 Hok4]. do 2 (split; [done|]). intros _ e He.
  destruct H3 as [[_ Hhash3] [Hnd3 _]].
  destruct (sweep_leaves_the_running (procs w3) w3 Hhash3 Hnd3)
    as (w4 & Hsweep & Hsub & Hrunning & _).
  rewrite Hrest in Hsweep. injection Hsweep as _ <-.
  apply Hrunning; [by apply Hsub|done].
Qed.

(** ** A host on which all goes well *)

Global Instance calm_preorder : PreOrder calm.
Proof.
  split; [by intros w ? ?|]. intros w1 w2 w3 H12 H23 Hf Hp.
  destruct (H12 Hf Hp) as (Hf2 & Hp2 & Hrc2). destruct (H23 Hf2 Hp2) as (Hf3 & Hp3 & Hrc3).
  repeat split; [done..|congruence].
Qed.

Lemma next_fault_calm : steps calm next_fault.
Proof.
  intros w r w'. unfold next_fault. destruct (faults w) as [|b rest] eqn:Hf.
  - by intros [= _ <-] ? ?.
  - intros [= _ <-] Hall Hp. simpl. rewrite Hf in Hall. by apply Forall_cons in Hall as [_ ?].
Qed.

Lemma poll_calm (p : handle) : steps calm (poll p).
Proof.
  intros w r w'. rewrite poll_unfold.
  destruct (returncode w !! p) as [c|]; [by intros [= _ <-] ? ?|].
  destruct (polls w) as [|[c|] rest] eqn:Hpolls; intros [= _ <-] Hf Hp; simpl; try done;
    rewrite Hpolls in Hp.
  - by apply Forall_cons in Hp as [? _].
  - by apply Forall_cons in Hp as [_ ?].
Qed.

#[local] Hint Resolve next_fault_calm poll_calm : steps.
#[local] Hint Extern 1 (calm _ _) => (intros ? ?; done) : steps.
#[local] Hint Extern 1 (steps calm (log _)) =>
  apply steps_modify; intros; intros ? ?; done : steps.

Lemma wait_exit_calm (n : nat) (p : handle) : steps calm (wait_exit n p).
Proof.
  induction n as [|n IH]; simpl; [steps|].
  apply steps_bind; [tc_solve|apply poll_calm|intros [c|]]; [steps|].
  apply steps_bind; [tc_solve| |by intros _]. unfold sleep. steps.
Qed.

Lemma stop_waybar_for_calm (mon_name : json) : steps calm (stop_waybar_for mon_name).
Proof.
  unfold stop_waybar_for, terminate, kill, fallible.
  steps; apply wait_exit_calm.
Qed.

Lemma start_waybar_for_calm (mon_name : json) : steps calm (start_waybar_for mon_name).
Proof.
  unfold start_waybar_for, ensure_monitor_config, mkdir, write_text, replace, fallible, Popen.
  steps.
Qed.

Lemma monitors_needing_waybar_calm : steps calm monitors_needing_waybar.
Proof.
  unfold monitors_needing_waybar, get_monitors, get_clients, run_json, check_output.
  steps.
Qed.

Lemma cooperative_next (v v' : world) :
  cooperative v -> calm v v' -> (fresh v <= fresh v')%nat ->
  (forall e, e ∈ procs v' -> e ∈ procs v \/ val e = fresh v) ->
  cooperative v'.
Proof.
  intros (Hf & Hp & Hseen) Hcalm Hfresh Hsub.
  destruct (Hcalm Hf Hp) as (Hf' & Hp' & Hrc). do 2 (split; [done|]).
  intros p Hsome. rewrite Hrc in Hsome. destruct (Hseen p Hsome) as [Hlt Hnot].
  split; [lia|]. intros (e & -> & He)%list_elem_of_fmap.
  destruct (Hsub e He) as [Hin|Heq]; [|unfold handle in *; lia].
  apply Hnot. apply list_elem_of_fmap. by exists e.
Qed.

Lemma cooperative_running (v : world) (k : hkey) (p : handle) :
  cooperative v -> dict_get k (procs v) = Some p -> returncode v !! p = None.
Proof.
  intros (_ & _ & Hseen) (e & He & _ & <-)%dict_get_Some.
  destruct (returncode v !! val e) as [c|] eqn:Hc; [|done].
  destruct (Hseen (val e)) as [_ Hnot]; [by eexists|].
  exfalso. apply Hnot. apply list_elem_of_fmap. by exists e.
Qed.

Lemma dict_set_absent {V} (k : hkey) (o : json) (v : V) (d : pydict V) :
  dict_get k d = None -> dict_set k o v d = d ++ [Entry k o v].
Proof.
  induction d as [|e d IH]; simpl; [done|]. case_decide; [done|]. intros Hd. by rewrite IH.
Qed.

(** [start_waybar_for] on a host on which all goes well: a no-op for an
    output with an entry, one launch and a new last entry otherwise. *)
Lemma start_cooperative (x : json) (k : hkey) (v : world) :
  hash x = Ok k -> cooperative v ->
  exists v' t,
    start_waybar_for x v = (Ok tt, v')
    /\ cooperative v'
    /\ trace v' = trace v ++ t
    /\ match dict_get k (procs v) with
       | Some p =>
           t = [Called_start x; Poll p None]
           /\ procs v' = procs v /\ files v' = files v /\ fresh v' = fresh v
           /\ faults v' = faults v
       | None =>
           procs v' = procs v ++ [Entry k x (fresh v)]
           /\ launched t = [fresh v] /\ stopped t = [] /\ Forall peaceful t
       end.
Proof.
  intros Hx Hcoop.
  destruct (start_waybar_for_full x k v Hx)
    as (r & v' & checks & t & Hrun & Ht & _ & _ & _ & Hchecks & Hcase).
  pose proof (start_waybar_for_calm x v r v' Hrun) as Hcalm.
  destruct (dict_get k (procs v)) as [p|] eqn:Hget.
  - destruct Hchecks as (rc & -> & _ & _ & Hseen).
    assert (rc = None) as ->.
    { destruct rc as [c|]; [|done]. exfalso. destruct Hseen as [Hc|Hc].
      - by rewrite (cooperative_running v k p Hcoop Hget) in Hc.
      - destruct Hcoop as (_ & Hp & _). destruct (polls v) as [|a rest]; [done|].
        apply Forall_cons in Hp as [-> _]. done. }
    destruct Hcase as [(q & _ & _ & -> & -> & Hp & Hf & Hfr & Hfl)|(Hne & _)]; [|done].
    exists v', [Called_start x; Poll p None]. split; [done|]. split.
    { apply (cooperative_next v); [done|done|lia|]. intros e. rewrite Hp. by left. }
    by rewrite Ht.
  - destruct Hchecks as [-> _].
    destruct Hcase as [(q & ? & _)|(_ & Hok & Hcase)]; [done|].
    assert (r = Ok tt) as ->.
    { apply Hok. destruct Hcoop as (Hf & _). by apply Forall_take. }
    destruct Hcase as ((tmp & Htmp & ->) & Hp & Hfr & _).
    rewrite dict_set_absent in Hp by done.
    exists v', (Called_start x :: launch_events x tmp (environ v) (fresh v)).
    split; [done|]. split.
    { apply (cooperative_next v); [done|done|lia|]. intros e. rewrite Hp.
      intros [He|He]%elem_of_app; [by left|].
      apply list_elem_of_singleton in He as ->. by right. }
    split; [done|]. split; [done|]. split; [done|]. split; [done|].
    by repeat constructor.
Qed.

(** An entry of the table is found running by the sweep. *)
Lemma sweep_cooperative (item : entry handle) (v : world) :
  item ∈ procs v -> cooperative v ->
  exists v',
    sweep_entry item v = (Ok tt, v')
    /\ cooperative v'
    /\ trace v' = trace v ++ [Poll (val item) None]
    /\ procs v' = procs v /\ files v' = files v /\ fresh v' = fresh v
    /\ faults v' = faults v.
Proof.
  intros Hin Hcoop. unfold sweep_entry. mrun.
  destruct (poll_cases (val item) v)
    as (rc & v1 & Hpoll & Ht1 & Hp1 & Hf1 & Hfr1 & _ & _ & Hfl1 & _ & _ & _ & Hseen).
  pose proof (poll_calm (val item) v _ v1 Hpoll) as Hcalm.
  rewrite Hpoll.
  assert (rc = None) as ->.
  { destruct rc as [c|]; [|done]. exfalso. destruct Hseen as [Hc|Hc].
    - destruct Hcoop as (_ & _ & Hs). destruct (Hs (val item)) as [_ Hnot]; [by eexists|].
      apply Hnot. apply list_elem_of_fmap. by exists item.
    - destruct Hcoop as (_ & Hp & _). destruct (polls v) as [|a rest]; [done|].
      apply Forall_cons in Hp as [-> _]. done. }
  exists v1. split; [done|]. split; [|done].
  apply (cooperative_next v); [done|done|lia|]. intros e. rewrite Hp1. by left.
Qed.

Lemma poll_stop_event (p : handle) : steps (emits stop_event) (poll p).
Proof. unfold poll. steps. Qed.

Lemma wait_exit_stop_event (n : nat) (p : handle) :
  steps (emits stop_event) (wait_exit n p).
Proof.
  induction n as [|n IH]; simpl; [steps|].
  apply steps_bind; [tc_solve|apply poll_stop_event|intros [c|]]; [steps|].
  apply steps_bind; [tc_solve| |by intros _]. unfold sleep. steps.
Qed.

Lemma stop_unneeded_stop_event (needed : pyset) (x : json) :
  steps (emits stop_event) (stop_unneeded needed x).
Proof.
  unfold stop_unneeded, stop_waybar_for, terminate, kill, fallible.
  steps; first [apply poll_stop_event | apply wait_exit_stop_event].
Qed.

Lemma stop_unneeded_calm (needed : pyset) (x : json) : steps calm (stop_unneeded needed x).
Proof. unfold stop_unneeded. steps. apply stop_waybar_for_calm. Qed.

Lemma stop_unneeded_beside_processes (needed : pyset) (x : json) :
  steps (keeps beside_processes) (stop_unneeded needed x).
Proof. unfold stop_unneeded. steps. apply stop_waybar_for_beside_processes. Qed.

Lemma stop_events_not_launches (t : list event) :
  Forall stop_event t -> launched t = [] /\ started t = [].
Proof.
  induction 1 as [|e t He _ IH]; [done|]. destruct e; try done; exact IH.
Qed.

Lemma idle_events (t : list event) :
  Forall idle t -> launched t = [] /\ stopped t = [] /\ Forall peaceful t.
Proof.
  induction 1 as [|e t He _ (IH1 & IH2 & IH3)]; [done|].
  destruct e; try done; (split; [exact IH1|split; [exact IH2|by constructor]]).
Qed.

(** The stops of a cycle on a host on which all goes well. *)
Lemma stops_cooperative (needed : pyset) (w1 : world) :
  keyed (procs w1) -> cooperative w1 ->
  exists w2 t,
    for_each (dict_keys (procs w1)) (stop_unneeded needed) w1 = (Ok tt, w2)
    /\ procs w2 = List.filter (fun e => set_mem (canon e) needed) (procs w1)
    /\ cooperative w2
    /\ trace w2 = trace w1 ++ t
    /\ launched t = [].
Proof.
  intros Hkeyed Hcoop.
  destruct (stops_loop needed (procs w1) (procs w1) [] w1)
    as (w2 & t & Hrun & Hp2 & Ht2 & _ & _); [done|done|done|].
  exists w2, t. split; [done|]. split; [done|].
  assert (Hcalm : calm w1 w2).
  { refine (for_each_steps calm _ _ _ w1 _ w2 Hrun). intros x _. apply stop_unneeded_calm. }
  assert (Hframe : keeps beside_processes w1 w2).
  { refine (for_each_steps (keeps beside_processes) _ _ _ w1 _ w2 Hrun).
    intros x _. apply stop_unneeded_beside_processes. }
  assert (Hevents : emits stop_event w1 w2).
  { refine (for_each_steps (emits stop_event) _ _ _ w1 _ w2 Hrun).
    intros x _. apply stop_unneeded_stop_event. }
  unfold keeps, beside_processes in Hframe. injection Hframe as _ Hfresh _ _.
  split; [|split; [done|]].
  - apply (cooperative_next w1); [done|done|lia|].
    intros e. rewrite Hp2. simpl. intros [He _]%list_elem_of_In%List.filter_In.
    left. by apply list_elem_of_In.
  - destruct Hevents as (t' & Ht' & Hq). rewrite Ht2 in Ht'. apply app_inv_head in Ht'.
    subst t'. by apply stop_events_not_launches.
Qed.

(** The starts of a cycle on a host on which all goes well, from a table
    whose outputs are all desired. *)
Lemma starts_cooperative (needed : pyset) (xs : list json) (w2 : world) :
  Forall (fun x => exists k, hash x = Ok k /\ set_mem k needed = true) xs ->
  keyed (procs w2) -> cooperative w2 ->
  (forall k, is_Some (dict_get k (procs w2)) -> set_mem k needed = true) ->
  exists w3 t,
    for_each xs start_waybar_for w2 = (Ok tt, w3)
    /\ cooperative w3 /\ keyed (procs w3)
    /\ trace w3 = trace w2 ++ t
    /\ stopped t = [] /\ Forall peaceful t
    /\ (forall k p, dict_get k (procs w2) = Some p -> dict_get k (procs w3) = Some p)
    /\ (forall k, is_Some (dict_get k (procs w3)) -> set_mem k needed = true)
    /\ Forall (fun x => exists k, hash x = Ok k /\ is_Some (dict_get k (procs w3))) xs
    /\ (forall p, p ∈ launched t ->
          exists k, set_mem k needed = true /\ dict_get k (procs w2) = None
                    /\ dict_get k (procs w3) = Some p)
    /\ (Forall (fun x => exists k, hash x = Ok k /\ is_Some (dict_get k (procs w2))) xs ->
          procs w3 = procs w2 /\ files w3 = files w2 /\ fresh w3 = fresh w2
          /\ faults w3 = faults w2 /\ Forall idle t).
Proof.
  intros Hall. revert w2. induction Hall as [|x xs (k & Hx & Hmem) _ IH];
    intros w2 Hkeyed Hcoop Honly; simpl.
  - exists w2, []. rewrite app_nil_r. do 6 (split; [done|]). split; [done|].
    split; [done|]. split; [done|]. split; [by intros p ?%elem_of_nil|done].
  - destruct (start_cooperative x k w2 Hx Hcoop) as (v & t1 & Hrun1 & Hcoop1 & Ht1 & Hcase).
    assert (Hstep : keyed (procs v)
              /\ (forall k0 p, dict_get k0 (procs w2) = Some p -> dict_get k0 (procs v) = Some p)
              /\ (forall k0, is_Some (dict_get k0 (procs v)) -> set_mem k0 needed = true)
              /\ is_Some (dict_get k (procs v))
              /\ stopped t1 = [] /\ Forall peaceful t1
              /\ (forall p, p ∈ launched t1 ->
                    dict_get k (procs w2) = None /\ dict_get k (procs v) = Some p)).
    { destruct (dict_get k (procs w2)) as [p|] eqn:Hget.
      - destruct Hcase as (-> & Hp & _). rewrite Hp.
        do 3 (split; [done|]). split; [by rewrite Hget|]. split; [done|].
        split; [by repeat constructor|]. by intros q ?%elem_of_nil.
      - destruct Hcase as (Hp & Hl & Hs & Hpeace). rewrite Hp.
        split; [rewrite <- (dict_set_absent k x (fresh w2)) by done; by apply keyed_set|].
        split; [intros k0 p Hk0; by rewrite dict_get_app, Hk0|].
        split.
        { intros k0. rewrite dict_get_app.
          destruct (dict_get k0 (procs w2)) eqn:Hk0; [intros _; apply Honly; by rewrite Hk0|].
          simpl. case_decide; [by subst|by intros [? ?]]. }
        split; [rewrite dict_get_app, Hget; simpl; rewrite decide_True by done; by eexists|].
        do 2 (split; [done|]).
        intros p. rewrite Hl. intros ->%list_elem_of_singleton. split; [done|].
        rewrite dict_get_app, Hget. simpl. by rewrite decide_True. }
    destruct Hstep as (Hkeyed1 & Hkept1 & Honly1 & Hhas1 & Hs1 & Hpeace1 & Hl1).
    destruct (IH v Hkeyed1 Hcoop1 Honly1)
      as (w3 & t & Hrun & Hcoop3 & Hkeyed3 & Ht & Hs & Hpeace & Hkept & Honly3 & Hhas
          & Hl & Hsteady).
    exists w3, (t1 ++ t). mrun. rewrite Hrun1. split; [done|]. do 2 (split; [done|]).
    split; [by rewrite Ht, Ht1, <- app_assoc|].
    split; [by rewrite stopped_app, Hs1, Hs|]. split; [by apply Forall_app|].
    split; [intros k0 p Hk0; by apply Hkept, Hkept1|]. split; [done|]. split.
    { constructor; [|done]. exists k. split; [done|]. destruct Hhas1 as [p Hp].
      exists p. by apply Hkept. }
    split.
    { intros p. rewrite launched_app. intros [Hp|Hp]%elem_of_app.
      - exists k. split; [done|]. destruct (Hl1 p Hp) as [Hnone Hsome].
        split; [done|]. by apply Hkept.
      - destruct (Hl p Hp) as (k0 & Hk0 & Hnone & Hsome). exists k0.
        split; [done|]. split; [|done].
        destruct (dict_get k0 (procs w2)) as [q|] eqn:Hq; [|done].
        apply Hkept1 in Hq. congruence. }
    intros [(k0 & Hx0 & Hsome0) Hrest]%Forall_cons.
    assert (k0 = k) as -> by congruence. destruct Hsome0 as [p Hget].
    rewrite Hget in Hcase. destruct Hcase as (-> & Hp & Hf & Hfr & Hfl).
    destruct Hsteady as (Hp3 & Hf3 & Hfr3 & Hfl3 & Hidle3).
    { eapply Forall_impl; [exact Hrest|]. intros y (ky & Hy & Hsy). exists ky.
      by rewrite Hp. }
    split; [congruence|]. split; [congruence|]. split; [congruence|]. split; [congruence|].
    apply Forall_app. split; [by repeat constructor|done].
Qed.

(** The sweep on a host on which all goes well: every entry is found
    running. *)
Lemma sweeps_cooperative (l : pydict handle) (v : world) :
  (forall e, e ∈ l -> e ∈ procs v) -> cooperative v ->
  exists v' t,
    for_each l sweep_entry v = (Ok tt, v')
    /\ cooperative v'
    /\ procs v' = procs v /\ files v' = files v /\ fresh v' = fresh v
    /\ faults v' = faults v
    /\ trace v' = trace v ++ t /\ Forall idle t.
Proof.
  revert v. induction l as [|e l IH]; intros v Hin Hcoop; simpl.
  - exists v, []. rewrite app_nil_r. by do 7 (split; [done|]).
  - destruct (sweep_cooperative e v) as (v1 & Hrun1 & Hcoop1 & Ht1 & Hp1 & Hf1 & Hfr1 & Hfl1);
      [apply Hin; apply elem_of_cons; by left|done|].
    destruct (IH v1) as (v' & t & Hrun & Hcoop' & Hp & Hf & Hfr & Hfl & Ht & Hidle);
      [|done|].
    { intros x Hx. rewrite Hp1. apply Hin. apply elem_of_cons. by right. }
    exists v', (Poll (val e) None :: t). mrun. rewrite Hrun1.
    split; [done|]. split; [done|]. split; [congruence|]. split; [congruence|].
    split; [congruence|]. split; [congruence|].
    split; [by rewrite Ht, Ht1, <- app_assoc|]. by constructor.
Qed.

Lemma cooperative_probe (w w1 : world) (needed : pyset) :
  cooperative w -> monitors_needing_waybar w = (Ok needed, w1) ->
  cooperative w1 /\ beside_queries w1 = beside_queries w.
Proof.
  intros Hcoop Hprobe.
  pose proof (monitors_needing_waybar_beside_queries w _ w1 Hprobe) as Hframe.
  pose proof (monitors_needing_waybar_calm w _ w1 Hprobe) as Hcalm.
  split; [|done]. unfold keeps, beside_queries in Hframe.
  injection Hframe as Hp _ Hfr _ _ _ _.
  apply (cooperative_next w); [done|done|lia|]. intros e. rewrite Hp. by left.
Qed.

(** X11. On a host on which all goes well one cycle brings the table to
    the desired set. If from the start of the cycle on no call to the
    operating system raises and every process polled is running, then
    [reconcile] returns, and after it the table has an entry for exactly
    the outputs of the desired set; the instances of the outputs that were
    desired before keep their handles; the processes launched are those of
    desired outputs that had no entry, each now in the table; and the host
    is as well-behaved as before, so the next cycle starts as this one. *)
Theorem cooperative_cycle_reaches_the_desired_set (w w1 : world) (needed : pyset) :
  keyed (procs w) ->
  cooperative w ->
  monitors_needing_waybar w = (Ok needed, w1) ->
  exists w' t,
    reconcile w = (Ok tt, w')
    /\ trace w' = trace w1 ++ t
    /\ keyed (procs w') /\ cooperative w'
    /\ (forall k, is_Some (dict_get k (procs w')) <-> set_mem k needed = true)
    /\ (forall k p, dict_get k (procs w) = Some p -> set_mem k needed = true ->
                    dict_get k (procs w') = Some p)
    /\ (forall p, p ∈ launched t ->
          exists k, set_mem k needed = true /\ dict_get k (procs w) = None
                    /\ dict_get k (procs w') = Some p).
Proof.
  intros Hkeyed Hcoop Hprobe.
  destruct (cooperative_probe w w1 needed Hcoop Hprobe) as [Hcoop1 Hframe1].
  unfold beside_queries in Hframe1. injection Hframe1 as Hp1 _ _ _ _ _ _.
  pose proof (monitors_needing_waybar_keyed _ _ _ Hprobe) as Hkn.
  destruct (stops_cooperative needed w1) as (w2 & t2 & Hstops & Hp2 & Hcoop2 & Ht2 & Hl2);
    [by rewrite Hp1|done|].
  rewrite Hp1 in Hp2.
  assert (Hget2 : forall k, dict_get k (procs w2)
                            = if set_mem k needed then dict_get k (procs w) else None).
  { intros k. rewrite Hp2. apply (dict_get_filter (fun k => set_mem k needed)). }
  destruct (starts_cooperative needed (set_order (dict_keys needed)) w2)
    as (w3 & t3 & Hstarts & Hcoop3 & Hkeyed3 & Ht3 & _ & _ & Hkept3 & Honly3 & Hhas3
        & Hl3 & _).
  { apply Forall_forall. intros x Hx. apply dict_keys_hash; [done|].
    apply list_elem_of_In. eapply Permutation_in; [apply set_order_permutes|].
    by apply list_elem_of_In. }
  { rewrite Hp2. by apply keyed_filter. }
  { done. }
  { intros k. rewrite Hget2. destruct (set_mem k needed); [done|by intros [? ?]]. }
  destruct (sweeps_cooperative (procs w3) w3)
    as (w4 & t4 & Hsweep & Hcoop4 & Hp4 & _ & _ & _ & Ht4 & Hidle4); [done|done|].
  destruct (idle_events t4 Hidle4) as (Hl4 & _ & _).
  exists w4, (t2 ++ t3 ++ t4). split.
  { unfold reconcile. mrun. rewrite Hprobe. mrun. unfold gets at 1. mrun. rewrite Hstops.
    mrun. rewrite Hstarts. mrun. unfold gets at 1. exact Hsweep. }
  split; [by rewrite Ht4, Ht3, Ht2, <- !app_assoc|].
  rewrite Hp4. do 2 (split; [done|]). split; [|split].
  - intros k. split; [apply Honly3|]. intros Hmem. unfold set_mem in Hmem.
    destruct (dict_get k needed) as [[]|] eqn:Hget; [|done].
    apply dict_get_Some in Hget as (e & He & Hce & _).
    assert (Hin : orig e ∈ set_order (dict_keys needed)).
    { apply list_elem_of_In. eapply Permutation_in; [symmetry; apply set_order_permutes|].
      apply list_elem_of_In. apply list_elem_of_fmap. by exists e. }
    apply (proj1 (Forall_forall _ _) Hhas3) in Hin as (k' & Hk' & Hsome).
    destruct Hkn as [_ Hhash]. apply (proj1 (Forall_forall _ _) Hhash) in He.
    assert (k' = k) as -> by congruence. done.
  - intros k p Hget Hmem. apply Hkept3. by rewrite Hget2, Hmem.
  - intros p. rewrite !launched_app, Hl2, Hl4, app_nil_r. simpl. intros Hp.
    destruct (Hl3 p Hp) as (k & Hmem & Hnone & Hsome). exists k.
    split; [done|]. split; [|done]. by rewrite Hget2, Hmem in Hnone.
Qed.

Lemma stops_nothing_to_do (needed : pyset) (xs : list json) (v : world) :
  Forall (fun x => exists k, hash x = Ok k /\ set_mem k needed = true) xs ->
  for_each xs (stop_unneeded needed) v = (Ok tt, v).
Proof.
  induction 1 as [|x xs (k & Hx & Hmem) _ IH]; simpl; [done|].
  mrun. unfold stop_unneeded at 1. mrun. unfold lift at 1. rewrite Hx, Hmem. exact IH.
Qed.

(** X12. In the steady state a cycle only looks. If the table has an entry
    for exactly the outputs of the desired set and all goes well on the
    host, then [reconcile] returns with the table, the files, the handle of
    the next launch and the pending failures as they were; after its two
    queries it calls [start_waybar_for] for the desired outputs, and all
    that is done is polling processes that are found running: nothing is
    stopped, launched, signalled or written. *)
Theorem steady_state_cycle_only_polls (w w1 : world) (needed : pyset) :
  keyed (procs w) ->
  cooperative w ->
  monitors_needing_waybar w = (Ok needed, w1) ->
  (forall k, is_Some (dict_get k (procs w)) <-> set_mem k needed = true) ->
  exists w' t,
    reconcile w = (Ok tt, w')
    /\ trace w' = trace w1 ++ t
    /\ Forall idle t
    /\ launched t = [] /\ stopped t = [] /\ Forall peaceful t
    /\ procs w' = procs w /\ files w' = files w /\ fresh w' = fresh w
    /\ faults w' = faults w /\ returncode w' = returncode w
    /\ cooperative w'.
Proof.
  intros Hkeyed Hcoop Hprobe Hsame.
  destruct (cooperative_probe w w1 needed Hcoop Hprobe) as [Hcoop1 Hframe1].
  unfold beside_queries in Hframe1. injection Hframe1 as Hp1 Hrc1 Hfr1 Hf1 _ _ Hfl1.
  pose proof (monitors_needing_waybar_keyed _ _ _ Hprobe) as Hkn.
  assert (Hstops : for_each (dict_keys (procs w1)) (stop_unneeded needed) w1 = (Ok tt, w1)).
  { apply stops_nothing_to_do. rewrite Hp1. apply Forall_forall.
    intros x (e & -> & He)%list_elem_of_fmap. exists (canon e). split.
    - destruct Hkeyed as [_ Hhash]. by apply (proj1 (Forall_forall _ _) Hhash).
    - apply Hsame. rewrite (dict_get_elem (procs w) e); [by eexists|by destruct Hkeyed|done]. }
  assert (Hxs : Forall (fun x => exists k, hash x = Ok k /\ set_mem k needed = true)
                  (set_order (dict_keys needed))).
  { apply Forall_forall. intros x Hx. apply dict_keys_hash; [done|].
    apply list_elem_of_In. eapply Permutation_in; [apply set_order_permutes|].
    by apply list_elem_of_In. }
  destruct (starts_cooperative needed (set_order (dict_keys needed)) w1 Hxs)
    as (w3 & t3 & Hstarts & Hcoop3 & _ & Ht3 & _ & _ & _ & _ & _ & _ & Hsteady).
  { by rewrite Hp1. }
  { done. }
  { intros k. rewrite Hp1. apply Hsame. }
  destruct Hsteady as (Hp3 & Hf3 & Hfr3 & Hfl3 & Hidle3).
  { eapply Forall_impl; [exact Hxs|]. intros x (k & Hx & Hmem). exists k.
    split; [done|]. rewrite Hp1. by apply Hsame. }
  destruct (sweeps_cooperative (procs w3) w3)
    as (w4 & t4 & Hsweep & Hcoop4 & Hp4 & Hf4 & Hfr4 & Hfl4 & Ht4 & Hidle4); [done|done|].
  assert (Hidle : Forall idle (t3 ++ t4)) by (by apply Forall_app).
  destruct (idle_events _ Hidle) as (Hl & Hs & Hpeace).
  assert (Hrun : reconcile w = (Ok tt, w4)).
  { unfold reconcile. mrun. rewrite Hprobe. mrun. unfold gets at 1. mrun. rewrite Hstops.
    mrun. rewrite Hstarts. mrun. unfold gets at 1. exact Hsweep. }
  exists w4, (t3 ++ t4). split; [done|].
  split; [by rewrite Ht4, Ht3, <- !app_assoc|]. do 4 (split; [done|]).
  split; [congruence|]. split; [congruence|]. split; [congruence|]. split; [congruence|].
  split; [|done].
  assert (Hcalm : steps calm reconcile).
  { unfold reconcile. steps; try apply monitors_needing_waybar_calm;
      apply for_each_steps; try tc_solve; intros x _.
    - apply stop_unneeded_calm.
    - apply start_waybar_for_calm.
    - unfold sweep_entry. steps. }
  destruct Hcoop as (Hfaults & Hpolls & _).
  by destruct (Hcalm w _ w4 Hrun Hfaults Hpolls) as (_ & _ & ?).
Qed.

(** ** The probe *)

Lemma visible_count_permutation (k : hkey) (clients clients' : list json) :
  clients ≡ₚ clients' -> visible_count k clients = visible_count k clients'.
Proof.
  intros Hperm. unfold visible_count. f_equal.
  induction Hperm as [|c l l' _ IH|c c' l|l l' l'' _ IH _ IH']; simpl; [done| | |congruence].
  - destruct (visible_onb k c); simpl; congruence.
  - by destruct (visible_onb k c), (visible_onb k c').
Qed.

(** X13. The desired set does not depend on the order in which the
    compositor lists the windows: for one list of monitors, two lists of
    client records that are permutations of each other give the same
    result, the same set in the same order or the same exception. *)
Theorem desired_set_ignores_the_order_of_windows (mons clients clients' : list json) :
  Forall (fun c => client_record c = true) clients ->
  clients ≡ₚ clients' ->
  needed_of mons (JArr clients) = needed_of mons (JArr clients').
Proof.
  intros Hc Hperm.
  assert (Hc' : Forall (fun c => client_record c = true) clients').
  { apply Forall_forall. intros c Hin. apply (proj1 (Forall_forall _ _) Hc).
    by rewrite Hperm. }
  unfold needed_of. destruct (for_acc map_monitor mons []) as [d|e]; rsimpl; [|done].
  destruct (tally_acc clients [] Hc) as (counts & Hcounts & Htally).
  destruct (tally_acc clients' [] Hc') as (counts' & Hcounts' & Htally').
  simpl. rewrite Hcounts, Hcounts'. simpl. apply add_needed_ext.
  intros k. rewrite Htally, Htally'. f_equal. by apply visible_count_permutation.
Qed.

Lemma next_outcome_answered (args : list string) (w : world) :
  next_outcome (answered args w)
  = match queries w with
    | _ :: q :: _ => q
    | _ => LaunchFailure
    end.
Proof.
  unfold next_outcome, answered.
  destruct (queries w) as [|q [|q' rest]] eqn:Hq; simpl; by rewrite ?Hq.
Qed.

Lemma queries_answered (args : list string) (w : world) :
  queries (answered args w) = tail (queries w).
Proof. unfold answered. destruct (queries w) eqn:Hq; simpl; by rewrite ?Hq. Qed.

Lemma monitors_needing_waybar_result (w : world) :
  fst (monitors_needing_waybar w)
  = rbind (fst (get_monitors w))
      (fun mons =>
         needed_of mons
           (let data := delivered (next_outcome (answered monitors_args w)) in
            if truthy data then data else JArr [])).
Proof.
  unfold monitors_needing_waybar. mrun. rewrite get_monitors_eq. cbn [fst].
  destruct (if truthy (delivered (next_outcome w)) then _ else _) as [mons|e]; [|done].
  mrun. by rewrite get_clients_eq.
Qed.

(** X14. The probe only asks. [monitors_needing_waybar] leaves the table,
    the processes and the files as they are; it asks the compositor for
    the monitors and then, unless the monitors document made it raise, for
    the clients, and nothing else; and its result is decided by the
    answers to these two queries alone: on two hosts that answer the next
    two queries alike it returns the same set or raises the same
    exception. *)
Theorem probe_only_asks (w : world) :
  let w' := snd (monitors_needing_waybar w) in
  beside_queries w' = beside_queries w
  /\ match fst (get_monitors w) with
     | Ok _ =>
         w' = answered clients_args (answered monitors_args w)
         /\ queries w' = drop 2 (queries w)
     | Raise e =>
         fst (monitors_needing_waybar w) = Raise e
         /\ w' = answered monitors_args w
         /\ queries w' = drop 1 (queries w)
     end
  /\ forall v, take 2 (queries v) = take 2 (queries w) ->
       fst (monitors_needing_waybar v) = fst (monitors_needing_waybar w).
Proof.
  cbn zeta. split; [|split].
  - destruct (monitors_needing_waybar w) as [r w'] eqn:Hrun.
    apply (monitors_needing_waybar_beside_queries w r w' Hrun).
  - destruct (monitors_needing_waybar_run w) as (r & Hrun & Hraise). rewrite Hrun. cbn [fst snd].
    destruct (fst (get_monitors w)) as [mons|e].
    + split; [done|]. rewrite !queries_answered. by destruct (queries w) as [|? [|? ?]].
    + split; [by apply Hraise|]. split; [done|]. rewrite queries_answered.
      by destruct (queries w).
  - intros v Hsame. rewrite !monitors_needing_waybar_result, !get_monitors_eq. cbn [fst].
    rewrite !next_outcome_answered. unfold next_outcome.
    destruct (queries v) as [|q1 [|q2 rest]], (queries w) as [|q1' [|q2' rest']];
      simpl in Hsame; try done; by simplify_eq.
Qed.

(** ** Cycles that stop everything, and cycles that do nothing *)

Lemma for_each_ext {X} (xs : list X) (body body' : X -> M unit) (w : world) :
  (forall x v, x ∈ xs -> body x v = body' x v) ->
  for_each xs body w = for_each xs body' w.
Proof.
  revert w. induction xs as [|x xs IH]; intros w Hext; simpl; [done|].
  unfold mbind, M_bind. rewrite Hext by (apply elem_of_cons; by left).
  destruct (body' x w) as [[[]|e] w1]; [|done].
  apply IH. intros y v Hy. apply Hext. apply elem_of_cons. by right.
Qed.

(** X15. A cycle whose desired set is empty stops every instance. Whatever
    made the set empty (a failed query, no monitor, no visible window),
    [reconcile] then does to the table what the signal handler does: it
    calls [stop_waybar_for] for every entry in table order, starts and
    launches nothing, and returns with the table empty. *)
Theorem empty_desired_set_stops_every_instance (w w1 : world) :
  keyed (procs w) ->
  monitors_needing_waybar w = (Ok [], w1) ->
  exists w' t,
    reconcile w = (Ok tt, w')
    /\ procs w' = []
    /\ trace w' = trace w1 ++ t
    /\ shutting (procs w) t
    /\ stopped t = dict_keys (procs w) /\ started t = [] /\ launched t = []
    /\ files w' = files w
    /\ (slept t <= 1000 * N.of_nat (length (procs w)))%N.
Proof.
  intros Hkeyed Hprobe.
  pose proof (monitors_needing_waybar_beside_queries w _ w1 Hprobe) as Hframe.
  unfold keeps, beside_queries in Hframe. injection Hframe as Hp1 _ _ Hf1 _ _ _.
  assert (Hstops : for_each (dict_keys (procs w1)) (stop_unneeded []) w1
                   = for_each (dict_keys (procs w1)) stop_waybar_for w1).
  { apply for_each_ext. intros x v (e & -> & He)%list_elem_of_fmap.
    unfold stop_unneeded. mrun. unfold lift at 1.
    destruct Hkeyed as [_ Hhash]. rewrite Hp1 in He.
    by rewrite (proj1 (Forall_forall _ _) Hhash e He). }
  destruct (shutdown_loop (procs w1) w1 eq_refl) as (w2 & t & Hrun & Hp2 & Ht & Hshut & Hframe2);
    [by rewrite Hp1|].
  rewrite Hp1 in Hshut.
  destruct (shutting_facts _ _ Hshut) as (H1 & H2 & H3 & H4 & _).
  assert (Hnil : set_order (dict_keys ([] : pyset)) = []).
  { apply Permutation_nil. symmetry. apply set_order_permutes. }
  exists w2, t. split.
  { unfold reconcile. mrun. rewrite Hprobe. mrun. unfold gets at 1. mrun.
    rewrite Hstops, Hrun. mrun. rewrite Hnil. cbn [for_each]. mrun.
    unfold mret at 1, M_ret at 1. unfold gets at 1. by rewrite Hp2. }
  do 6 (split; [done|]). split; [|done].
  unfold beside_processes in Hframe2. injection Hframe2 as Hf2 _ _ _. congruence.
Qed.

(** X16. A probe that raises ends the cycle before anything is touched.
    When [monitors_needing_waybar] raises, as it does on a document of the
    wrong shape, [reconcile] raises the same exception at once: no instance
    is stopped or started, and the table, the processes and the files are
    as before the cycle. *)
Theorem raising_probe_ends_the_cycle_untouched (w : world) (e : exn) :
  fst (monitors_needing_waybar w) = Raise e ->
  reconcile w = (Raise e, snd (monitors_needing_waybar w))
  /\ beside_queries (snd (reconcile w)) = beside_queries w
  /\ exists t, trace (snd (reconcile w)) = trace w ++ t
       /\ stopped t = [] /\ started t = [] /\ launched t = [] /\ Forall peaceful t.
Proof.
  intros Hraise.
  destruct (monitors_needing_waybar w) as [r w1] eqn:Hprobe. simpl in Hraise. subst r.
  assert (Hrun : reconcile w = (Raise e, w1)).
  { unfold reconcile. mrun. by rewrite Hprobe. }
  rewrite Hrun. cbn [snd]. split; [done|]. split.
  { apply (monitors_needing_waybar_beside_queries w _ w1 Hprobe). }
  destruct (monitors_needing_waybar_emits w _ w1 Hprobe) as (t & Ht & Hquiet).
  destruct (monitors_needing_waybar_peaceful w _ w1 Hprobe) as (t' & Ht' & Hpeace).
  rewrite Ht in Ht'. apply app_inv_head in Ht'. subst t'.
  destruct (quiet_not_called t Hquiet) as [Hs1 Hs2].
  exists t. split; [done|]. do 2 (split; [done|]). split; [|done].
  clear -Hprobe Ht.
  assert (Hsilent : steps (emits (fun ev => match ev with Query _ _ => True | _ => False end))
                      monitors_needing_waybar).
  { unfold monitors_needing_waybar, get_monitors, get_clients, run_json, check_output.
    steps. }
  destruct (Hsilent w _ w1 Hprobe) as (t' & Ht' & Hq).
  rewrite Ht in Ht'. apply app_inv_head in Ht'. subst t'.
  apply launched_supporting. eapply Forall_impl; [exact Hq|]. by intros [].
Qed.

End Script.

(** ** The statements on concrete hosts *)

Lemma insertion_order_permutes (keys : list json) :
  Permutation (insertion_order keys) keys.
Proof. reflexivity. Qed.

(** A visible window on workspace 1 raises the tally of workspace 1. *)
Lemma tally_counts_mapped_and_not_hidden_witness :
  Forall (fun c => client_record c = true)
         ([window_on 1 true true] ++ window_on 1 true false :: [window_on 2 false false])
  /\ exists tally tally',
       for_acc count_client ([window_on 1 true true] ++ [window_on 2 false false]) []
       = Ok tally
       /\ for_acc count_client
            ([window_on 1 true true] ++ window_on 1 true false :: [window_on 2 false false]) []
          = Ok tally'
       /\ tally_at (HNum 1) tally' = tally_at (HNum 1) tally + 1.
Proof.
  assert (Hrec : Forall (fun c => client_record c = true)
                   ([window_on 1 true true] ++ window_on 1 true false
                    :: [window_on 2 false false])).
  { repeat constructor. }
  split; [exact Hrec|].
  destruct (tally_counts_mapped_and_not_hidden _ _ _ Hrec)
    as (tally & tally' & H1 & H2 & Hyes & _).
  exists tally, tally'. split; [exact H1|]. split; [exact H2|].
  apply Hyes. split; [exists (JInt 1); split; reflexivity|].
  split; [exists (JBool true); split; reflexivity|].
  right. exists (JBool false). split; reflexivity.
Defined.

(** C7 fails as stated: a retained monitor with a usable name and no active
    workspace is left out of the map, and so is one with an active
    workspace and no usable name. *)
Lemma monitor_with_name_only_is_dropped :
  (idle_monitor ∈ retained [idle_monitor; nameless_monitor]
   /\ monitor_name render idle_monitor = Ok (JStr "DP-1")
   /\ truthy (JStr "DP-1") = true)
  /\ (nameless_monitor ∈ retained [idle_monitor; nameless_monitor]
      /\ ref_id nameless_monitor "activeWorkspace" = Some (JInt 1))
  /\ for_acc (map_monitor render) (retained [idle_monitor; nameless_monitor]) [] = Ok [].
Proof.
  split; [split; [|split; reflexivity]|split; [split; [|reflexivity]|reflexivity]].
  - apply elem_of_cons. left. reflexivity.
  - apply elem_of_cons. right. apply elem_of_cons. left. reflexivity.
Qed.

Lemma monitor_map_needs_name_and_workspace_witness :
  lists (next_outcome (host [] 0%nat [answer two_monitors] [] [])) two_monitors
  /\ Forall (fun m => monitor_record m = true) two_monitors
  /\ exists ws_by_mon,
       for_acc (map_monitor render) (retained two_monitors) [] = Ok ws_by_mon
       /\ forall k ws, dict_get k ws_by_mon = Some ws
                       <-> last_bound render (retained two_monitors) k ws.
Proof.
  assert (Hl : lists (next_outcome (host [] 0%nat [answer two_monitors] [] [])) two_monitors).
  { reflexivity. }
  assert (Hrec : Forall (fun m => monitor_record m = true) two_monitors).
  { repeat constructor. }
  split; [exact Hl|]. split; [exact Hrec|].
  destruct (monitor_map_needs_name_and_workspace render _ _ Hl Hrec)
    as (_ & _ & ws_by_mon & Hmap & _ & Hbound).
  exists ws_by_mon. split; [exact Hmap|exact Hbound].
Defined.

(** C1 fails as stated: of two retained monitors named DP-1 the first has
    an active workspace with one visible window, yet DP-1 is not in the
    desired set, because the second, on an empty workspace, has the same
    name. *)
Lemma duplicate_name_is_not_desired :
  monitor_on "DP-1" 1 ∈ retained twin_monitors
  /\ named_with_workspace render (monitor_on "DP-1" 1) (HStr "DP-1") (JInt 1)
  /\ hash (JInt 1) = Ok (HNum 1)
  /\ (exists tally, for_acc count_client one_window [] = Ok tally
                    /\ tally_at (HNum 1) tally = 1)
  /\ fst (monitors_needing_waybar render
            (host [] 0%nat [answer twin_monitors; answer one_window] [] []))
     = Ok [].
Proof.
  split; [apply elem_of_cons; left; reflexivity|].
  split; [exists (JStr "DP-1"); repeat split; reflexivity|].
  split; [reflexivity|]. split; [|reflexivity].
  eexists. split; reflexivity.
Qed.

Lemma desired_set_of_names_last_record_wins_witness :
  lists (next_outcome (host [] 0%nat [answer twin_monitors; answer one_window] [] []))
        twin_monitors
  /\ lists (next_outcome (answered monitors_args
                            (host [] 0%nat [answer twin_monitors; answer one_window] [] [])))
           one_window
  /\ Forall (fun m => monitor_record m = true) twin_monitors
  /\ Forall (fun c => client_record c = true) one_window
  /\ exists need,
       fst (monitors_needing_waybar render
              (host [] 0%nat [answer twin_monitors; answer one_window] [] []))
       = Ok need
       /\ forall k, set_mem k need = true
            <-> exists ws kw, last_bound render (retained twin_monitors) k ws
                              /\ hash ws = Ok kw /\ 0 < visible_count kw one_window.
Proof.
  set (w := host [] 0%nat [answer twin_monitors; answer one_window] [] []).
  assert (Hm : lists (next_outcome w) twin_monitors) by reflexivity.
  assert (Hc : lists (next_outcome (answered monitors_args w)) one_window) by reflexivity.
  assert (Hmr : Forall (fun m => monitor_record m = true) twin_monitors).
  { repeat constructor. }
  assert (Hcr : Forall (fun c => client_record c = true) one_window).
  { repeat constructor. }
  split; [exact Hm|]. split; [exact Hc|]. split; [exact Hmr|]. split; [exact Hcr|].
  destruct (desired_set_of_names_last_record_wins render w _ _ Hm Hc Hmr Hcr)
    as (need & Hrun & Hmem & _).
  exists need. split; [|exact Hmem]. rewrite Hrun. reflexivity.
Defined.

(** A cycle whose two queries fail. *)
Lemma failed_query_gives_empty_desired_set_witness :
  query_failed (next_outcome (host [] 0%nat [Exited 1 Malformed; LaunchFailure] [] []))
  /\ monitors_needing_waybar render (host [] 0%nat [Exited 1 Malformed; LaunchFailure] [] [])
     = (Ok [],
        answered clients_args
          (answered monitors_args
             (host [] 0%nat [Exited 1 Malformed; LaunchFailure] [] []))).
Proof.
  set (w := host [] 0%nat [Exited 1 Malformed; LaunchFailure] [] []).
  assert (H1 : query_failed (next_outcome w)) by (simpl; left; lia).
  assert (H2 : query_failed (next_outcome (answered monitors_args w))) by exact I.
  split; [exact H1|].
  destruct (failed_query_gives_empty_desired_set render w
              (or_introl H1) (or_introl H2) (or_introl H1)) as (_ & _ & Hrun & _).
  exact Hrun.
Defined.

(** Stopping DP-1 whose process ignores the request to terminate. *)
Lemma stop_never_raises_and_removes_the_entry_witness :
  hash (JStr "DP-1") = Ok (HStr "DP-1")
  /\ exists w',
       stop_waybar_for (JStr "DP-1")
         (host [Entry (HStr "DP-1") (JStr "DP-1") 0%nat] 1%nat [] [] [])
       = (Ok tt, w')
       /\ dict_get (HStr "DP-1") (procs w') = None.
Proof.
  split; [reflexivity|].
  destruct (stop_never_raises_and_removes_the_entry (JStr "DP-1") (HStr "DP-1")
              (host [Entry (HStr "DP-1") (JStr "DP-1") 0%nat] 1%nat [] [] []) eq_refl)
    as (w' & Hrun & Hgone & _).
  exists w'. split; [exact Hrun|exact Hgone].
Defined.

(** Writing the configuration of DP-1 on a host where nothing fails. *)
Lemma config_artifact_is_written_then_renamed_witness :
  exists w',
    ensure_monitor_config render render user_home (JStr "DP-1") (host [] 0%nat [] [] [])
    = (Ok (config_path render user_home (JStr "DP-1")), w')
    /\ files w' !! config_path render user_home (JStr "DP-1")
       = Some (render (JObj [("include", JStr (path_str (BASE_CONFIG user_home)));
                             ("output", JArr [JStr "DP-1"])])).
Proof.
  set (w := host [] 0%nat [] [] []).
  set (run := ensure_monitor_config render render user_home (JStr "DP-1") w).
  destruct (config_artifact_is_written_then_renamed render render user_home (JStr "DP-1")
              w (fst run) (snd run) (surjective_pairing run))
    as (tmp & part & parts & _ & _ & _ & Hok & Hfile).
  assert (Hr : fst run = Ok (config_path render user_home (JStr "DP-1"))).
  { apply Hok. constructor. }
  exists (snd run). split.
  - rewrite <- Hr. apply surjective_pairing.
  - destruct (Hfile _ Hr) as (_ & Hcontent & _). exact Hcontent.
Defined.

(** Starting DP-1 while its process 0 runs. *)
Lemma start_is_a_no_op_while_alive_witness :
  hash (JStr "DP-1") = Ok (HStr "DP-1")
  /\ dict_get (HStr "DP-1")
       (procs (host [Entry (HStr "DP-1") (JStr "DP-1") 0%nat] 1%nat [] [None] []))
     = Some 0%nat
  /\ alive 0%nat (host [Entry (HStr "DP-1") (JStr "DP-1") 0%nat] 1%nat [] [None] [])
  /\ exists w',
       start_waybar_for render render user_home (JStr "DP-1")
         (host [Entry (HStr "DP-1") (JStr "DP-1") 0%nat] 1%nat [] [None] [])
       = (Ok tt, w')
       /\ procs w' = [Entry (HStr "DP-1") (JStr "DP-1") 0%nat]
       /\ trace w' = [Called_start (JStr "DP-1"); Poll 0%nat None].
Proof.
  set (w := host [Entry (HStr "DP-1") (JStr "DP-1") 0%nat] 1%nat [] [None] []).
  assert (Hk : hash (JStr "DP-1") = Ok (HStr "DP-1")) by reflexivity.
  assert (Hget : dict_get (HStr "DP-1") (procs w) = Some 0%nat) by reflexivity.
  assert (Halive : alive 0%nat w) by reflexivity.
  split; [exact Hk|]. split; [exact Hget|]. split; [exact Halive|].
  destruct (start_is_a_no_op_while_alive render render user_home _ _ _ w Hk Hget Halive)
    as ((w' & Hrun & Hp & _ & _ & Ht) & _).
  exists w'. split; [exact Hrun|]. split; [exact Hp|exact Ht].
Defined.

(** A cycle in which DP-2 leaves the desired set and DP-1 enters it. *)
Lemma swap_table : keyed (procs swap).
Proof.
  split.
  - apply NoDup_singleton.
  - repeat constructor.
Qed.

Lemma swap_needed :
  monitors_needing_waybar render swap
  = (Ok [Entry (HStr "DP-1") (JStr "DP-1") tt], snd (monitors_needing_waybar render swap)).
Proof. reflexivity. Qed.

Lemma stops_are_issued_before_starts_witness :
  keyed (procs swap)
  /\ exists t_stop t_rest,
       trace (snd (reconcile render render user_home insertion_order swap))
       = trace (snd (monitors_needing_waybar render swap)) ++ t_stop ++ t_rest
       /\ Called_stop (JStr "DP-2") ∈ t_stop
       /\ Called_start (JStr "DP-1") ∈ t_rest
       /\ stopped (t_stop ++ t_rest) = [JStr "DP-2"]
       /\ started (t_stop ++ t_rest) = [JStr "DP-1"].
Proof.
  split; [exact swap_table|].
  set (run := reconcile render render user_home insertion_order swap).
  destruct (stops_are_issued_before_starts render render user_home insertion_order
              insertion_order_permutes swap _ (snd run) _ (fst run)
              swap_table swap_needed (surjective_pairing run))
    as (t_stop & t_rest & Ht & _ & _ & _ & Hstops & Hstarts).
  assert (Hnew : t_stop ++ t_rest
                 = drop (length (trace (snd (monitors_needing_waybar render swap))))
                        (trace (snd run))).
  { rewrite Ht. rewrite drop_app_length. reflexivity. }
  exists t_stop, t_rest. split; [exact Ht|]. split; [|split; [|split]].
  - apply (Hstops (Entry (HStr "DP-2") (JStr "DP-2") 0%nat)).
    + apply elem_of_cons. left. reflexivity.
    + reflexivity.
  - apply Hstarts.
    + reflexivity.
    + apply elem_of_cons. left. reflexivity.
  - rewrite Hnew. reflexivity.
  - rewrite Hnew. reflexivity.
Defined.

Lemma table_holds_desired_outputs_once_witness :
  keyed (procs swap)
  /\ keyed (procs (snd (reconcile render render user_home insertion_order swap)))
  /\ forall k,
       is_Some (dict_get k (procs (snd (reconcile render render user_home
                                           insertion_order swap)))) ->
       set_mem k [Entry (HStr "DP-1") (JStr "DP-1") tt] = true.
Proof.
  split; [exact swap_table|].
  set (run := reconcile render render user_home insertion_order swap).
  destruct (table_holds_desired_outputs_once render render user_home insertion_order
              insertion_order_permutes swap _ (snd run) _ (fst run)
              swap_table swap_needed (surjective_pairing run))
    as ((Hkeyed & _) & Hin & _).
  split; [exact Hkeyed|exact Hin].
Defined.

(** C8 fails as stated: the launch for DP-2 fails in the first cycle and
    leaves no entry; in the second cycle DP-2 is still desired, yet the
    cycle ends in the failed start of DP-1 and never calls the start of
    DP-2. *)
Lemma failed_start_is_not_retried_in_an_aborted_cycle :
  started (trace (snd (main_cycle render render user_home insertion_order
                         two_failing_cycles)))
  = [JStr "DP-1"; JStr "DP-2"]
  /\ Spawn ["waybar"; "-c"; "/home/user/.cache/autobar/waybar-DP-2.jsonc";
            "-s"; "/home/user/.config/waybar/style.css"]
           [("WAYBAR_LOG_LEVEL", "error")] None
     ∈ trace (snd (main_cycle render render user_home insertion_order two_failing_cycles))
  /\ dict_get (HStr "DP-2")
       (procs (snd (main_cycle render render user_home insertion_order
                      two_failing_cycles)))
     = None
  /\ fst (monitors_needing_waybar render
            (snd (main_cycle render render user_home insertion_order two_failing_cycles)))
     = Ok [Entry (HStr "DP-1") (JStr "DP-1") tt; Entry (HStr "DP-2") (JStr "DP-2") tt]
  /\ fst (reconcile render render user_home insertion_order
            (snd (main_cycle render render user_home insertion_order two_failing_cycles)))
     = Raise OSError
  /\ started
       (drop (length (trace (snd (main_cycle render render user_home insertion_order
                                    two_failing_cycles))))
             (trace (snd (reconcile render render user_home insertion_order
                            (snd (main_cycle render render user_home insertion_order
                                    two_failing_cycles))))))
     = [JStr "DP-1"].
Proof.
  split; [reflexivity|]. split; [|repeat split; reflexivity].
  apply (list_elem_of_lookup_2 _ 11%nat). reflexivity.
Qed.

Lemma failed_launch_leaves_the_table_witness :
  hash (JStr "DP-2") = Ok (HStr "DP-2")
  /\ Spawn ["waybar"; "-c"; "/home/user/.cache/autobar/waybar-DP-2.jsonc";
            "-s"; "/home/user/.config/waybar/style.css"]
           [("WAYBAR_LOG_LEVEL", "error")] None
     ∈ trace (snd (start_waybar_for render render user_home (JStr "DP-2")
                     (host [] 0%nat [] [] [false; false; false; true])))
  /\ procs (snd (start_waybar_for render render user_home (JStr "DP-2")
                   (host [] 0%nat [] [] [false; false; false; true])))
     = [].
Proof.
  set (w := host [] 0%nat [] [] [false; false; false; true]).
  set (run := start_waybar_for render render user_home (JStr "DP-2") w).
  assert (Hk : hash (JStr "DP-2") = Ok (HStr "DP-2")) by reflexivity.
  assert (Hfail : Spawn ["waybar"; "-c"; "/home/user/.cache/autobar/waybar-DP-2.jsonc";
                         "-s"; "/home/user/.config/waybar/style.css"]
                        [("WAYBAR_LOG_LEVEL", "error")] None ∈ trace (snd run)).
  { apply (list_elem_of_lookup_2 _ 4%nat). reflexivity. }
  split; [exact Hk|]. split; [exact Hfail|].
  destruct (failed_launch_leaves_the_table render render user_home insertion_order
              insertion_order_permutes (JStr "DP-2") (HStr "DP-2") w (snd run) (fst run)
              (trace (snd run)) _ _ Hk (surjective_pairing run) eq_refl Hfail)
    as (_ & Hp & _).
  exact Hp.
Defined.

(** ** The scenarios of the specification *)

(** One monitor with one visible window: the empty table gets an entry. *)
Example one_visible_window_starts_the_bar :
  fst (monitors_needing_waybar render
         (host [] 0%nat [answer [monitor_on "DP-1" 1]; answer one_window] [] []))
  = Ok [Entry (HStr "DP-1") (JStr "DP-1") tt]
  /\ procs (snd (reconcile render render user_home insertion_order
                   (host [] 0%nat [answer [monitor_on "DP-1" 1]; answer one_window] [] [])))
     = [Entry (HStr "DP-1") (JStr "DP-1") 0%nat].
Proof. split; reflexivity. Qed.

(** The same monitor without windows: its entry is stopped and removed. *)
Example no_window_stops_the_bar :
  fst (monitors_needing_waybar render
         (host [Entry (HStr "DP-1") (JStr "DP-1") 0%nat] 1%nat
               [answer [monitor_on "DP-1" 1]; answer []] [] []))
  = Ok []
  /\ procs (snd (reconcile render render user_home insertion_order
                   (host [Entry (HStr "DP-1") (JStr "DP-1") 0%nat] 1%nat
                         [answer [monitor_on "DP-1" 1]; answer []] [] [])))
     = [].
Proof. split; reflexivity. Qed.

(** Two monitors, one with a hidden window only and one with a visible
    window: the second alone is desired. *)
Example hidden_window_does_not_count :
  fst (monitors_needing_waybar render
         (host [] 0%nat
               [answer two_monitors; answer [window_on 1 true true; window_on 2 true false]]
               [] []))
  = Ok [Entry (HStr "DP-2") (JStr "DP-2") tt].
Proof. reflexivity. Qed.

(** A query that exits with a status other than zero: nothing is desired in
    that cycle, the cycle returns, and the next cycle finds DP-1. *)
Example failed_cycle_then_recovery :
  fst (reconcile render render user_home insertion_order
         (host [] 0%nat
               [Exited 1 Malformed; Exited 1 Malformed;
                answer [monitor_on "DP-1" 1]; answer one_window] [] []))
  = Ok tt
  /\ fst (monitors_needing_waybar render
            (snd (reconcile render render user_home insertion_order
                    (host [] 0%nat
                          [Exited 1 Malformed; Exited 1 Malformed;
                           answer [monitor_on "DP-1" 1]; answer one_window] [] []))))
     = Ok [Entry (HStr "DP-1") (JStr "DP-1") tt].
Proof. split; reflexivity. Qed.

(** A query that succeeds with a document of another shape is not a failed
    query: on a list of numbers [get_monitors] raises. *)
Example list_of_numbers_is_not_a_monitor_list :
  fst (get_monitors (host [] 0%nat [answer [JInt 1]] [] [])) = Raise AttributeError.
Proof. reflexivity. Qed.

(** ** The further properties on concrete hosts *)

(** The files of DP-1. *)
Lemma plain_names_have_files_of_their_own_witness :
  slash_free (str render (JStr "DP-1")) = true
  /\ config_path render user_home (JStr "DP-1")
     = CACHE_DIR user_home ++ ["waybar-DP-1.jsonc"]
  /\ with_suffix (config_path render user_home (JStr "DP-1")) ".tmp"
     = Ok (CACHE_DIR user_home ++ ["waybar-DP-1.tmp"]).
Proof.
  split; [reflexivity|].
  destruct (plain_names_have_files_of_their_own render render user_home (JStr "DP-1") eq_refl)
    as (Hcfg & Htmp & _).
  split; [exact Hcfg|exact Htmp].
Defined.

(** The first start of DP-1 on a host where nothing fails. *)
Lemma launch_carries_config_and_environment_witness :
  Spawn ["waybar"; "-c"; "/home/user/.cache/autobar/waybar-DP-1.jsonc";
         "-s"; "/home/user/.config/waybar/style.css"]
        [("WAYBAR_LOG_LEVEL", "error")] (Some 0%nat)
    ∈ trace (snd (start_waybar_for render render user_home (JStr "DP-1")
                    (host [] 0%nat [] [] [])))
  /\ fst (start_waybar_for render render user_home (JStr "DP-1") (host [] 0%nat [] [] []))
     = Ok tt
  /\ launched (trace (snd (start_waybar_for render render user_home (JStr "DP-1")
                             (host [] 0%nat [] [] []))))
     = [0%nat].
Proof.
  set (run := start_waybar_for render render user_home (JStr "DP-1") (host [] 0%nat [] [] [])).
  assert (Hin : Spawn ["waybar"; "-c"; "/home/user/.cache/autobar/waybar-DP-1.jsonc";
                       "-s"; "/home/user/.config/waybar/style.css"]
                      [("WAYBAR_LOG_LEVEL", "error")] (Some 0%nat)
                  ∈ trace (snd run)).
  { do 4 (apply elem_of_cons; right). apply elem_of_cons. left. reflexivity. }
  split; [exact Hin|].
  destruct (launch_carries_config_and_environment render render user_home (JStr "DP-1")
              (host [] 0%nat [] [] []) (snd run) (fst run) (trace (snd run)) _ _ _
              (surjective_pairing run) eq_refl Hin)
    as (Hr & _ & _ & _ & _ & _ & Hl & _).
  split; [exact Hr|exact Hl].
Defined.

(** The shutdown of a table that holds DP-1. *)
Lemma shutdown_stops_every_instance_witness :
  keyed (procs (host [Entry (HStr "DP-1") (JStr "DP-1") 0%nat] 1%nat [] [] []))
  /\ exists w' t,
       _shutdown (host [Entry (HStr "DP-1") (JStr "DP-1") 0%nat] 1%nat [] [] [])
       = (Ok SystemExit, w')
       /\ procs w' = []
       /\ stopped t = [JStr "DP-1"].
Proof.
  assert (Hkeyed : keyed (procs (host [Entry (HStr "DP-1") (JStr "DP-1") 0%nat] 1%nat
                                   [] [] []))).
  { split; [apply NoDup_singleton|repeat constructor]. }
  split; [exact Hkeyed|].
  destruct (shutdown_stops_every_instance _ Hkeyed)
    as (w' & t & Hrun & Hp & _ & _ & Hstopped & _).
  exists w', t. split; [exact Hrun|]. split; [exact Hp|exact Hstopped].
Defined.

(** The cycle that swaps DP-2 for DP-1: its signals go to the process of
    DP-2. *)
Lemma only_undesired_instances_are_signalled_witness :
  keyed (procs swap)
  /\ exists t,
       trace (snd (reconcile render render user_home insertion_order swap))
       = trace swap ++ t
       /\ forall ev p, ev ∈ t -> signalled ev = Some p ->
            exists e, e ∈ procs swap /\ val e = p
                      /\ set_mem (canon e) [Entry (HStr "DP-1") (JStr "DP-1") tt] = false.
Proof.
  split; [exact swap_table|].
  exact (only_undesired_instances_are_signalled render render user_home insertion_order
           swap _ _ _ _ swap_table swap_needed
           (surjective_pairing (reconcile render render user_home insertion_order swap))).
Defined.

Lemma steady_table : keyed (procs steady).
Proof.
  split.
  - apply NoDup_singleton.
  - repeat constructor.
Qed.

Lemma steady_needed :
  monitors_needing_waybar render steady
  = (Ok [Entry (HStr "DP-1") (JStr "DP-1") tt], snd (monitors_needing_waybar render steady)).
Proof. reflexivity. Qed.

Lemma steady_handles : handles_ok steady.
Proof.
  split.
  - apply NoDup_singleton.
  - repeat constructor.
Qed.

Lemma host_cooperative (table : pydict handle) (next : handle) (qs : list query_outcome) :
  cooperative (host table next qs [] []).
Proof.
  split; [constructor|]. split; [constructor|].
  intros p [c Hc]. simpl in Hc. by rewrite lookup_empty in Hc.
Qed.

(** A cycle in which DP-1 has a running instance and stays desired. *)
Lemma instance_of_a_desired_output_is_kept_witness :
  keyed (procs steady)
  /\ dict_get (HStr "DP-1") (procs steady) = Some 0%nat
  /\ (dict_get (HStr "DP-1")
        (procs (snd (reconcile render render user_home insertion_order steady)))
      = Some 0%nat
      \/ is_Some (returncode (snd (reconcile render render user_home insertion_order steady))
                  !! 0%nat)).
Proof.
  split; [exact steady_table|]. split; [reflexivity|].
  exact (instance_of_a_desired_output_is_kept render render user_home insertion_order
           steady _ _ _ _ (HStr "DP-1") 0%nat steady_table steady_needed
           (surjective_pairing (reconcile render render user_home insertion_order steady))
           eq_refl eq_refl).
Defined.

Lemma completed_cycle_leaves_no_exited_instance_witness :
  keyed (procs steady) /\ handles_ok steady
  /\ handles_ok (snd (reconcile render render user_home insertion_order steady))
  /\ (fst (reconcile render render user_home insertion_order steady) = Ok tt ->
      forall e, e ∈ procs (snd (reconcile render render user_home insertion_order steady)) ->
        returncode (snd (reconcile render render user_home insertion_order steady)) !! val e
        = None).
Proof.
  split; [exact steady_table|]. split; [exact steady_handles|].
  destruct (completed_cycle_leaves_no_exited_instance render render user_home insertion_order
              steady _ _ steady_table steady_handles
              (surjective_pairing (reconcile render render user_home insertion_order steady)))
    as (_ & Hok & Hrunning).
  split; [exact Hok|exact Hrunning].
Defined.

(** The cycle that swaps DP-2 for DP-1, all going well. *)
Lemma cooperative_cycle_reaches_the_desired_set_witness :
  keyed (procs swap) /\ cooperative swap
  /\ exists w',
       reconcile render render user_home insertion_order swap = (Ok tt, w')
       /\ forall k, is_Some (dict_get k (procs w'))
                    <-> set_mem k [Entry (HStr "DP-1") (JStr "DP-1") tt] = true.
Proof.
  split; [exact swap_table|]. split; [apply host_cooperative|].
  destruct (cooperative_cycle_reaches_the_desired_set render render user_home insertion_order
              insertion_order_permutes swap _ _ swap_table (host_cooperative _ _ _)
              swap_needed)
    as (w' & t & Hrun & _ & _ & _ & Hkeys & _).
  exists w'. split; [exact Hrun|exact Hkeys].
Defined.

Lemma steady_is_settled (k : hkey) :
  is_Some (dict_get k (procs steady))
  <-> set_mem k [Entry (HStr "DP-1") (JStr "DP-1") tt] = true.
Proof.
  unfold set_mem. simpl. case_decide; [|split; [by intros [? ?]|done]].
  split; [done|by eexists].
Qed.

(** A cycle with DP-1 running and desired, all going well. *)
Lemma steady_state_cycle_only_polls_witness :
  keyed (procs steady) /\ cooperative steady
  /\ exists w' t,
       reconcile render render user_home insertion_order steady = (Ok tt, w')
       /\ trace w' = trace (snd (monitors_needing_waybar render steady)) ++ t
       /\ Forall idle t
       /\ procs w' = procs steady.
Proof.
  split; [exact steady_table|]. split; [apply host_cooperative|].
  destruct (steady_state_cycle_only_polls render render user_home insertion_order
              insertion_order_permutes steady _ _ steady_table (host_cooperative _ _ _)
              steady_needed steady_is_settled)
    as (w' & t & Hrun & Ht & Hidle & _ & _ & _ & Hp & _).
  exists w', t. split; [exact Hrun|]. split; [exact Ht|]. split; [exact Hidle|exact Hp].
Defined.

(** Two windows, listed in the one order and in the other. *)
Lemma desired_set_ignores_the_order_of_windows_witness :
  Forall (fun c => client_record c = true) two_windows
  /\ two_windows ≡ₚ [window_on 2 true false; window_on 1 true false]
  /\ needed_of render two_monitors (JArr two_windows)
     = needed_of render two_monitors (JArr [window_on 2 true false; window_on 1 true false]).
Proof.
  assert (Hrec : Forall (fun c => client_record c = true) two_windows)
    by (repeat constructor).
  assert (Hperm : two_windows ≡ₚ [window_on 2 true false; window_on 1 true false])
    by apply perm_swap.
  split; [exact Hrec|]. split; [exact Hperm|].
  exact (desired_set_ignores_the_order_of_windows render two_monitors _ _ Hrec Hperm).
Defined.

(** A cycle in which the compositor does not answer. *)
Lemma empty_desired_set_stops_every_instance_witness :
  keyed (procs blind)
  /\ monitors_needing_waybar render blind
     = (Ok [], snd (monitors_needing_waybar render blind))
  /\ exists w' t,
       reconcile render render user_home insertion_order blind = (Ok tt, w')
       /\ procs w' = []
       /\ stopped t = [JStr "DP-2"].
Proof.
  assert (Hkeyed : keyed (procs blind)).
  { split; [apply NoDup_singleton|repeat constructor]. }
  assert (Hprobe : monitors_needing_waybar render blind
                   = (Ok [], snd (monitors_needing_waybar render blind)))
    by reflexivity.
  split; [exact Hkeyed|]. split; [exact Hprobe|].
  destruct (empty_desired_set_stops_every_instance render render user_home insertion_order
              insertion_order_permutes blind _ Hkeyed Hprobe)
    as (w' & t & Hrun & Hp & _ & _ & Hstopped & _).
  exists w', t. split; [exact Hrun|]. split; [exact Hp|exact Hstopped].
Defined.

(** A cycle whose monitors document is a list of numbers. *)
Lemma raising_probe_ends_the_cycle_untouched_witness :
  fst (monitors_needing_waybar render (host [] 0%nat [answer [JInt 1]] [] []))
  = Raise AttributeError
  /\ fst (reconcile render render user_home insertion_order
            (host [] 0%nat [answer [JInt 1]] [] []))
     = Raise AttributeError.
Proof.
  split; [reflexivity|].
  destruct (raising_probe_ends_the_cycle_untouched render render user_home insertion_order
              (host [] 0%nat [answer [JInt 1]] [] []) AttributeError eq_refl)
    as (Hrun & _).
  rewrite Hrun. reflexivity.
Defined.

(** ** The loop and the signal handler, run *)

(** Without the base configuration [main] complains and leaves. *)
Example main_without_the_base_configuration :
  main render render user_home insertion_order 3 (host [] 0%nat [] [] [])
  = (Ok (Some "Missing base Waybar config at /home/user/.config/waybar/config.jsonc"),
     host [] 0%nat [] [] []).
Proof. reflexivity. Qed.

(** With it, and a compositor that does not answer, two turns of the loop
    are four failed queries and two sleeps. *)
Example main_with_a_silent_compositor :
  let w := set_files (fun fs => <[BASE_CONFIG user_home := "{}"]> fs) (host [] 0%nat [] [] []) in
  fst (main render render user_home insertion_order 2 w) = Ok None
  /\ trace (snd (main render render user_home insertion_order 2 w))
     = [Query monitors_args LaunchFailure; Query clients_args LaunchFailure; Sleep 500;
        Query monitors_args LaunchFailure; Query clients_args LaunchFailure; Sleep 500].
Proof. split; reflexivity. Qed.

(** The handler stops the instance of DP-2, which does not exit before it
    is killed, in one second. *)
Example shutdown_of_a_stubborn_instance :
  fst (_shutdown blind) = Ok SystemExit
  /\ procs (snd (_shutdown blind)) = []
  /\ stopped (trace (snd (_shutdown blind))) = [JStr "DP-2"]
  /\ last (trace (snd (_shutdown blind))) = Some (Kill 0%nat true)
  /\ slept (trace (snd (_shutdown blind))) = 1000%N.
Proof. repeat split; reflexivity. Qed.
